(** * fumadocs-pdf-export: the export pipeline of [src/route-handler.ts]

    A shallow embedding of the route handler, of the option types and
    presets of [types.ts] and of the download name of the export button,
    with the properties of the specification proved over it.

    Conventions.  A JavaScript string is a [string]: the sequence of its
    code units, each one an [ascii] (code units below 256, which is what
    [Headers.get] hands to the handler).  A JavaScript number is a binary64
    [float].  An object used as a bag of optional fields is a finite map
    from field names to values, and the spread [{...a, ...b}] is the union
    that prefers [b].

    The handler meets the browser through the calls it awaits, each of which
    returns or throws.  The scripts it sends to the page are modelled where
    they run: the accordion script on a page that answers queries and
    clicks, the image script on the events the images fire, the cleanup and
    the measuring script on the tree of the document.  Selectors are strings
    for the handler and parsed selectors for the page. *)

From Stdlib Require Import Ascii String Floats.
From stdpp Require Import base option list strings pretty gmap.

Local Open Scope string_scope.
Local Open Scope list_scope.

(** ** String methods of the JavaScript standard library *)

Module Js.

(** [s.split(sep)] for a separator of one code unit: never empty, the empty
    string gives one empty piece. *)
Fixpoint split (sep : ascii) (s : string) : list string :=
  match s with
  | EmptyString => [ EmptyString ]
  | String c rest =>
      if Ascii.eqb c sep then EmptyString :: split sep rest
      else match split sep rest with
           | [] => [ String c EmptyString ]
           | piece :: pieces => String c piece :: pieces
           end
  end.

(** [parts.join(sep)] *)
Fixpoint join (sep : string) (parts : list string) : string :=
  match parts with
  | [] => EmptyString
  | [ p ] => p
  | p :: more => p +:+ sep +:+ join sep more
  end.

(** White space and line terminators of ECMAScript among the code units
    below 256: TAB, LF, VT, FF, CR, SP and NBSP. *)
Definition isWhiteSpace (c : ascii) : bool :=
  let n := nat_of_ascii c in
  ((9 <=? n)%nat && (n <=? 13)%nat) || (n =? 32)%nat || (n =? 160)%nat.

Fixpoint trimStart (s : string) : string :=
  match s with
  | EmptyString => EmptyString
  | String c rest => if isWhiteSpace c then trimStart rest else s
  end.

Fixpoint trimEnd (s : string) : string :=
  match s with
  | EmptyString => EmptyString
  | String c rest =>
      match trimEnd rest with
      | EmptyString => if isWhiteSpace c then EmptyString else String c EmptyString
      | kept => String c kept
      end
  end.

(** [s.trim()] *)
Definition trim (s : string) : string := trimEnd (trimStart s).

(** [s.includes(c)] for a pattern of one code unit *)
Fixpoint includes (c : ascii) (s : string) : bool :=
  match s with
  | EmptyString => false
  | String d rest => Ascii.eqb d c || includes c rest
  end.

(** [s.startsWith(p)] *)
Fixpoint startsWith (s p : string) : bool :=
  match p, s with
  | EmptyString, _ => true
  | String _ _, EmptyString => false
  | String a p', String b s' => Ascii.eqb a b && startsWith s' p'
  end.

(** Truthiness of a string: only the empty string is falsy. *)
Definition truthy (s : string) : bool :=
  match s with EmptyString => false | String _ _ => true end.

(** [s || d] on strings *)
Definition or_else (s d : string) : string := if truthy s then s else d.

(** [s.replace(/c/g, r)]: every occurrence of the code unit [c] becomes [r]. *)
Fixpoint replaceAll (c r : ascii) (s : string) : string :=
  match s with
  | EmptyString => EmptyString
  | String d rest => String (if Ascii.eqb d c then r else d) (replaceAll c r rest)
  end.

(** [s.replace(/^c/, '')]: one leading [c] is dropped. *)
Definition dropLeading (c : ascii) (s : string) : string :=
  match s with
  | String d rest => if Ascii.eqb d c then rest else s
  | EmptyString => EmptyString
  end.

(** [s.replace(c, '')] with a string pattern: the first occurrence only. *)
Fixpoint dropFirst (c : ascii) (s : string) : string :=
  match s with
  | EmptyString => EmptyString
  | String d rest => if Ascii.eqb d c then rest else String d (dropFirst c rest)
  end.

(** [arr.filter(x => x !== null)] after a [map] that may give [null]. *)
Fixpoint filterNonNull {A} (xs : list (option A)) : list A :=
  match xs with
  | [] => []
  | None :: more => filterNonNull more
  | Some x :: more => x :: filterNonNull more
  end.

End Js.

(** ** Cookie Translator: [parseCookies] *)

Module Cookies.

(** The object literals of [parseCookies]: [url] and [domain] are the two
    fields that only some of the literals carry. *)
Record CookieParam := {
  name : string;
  value : string;
  url : option string;
  domain : option string;
  path : string;
  secure : bool
}.

(** The callback given to [map]; [None] is its [null]. *)
Definition parseCookie (domain : string) (isSecure : bool) (baseUrl : string)
    (cookie : string) : option CookieParam :=
  let trimmed := Js.trim cookie in
  if negb (Js.truthy trimmed) || negb (Js.includes "="%char trimmed) then None
  else
    match Js.split "="%char trimmed with
    | [] => None
    | name :: valueParts =>
        let cookieName := Js.trim name in
        let cookieValue := Js.join "=" valueParts in
        if negb (Js.truthy cookieName) then None
        else if Js.startsWith cookieName "__Host-" then
          Some {| name := cookieName; value := Js.or_else cookieValue "";
                  url := Some baseUrl; domain := None;
                  path := "/"; secure := true |}
        else if Js.startsWith cookieName "__Secure-" then
          Some {| name := cookieName; value := Js.or_else cookieValue "";
                  url := Some baseUrl; domain := None;
                  path := "/"; secure := true |}
        else
          Some {| name := cookieName; value := Js.or_else cookieValue "";
                  url := None; domain := Some domain;
                  path := "/"; secure := isSecure |}
    end.

Definition parseCookies (cookieHeader domain : string) (isSecure : bool)
    (baseUrl : string) : list CookieParam :=
  Js.filterNonNull
    (map (parseCookie domain isSecure baseUrl) (Js.split ";"%char cookieHeader)).

End Cookies.

(** Reading a pair the way the specification words it: the text before the
    first [c], and the text after it. *)
Fixpoint beforeFirst (c : ascii) (s : string) : string :=
  match s with
  | EmptyString => EmptyString
  | String d rest => if Ascii.eqb d c then EmptyString else String d (beforeFirst c rest)
  end.

Fixpoint afterFirst (c : ascii) (s : string) : string :=
  match s with
  | EmptyString => EmptyString
  | String d rest => if Ascii.eqb d c then rest else afterFirst c rest
  end.

Module CookieSpec.
Import Cookies.

Definition pairName (pair : string) : string :=
  Js.trim (beforeFirst "=" (Js.trim pair)).

Definition pairValue (pair : string) : string :=
  afterFirst "=" (Js.trim pair).

(** A valid pair has an [=] and a name that is not empty. *)
Definition validPair (pair : string) : bool :=
  Js.includes "=" (Js.trim pair) && Js.truthy (pairName pair).

(** The prefix rule table, as a property of one record. *)
Definition followsPrefixRules (domain : string) (isSecure : bool)
    (baseUrl : string) (r : CookieParam) : Prop :=
  path r = "/" /\
  if Js.startsWith (name r) "__Host-" then
    url r = Some baseUrl /\ secure r = true /\ Cookies.domain r = None
  else if Js.startsWith (name r) "__Secure-" then
    url r = Some baseUrl /\ secure r = true
  else
    Cookies.domain r = Some domain /\ secure r = isSecure /\ url r = None.

End CookieSpec.

(** ** Download name *)

Module Filename.

(** [path.replace(/\//g, '-').replace(/^-/, '') || 'document'] *)
Definition fromPath (path : string) : string :=
  Js.or_else (Js.dropLeading "-" (Js.replaceAll "/" "-" path)) "document".

(** The name the handler puts in [Content-Disposition]. *)
Definition handlerFilename (path : string) : string := fromPath path +:+ ".pdf".

(** [a.download] of the export button; [filename] is the optional prop. *)
Definition download (filename : option string) (currentPath : string) : string :=
  match filename with
  | Some f => if Js.truthy f then f +:+ ".pdf" else fromPath currentPath +:+ ".pdf"
  | None => fromPath currentPath +:+ ".pdf"
  end.

End Filename.

(** ** Options, presets and the resolved configuration *)

Module Config.

(** The double quote, which selector strings contain. *)
Definition dq : string := String (ascii_of_nat 34) EmptyString.

(** The values an options object holds.  [Obj] is a nested object
    ([margins], [puppeteerOptions]). *)
#[local] Unset Elimination Schemes.
Inductive Value :=
| Undefined
| Bool (b : bool)
| Number (x : float)
| Str (s : string)
| Strs (items : list string)
| Obj (fields : gmap string Value).
#[local] Set Elimination Schemes.

(** An object: its own enumerable properties. *)
Abbreviation Object := (gmap string Value).

(** [{...a, ...b}]: the properties of [b] win. *)
Definition spread (a b : Object) : Object := b ∪ a.

(** The index properties of a string or of an array: [0], [1], ... *)
Definition indexed (items : list Value) : Object :=
  list_to_map (imap (fun i item => (pretty i, item)) items).

(** [{...v}] of a property that may be absent: an object gives its
    properties, a string its code units and an array its items under their
    indices, and [undefined], a boolean or a number nothing. *)
Definition fieldsOf (v : option Value) : Object :=
  match v with
  | Some (Obj fields) => fields
  | Some (Str s) =>
      indexed (map (fun c => Str (String c EmptyString)) (list_ascii_of_string s))
  | Some (Strs items) => indexed (map Str items)
  | _ => ∅
  end.

Definition defaultMargins : Object :=
  {[ "top" := Number 30; "right" := Number 30;
     "bottom" := Number 30; "left" := Number 30 ]}.

Definition defaultOptions : Object :=
  {[ "contentSelector" := Str "article";
     "removeSelectors" := Strs [ "#nd-sidebar"; "#nd-toc"; "nav"; ".print-hidden" ];
     "expandAccordions" := Bool true;
     "accordionTriggerSelectors" :=
       Strs [ "button[data-state=" +:+ dq +:+ "closed" +:+ dq +:+ "]";
              "[data-state=" +:+ dq +:+ "closed" +:+ dq +:+ "] > button";
              "[data-state=" +:+ dq +:+ "closed" +:+ dq +:+ "][role="
                +:+ dq +:+ "button" +:+ dq +:+ "]" ];
     "accordionContentSelectors" :=
       Strs [ "[data-radix-accordion-content]"; "[data-radix-collapsible-content]" ];
     "triggerLazyImages" := Bool true;
     "pageWidth" := Number 850;
     "margins" := Obj defaultMargins;
     "timeout" := Number 30000 ]}.

(** [types.ts]: the preset table. *)
Inductive PresetName := fumadocs | docusaurus | nextra.

Record Preset := {
  contentSelector : string;
  removeSelectors : list string;
  accordionTriggerSelectors : list string;
  accordionContentSelectors : list string
}.

Definition presets (name : PresetName) : Preset :=
  match name with
  | fumadocs =>
      {| contentSelector := "article";
         removeSelectors := [ "#nd-sidebar"; "#nd-toc"; "nav"; ".print-hidden" ];
         accordionTriggerSelectors :=
           [ "button[data-state=" +:+ dq +:+ "closed" +:+ dq +:+ "]";
             "[data-state=" +:+ dq +:+ "closed" +:+ dq +:+ "] > button";
             "[data-state=" +:+ dq +:+ "closed" +:+ dq +:+ "][role="
               +:+ dq +:+ "button" +:+ dq +:+ "]" ];
         accordionContentSelectors :=
           [ "[data-radix-accordion-content]"; "[data-radix-collapsible-content]" ] |}
  | docusaurus =>
      {| contentSelector := "article";
         removeSelectors :=
           [ ".theme-doc-sidebar-container"; ".table-of-contents"; "nav"; ".print-hidden" ];
         accordionTriggerSelectors :=
           [ ".collapsible-button";
             "button[aria-expanded=" +:+ dq +:+ "false" +:+ dq +:+ "]" ];
         accordionContentSelectors := [ ".collapsible-content" ] |}
  | nextra =>
      {| contentSelector := "article";
         removeSelectors := [ "nav"; "aside"; ".nextra-sidebar"; ".nextra-toc"; ".print-hidden" ];
         accordionTriggerSelectors :=
           [ "button[data-state=" +:+ dq +:+ "closed" +:+ dq +:+ "]" ];
         accordionContentSelectors := [ "[data-radix-collapsible-content]" ] |}
  end.

(** The properties of a preset object, as [{...preset}] copies them. *)
Definition presetFields (preset : Preset) : Object :=
  {[ "contentSelector" := Str (contentSelector preset);
     "removeSelectors" := Strs (removeSelectors preset);
     "accordionTriggerSelectors" := Strs (accordionTriggerSelectors preset);
     "accordionContentSelectors" := Strs (accordionContentSelectors preset) ]}.

(** The argument of [createPdfExportHandler]. *)
Inductive Options :=
| NoOptions
| PresetNamed (name : PresetName)
| OptionsObject (options : Object).

(** [resolvedOptions]: a preset name is replaced by a copy of its preset,
    the three arrays copied in turn; anything else is the object itself, or
    [{}]. *)
Definition resolveOptions (options : Options) : Object :=
  match options with
  | PresetNamed name =>
      let preset := presets name in
      <[ "accordionContentSelectors" := Strs (accordionContentSelectors preset) ]>
        (<[ "accordionTriggerSelectors" := Strs (accordionTriggerSelectors preset) ]>
           (<[ "removeSelectors" := Strs (removeSelectors preset) ]>
              (presetFields preset)))
  | OptionsObject options => options
  | NoOptions => ∅
  end.

(** [config]: the defaults, then the resolved options, then [margins]
    merged side by side. *)
Definition resolveConfig (options : Options) : Object :=
  let resolvedOptions := resolveOptions options in
  <[ "margins" := Obj (spread (fieldsOf (defaultOptions !! "margins"))
                              (fieldsOf (resolvedOptions !! "margins"))) ]>
    (spread defaultOptions resolvedOptions).

End Config.

(** ** Accordion Expander: [expandAccordions] *)

Module Accordion.

Section Page.
(** The page the browser holds, and the element handles a query returns. *)
Variables (Page Handle : Type).
(** [document.querySelectorAll(sel)], in document order; [None] when the
    page rejects the selector string with a [SyntaxError]. *)
Variable querySelectorAll : string -> Page -> option (list Handle).
(** [btn.click()], event handlers included; the buttons are HTML elements,
    as the cast in the source has it, so that [click] is there to call. *)
Variable click : Handle -> Page -> Page.
(** What the page does by itself while the handler sleeps [ms] milliseconds. *)
Variable settle : nat -> Page -> Page.

(** [closedButtons.forEach((btn) => btn.click())] *)
Definition clickAll (closedButtons : list Handle) (page : Page) : Page :=
  foldl (fun p btn => click btn p) page closedButtons.

(** A run: whether it threw, the page it leaves, and for every round whose
    script ran, the buttons it clicked. *)
Record Run := {
  threw : bool;
  finalPage : Page;
  rounds : list (list Handle)
}.

(** The [for] loop with [budget] iterations left. *)
Fixpoint loop (budget : nat) (selectorString : string) (page : Page) : Run :=
  match budget with
  | 0 => {| threw := false; finalPage := page; rounds := [] |}
  | S budget' =>
      match querySelectorAll selectorString page with
      | None => {| threw := true; finalPage := page; rounds := [] |}
      | Some closedButtons =>
          let page' := clickAll closedButtons page in
          let expanded := length closedButtons in
          if (expanded =? 0)%nat then
            {| threw := false; finalPage := page'; rounds := [ closedButtons ] |}
          else
            let rest := loop budget' selectorString (settle 400 page') in
            {| threw := threw rest; finalPage := finalPage rest;
               rounds := closedButtons :: rounds rest |}
      end
  end.

Definition expandAccordions (page : Page) (selectors : list string) : Run :=
  let selectorString := Js.join ", " selectors in
  let run := loop 5 selectorString page in
  if threw run then run
  else {| threw := false; finalPage := settle 500 (finalPage run);
          rounds := rounds run |}.

(** The page at the start of round [k], had every round before it run. *)
Fixpoint pageAtRound (selectorString : string) (page : Page) (k : nat) : Page :=
  match k with
  | 0 => page
  | S k' =>
      let p := pageAtRound selectorString page k' in
      settle 400 (clickAll (default [] (querySelectorAll selectorString p)) p)
  end.

End Page.

End Accordion.

(** ** Lazy-Content Forcer: the forced reload of [triggerLazyImages] *)

Module LazyImages.

(** What the browser fires on an image whose source was set again. *)
Inductive Fired := Load | Error | Nothing.

Record Img := {
  complete : bool;
  naturalHeight : N;
  src : string;
  loading : option string;
  fires : Fired
}.

(** The state a promise ends in. *)
Inductive Settled := Fulfilled | Rejected (reason : string) | Pending.

(** [img.removeAttribute('loading')] *)
Definition removeLoading (img : Img) : Img :=
  {| complete := complete img; naturalHeight := naturalHeight img;
     src := src img; loading := None; fires := fires img |}.

(** The two handlers the executor installs: both are [resolve]. *)
Definition onload : Settled := Fulfilled.
Definition onerror : Settled := Fulfilled.

(** The promise [map] builds for one image. *)
Definition waitFor (img : Img) : Settled :=
  if complete img && (0 <? naturalHeight img)%N then Fulfilled
  else match fires img with
       | Load => onload
       | Error => onerror
       | Nothing => Pending
       end.

(** [Promise.all]: rejected when a member is, else pending when a member
    is, else fulfilled. *)
Fixpoint all (promises : list Settled) : Settled :=
  match promises with
  | [] => Fulfilled
  | Rejected reason :: _ => Rejected reason
  | Fulfilled :: more => all more
  | Pending :: more =>
      match all more with
      | Rejected reason => Rejected reason
      | _ => Pending
      end
  end.

(** The second script of [triggerLazyImages]: how its promise settles. *)
Definition reloadImages (images : list Img) : Settled :=
  all (map waitFor (map removeLoading images)).

(** The same image, firing [f]. *)
Definition firing (f : Fired) (img : Img) : Img :=
  {| complete := complete img; naturalHeight := naturalHeight img;
     src := src img; loading := loading img; fires := f |}.

End LazyImages.

(** A page of disclosures nested in one another, [page] of them still
    closed: only the outermost closed one is in the document, and a click
    on it opens it.  The empty string is not a selector, and
    [querySelectorAll] rejects it. *)
Module NestedDisclosures.

Definition querySelectorAll (sel : string) (page : nat) : option (list unit) :=
  if Js.truthy sel then Some (match page with 0 => [] | S _ => [ tt ] end)
  else None.

Definition click (btn : unit) (page : nat) : nat := Nat.pred page.

Definition settle (ms : nat) (page : nat) : nat := page.

Definition expand (page : nat) (selectors : list string) : Accordion.Run nat unit :=
  Accordion.expandAccordions nat unit querySelectorAll click settle page selectors.

End NestedDisclosures.

(** ** Render Orchestrator: the handler returned by [createPdfExportHandler] *)

Module Handler.

(** A thrown value, kept as [String(error)] prints it. *)
Definition Thrown := string.

(** The awaited operations of the handler, in the order of the source. *)
Inductive Stage :=
| Launch              (* puppeteer.launch *)
| NewPage             (* browser.newPage *)
| SetCookie           (* page.setCookie *)
| SetViewport         (* page.setViewport *)
| Goto                (* page.goto: navigation *)
| ExpandAccordions    (* expansion *)
| TriggerLazyImages   (* lazy-forcing *)
| CleanupPageForPdf   (* sanitization *)
| BeforePdfGeneration (* the custom transform *)
| MeasureHeight       (* measurement *)
| Pdf                 (* page.pdf: rasterization *)
| Close.              (* browser.close *)

Inductive Arg :=
| AStr (s : string)
| ANum (x : float)
| AField (v : option Config.Value)
| ACookies (cookies : list Cookies.CookieParam).

Record Call := { stage : Stage; args : list Arg }.

(** A call that was made, and what it threw if it did. *)
Definition Event : Type := Call * option Thrown.

(** The browser as the handler meets it: whether a call rejects, the height
    a measurement returns and the bytes a rendering returns, each in view
    of everything that happened before; and, of the server beside it, the
    error with which the constructor of the response refuses a header
    value. *)
Record Browser := {
  throws : list Event -> Call -> option Thrown;
  measured : list Event -> float;
  printed : list Event -> string;
  refused : string -> Thrown    (* what [new NextResponse] throws for a header
                                   value that it refuses *)
}.

Record Request := {
  searchPath : option string;   (* searchParams.get('path') *)
  protocol : string;            (* nextUrl.protocol *)
  hostHeader : option string;   (* headers.get('host') *)
  cookieField : option string   (* headers.get('cookie') *)
}.

Inductive Response :=
| Json (status : nat) (body : list (string * string))
| PdfFile (body : string) (headers : list (string * string)).

(** What a run has done so far, and whether the variable [browser] holds a
    session. *)
Record State := { events : list Event; browser : bool }.

Definition initial : State := {| events := []; browser := false |}.

(** Truthiness of a field that may be absent. *)
Definition truthy (v : option Config.Value) : bool :=
  match v with
  | None | Some Config.Undefined => false
  | Some (Config.Bool b) => b
  | Some (Config.Number x) => negb (PrimFloat.eqb x 0 || PrimFloat.is_nan x)
  | Some (Config.Str s) => Js.truthy s
  | Some (Config.Strs _) | Some (Config.Obj _) => true
  end.

(** A header value that the [Headers] of the response accepts: it holds no
    NUL, no line feed and no carriage return.  (White space at its ends is
    stripped and not refused; a code unit above 255, which is refused too,
    is outside the strings of this development.) *)
Definition legalHeaderValue (v : string) : bool :=
  negb (Js.includes "000" v || Js.includes "010" v || Js.includes "013" v).

Section Run.
Variable world : Browser.

(** An asynchronous computation: it returns or throws, and leaves a state. *)
Definition M (A : Type) : Type := State -> (Thrown + A) * State.

#[export] Instance M_ret : MRet M := fun A a s => (inr a, s).

#[export] Instance M_bind : MBind M := fun A B f m s =>
  match m s with
  | (inl e, s') => (inl e, s')
  | (inr a, s') => f a s'
  end.

(** [await] of one operation of the browser. *)
Definition call (st : Stage) (a : list Arg) : M unit := fun s =>
  let c := {| stage := st; args := a |} in
  let outcome := throws world (events s) c in
  let s' := {| events := events s ++ [ (c, outcome) ]; browser := browser s |} in
  match outcome with
  | Some e => (inl e, s')
  | None => (inr tt, s')
  end.

(** [browser = ...]: the assignment after a launch that resolved. *)
Definition assignBrowser : M unit := fun s =>
  (inr tt, {| events := events s; browser := true |}).

Definition readBrowser : M bool := fun s => (inr (browser s), s).

Definition lastMeasured : M float := fun s => (inr (measured world (events s)), s).

Definition lastPrinted : M string := fun s => (inr (printed world (events s)), s).

(** [try { body } catch (error) { handler }] *)
Definition tryCatch {A} (body : M A) (handler : Thrown -> M A) : M A := fun s =>
  match body s with
  | (inl e, s') => handler e s'
  | (inr a, s') => (inr a, s')
  end.

(** [if (b) { await m }] *)
Definition when (b : bool) (m : M unit) : M unit := if b then m else mret tt.

(** [new NextResponse(body, { headers })]: the constructor throws for a
    header value that is not legal. *)
Definition newResponse (body : string) (headers : list (string * string))
    : M Response := fun s =>
  match List.find (fun h => negb (legalHeaderValue h.2)) headers with
  | Some h => (inl (refused world h.2), s)
  | None => (inr (PdfFile body headers), s)
  end.

Definition handler (options : Config.Options) (request : Request) : M Response :=
  let resolvedOptions := Config.resolveOptions options in
  let config := Config.resolveConfig options in
  let path := default "" (searchPath request) in
  if negb (Js.truthy path) then
    mret (Json 400 [ ("error", "Missing path parameter") ])
  else
    let protocol := Js.dropFirst ":" (protocol request) in
    let host := Js.or_else (default "" (hostHeader request)) "localhost:3000" in
    let baseUrl := protocol +:+ "://" +:+ host in
    let pageUrl := baseUrl +:+ path in
    let cookieHeader := Js.or_else (default "" (cookieField request)) "" in
    tryCatch
      (call Launch [ AField (config !! "puppeteerOptions") ];;
       assignBrowser;;
       call NewPage [];;
       when (Js.truthy cookieHeader)
         (let domain := default "" (head (Js.split ":" host)) in
          let isSecure := String.eqb protocol "https" in
          let cookies := Cookies.parseCookies cookieHeader domain isSecure baseUrl in
          when (0 <? length cookies)%nat (call SetCookie [ ACookies cookies ]));;
       call SetViewport [ AField (config !! "pageWidth"); ANum 600 ];;
       call Goto [ AStr pageUrl; AStr "networkidle0"; AField (config !! "timeout") ];;
       when (truthy (config !! "expandAccordions"))
         (call ExpandAccordions [ AField (config !! "accordionTriggerSelectors") ]);;
       when (truthy (config !! "triggerLazyImages"))
         (call TriggerLazyImages []);;
       call CleanupPageForPdf
         [ AField (config !! "contentSelector"); AField (config !! "removeSelectors");
           AField (config !! "accordionContentSelectors") ];;
       when (truthy (resolvedOptions !! "beforePdfGeneration"))
         (call BeforePdfGeneration [ AField (resolvedOptions !! "beforePdfGeneration") ]);;
       call MeasureHeight [ AField (config !! "contentSelector") ];;
       contentHeight ← lastMeasured;
       call Pdf [ AField (config !! "pageWidth"); ANum (contentHeight + 60);
                  AField (config !! "margins") ];;
       pdfBuffer ← lastPrinted;
       call Close [];;
       let filename := Filename.fromPath path in
       newResponse pdfBuffer
         [ ("Content-Type", "application/pdf");
           ("Content-Disposition",
            "attachment; filename=" +:+ Config.dq +:+ filename +:+ ".pdf"
              +:+ Config.dq) ])
      (fun error =>
         isOpen ← readBrowser;
         when isOpen (call Close []);;
         mret (Json 500 [ ("error", "Failed to generate PDF"); ("details", error) ]))%string.

End Run.

(** The calls that closed, or tried to close, the session. *)
Definition closes (evs : list Event) : list Event :=
  List.filter (fun ev => match stage ev.1 with Close => true | _ => false end) evs.

(** A browser in which nothing fails. *)
Definition nothingFails : Browser :=
  {| throws := fun _ _ => None;
     measured := fun _ => 1240%float;
     printed := fun _ => "%PDF-1.4";
     refused := fun v => "TypeError: Headers.append: invalid header value" |}.

(** A browser in which navigation times out and nothing else fails. *)
Definition navigationTimesOut : Browser :=
  {| throws := fun _ c =>
       match stage c with
       | Goto => Some "TimeoutError: Navigation timeout of 30000 ms exceeded"
       | _ => None
       end;
     measured := fun _ => 1200%float;
     printed := fun _ => "%PDF-1.4";
     refused := fun v => "TypeError: Headers.append: invalid header value" |}.

End Handler.

(** Assertions on the runs of the handler. *)

Module HandlerLogic.
Import Handler.

(** [m], started in a state of [P], returns in a state of [Q] or throws in a
    state of [F]. *)
Definition hoare {A} (P : State -> Prop) (m : M A)
    (Q : A -> State -> Prop) (F : Thrown -> State -> Prop) : Prop :=
  forall s, P s ->
    match m s with
    | (inr a, s') => Q a s'
    | (inl e, s') => F e s'
    end.



(** Nothing has been called yet. *)
Definition Fresh (s : State) : Prop := events s = [] /\ browser s = false.





Definition failureReport (e : Thrown) : Response :=
  Json 500 [ ("error", "Failed to generate PDF"); ("details", e) ].


End HandlerLogic.

(** The failure policy as the specification words it. *)

Module HandlerSpec.
Import Handler.


End HandlerSpec.

(** ** The page: elements, selectors and computed style *)

Module Dom.

(** An element without its children.  [attributes] holds every attribute
    but [style]; [style] holds the inline declarations, as [el.style] shows
    them, under the names of CSS ([overflow] is kept as its two longhands);
    [sheet] holds what the style sheets of the page declare for the element,
    each value with its [!important] flag. *)
Record ElementData := {
  tagName : string;
  attributes : gmap string string;
  style : gmap string string;
  sheet : gmap string (string * bool)
}.

#[local] Unset Elimination Schemes.
Inductive Node :=
| Text (data : string)
| Element (d : ElementData) (childNodes : list Node).
#[local] Set Elimination Schemes.

(** *** Selectors, as the page has parsed them *)

(** The selectors of this development are lists of complex selectors made
    of tests of the tag, the id, the classes and the attributes, joined by
    the child and the descendant combinators.  Every selector of
    [defaultOptions], of the presets and of the scripts of the handler is of
    that kind.  Pseudo-classes such as [:first-child], pseudo-elements and
    the sibling combinators are not among them: what is proved for every
    [Selector] is proved of that fragment, and a test of the position of an
    element among its siblings is outside it. *)

Inductive Simple :=
| Universal                          (* [*] *)
| Tag (name : string)                (* [nav] *)
| Id (id : string)                   (* [#nd-toc] *)
| Class (c : string)                 (* [.print-hidden] *)
| HasAttr (a : string)               (* [[data-orientation]] *)
| AttrEquals (a v : string)          (* [[data-state="closed"]] *)
| AttrContains (a v : string).       (* [[class*="grid-cols-2"]] *)

Inductive Combinator := Child | Descendant.

(** A complex selector, read from its subject leftwards. *)
Record Complex := {
  subject : list Simple;
  context : list (Combinator * list Simple)
}.

(** A selector list; it has at least one member. *)
Record Selector := { alternative : Complex; alternatives : list Complex }.

Definition isSpace (c : ascii) : bool :=
  let n := nat_of_ascii c in
  (n =? 9)%nat || (n =? 10)%nat || (n =? 12)%nat || (n =? 13)%nat || (n =? 32)%nat.

(** The tokens of a [class] attribute, [cur] being the token under way. *)
Fixpoint tokensFrom (cur s : string) : list string :=
  match s with
  | EmptyString => if Js.truthy cur then [ cur ] else []
  | String c rest =>
      if isSpace c then
        (if Js.truthy cur then [ cur ] else []) ++ tokensFrom EmptyString rest
      else tokensFrom (cur +:+ String c EmptyString) rest
  end.

Fixpoint isSubstring (needle hay : string) : bool :=
  Js.startsWith hay needle ||
  match hay with
  | EmptyString => false
  | String _ rest => isSubstring needle rest
  end.

Definition matchesSimple (s : Simple) (d : ElementData) : bool :=
  match s with
  | Universal => true
  | Tag name => String.eqb (tagName d) name
  | Id id =>
      match attributes d !! "id" with
      | Some v => String.eqb v id
      | None => false
      end
  | Class c =>
      match attributes d !! "class" with
      | Some v => existsb (String.eqb c) (tokensFrom EmptyString v)
      | None => false
      end
  | HasAttr a => bool_decide (is_Some (attributes d !! a))
  | AttrEquals a v =>
      match attributes d !! a with
      | Some x => String.eqb x v
      | None => false
      end
  | AttrContains a v =>
      match attributes d !! a with
      | Some x => Js.truthy v && isSubstring v x
      | None => false
      end
  end.

Definition matchesCompound (c : list Simple) (d : ElementData) : bool :=
  forallb (fun s => matchesSimple s d) c.

(** The context of a complex selector against the ancestors of an element,
    the parent first. *)
Fixpoint matchesContext (ctx : list (Combinator * list Simple))
    (ancestors : list ElementData) : bool :=
  match ctx with
  | [] => true
  | (Child, c) :: ctx' =>
      match ancestors with
      | parent :: up => matchesCompound c parent && matchesContext ctx' up
      | [] => false
      end
  | (Descendant, c) :: ctx' =>
      (fix somewhere (anc : list ElementData) : bool :=
         match anc with
         | [] => false
         | a :: up => (matchesCompound c a && matchesContext ctx' up) || somewhere up
         end) ancestors
  end.

Definition matchesComplex (cx : Complex) (ancestors : list ElementData)
    (d : ElementData) : bool :=
  matchesCompound (subject cx) d && matchesContext (context cx) ancestors.

(** [el.matches(sel)] for an element with these ancestors. *)
Definition matches (sel : Selector) (ancestors : list ElementData)
    (d : ElementData) : bool :=
  existsb (fun cx => matchesComplex cx ancestors d)
    (alternative sel :: alternatives sel).

(** A selector that looks at the element alone. *)
Definition contextFree (sel : Selector) : Prop :=
  Forall (fun cx => context cx = []) (alternative sel :: alternatives sel).

(** *** Walking the tree *)

(** An element where it stands: its ancestors, the parent first. *)
Record Located := {
  ancestors : list ElementData;
  element : ElementData;
  children : list Node
}.

(** The elements of a subtree, its root included, in document order. *)
Fixpoint elementsOf (anc : list ElementData) (n : Node) : list Located :=
  match n with
  | Text _ => []
  | Element d kids =>
      {| ancestors := anc; element := d; children := kids |}
        :: flat_map (elementsOf (d :: anc)) kids
  end.

(** The elements below a parent whose children are [kids]. *)
Definition descendants (anc : list ElementData) (kids : list Node) : list Located :=
  flat_map (elementsOf anc) kids.

(** What holds of every element below a parent. *)
Definition everywhere (Q : ElementData -> Prop) (anc : list ElementData)
    (kids : list Node) : Prop :=
  Forall (fun l => Q (element l)) (descendants anc kids).

(** [parent.querySelectorAll(sel)] *)
Definition querySelectorAll (sel : Selector) (anc : list ElementData)
    (kids : list Node) : list Located :=
  List.filter (fun l => matches sel (ancestors l) (element l)) (descendants anc kids).

(** [list.forEach((el) => el.remove())], the list being the elements that
    [doomed] picks: each goes with all that is below it. *)
Fixpoint prune (doomed : Located -> bool) (anc : list ElementData) (n : Node)
    : list Node :=
  match n with
  | Text t => [ Text t ]
  | Element d kids =>
      if doomed {| ancestors := anc; element := d; children := kids |} then []
      else [ Element d (flat_map (prune doomed (d :: anc)) kids) ]
  end.

Definition pruneAll (doomed : Located -> bool) (anc : list ElementData)
    (kids : list Node) : list Node :=
  flat_map (prune doomed anc) kids.

(** The elements a pruning deletes: the doomed ones and all below them. *)
Fixpoint deletedIn (doomed : Located -> bool) (anc : list ElementData) (n : Node)
    : list Located :=
  match n with
  | Text _ => []
  | Element d kids =>
      if doomed {| ancestors := anc; element := d; children := kids |}
      then elementsOf anc n
      else flat_map (deletedIn doomed (d :: anc)) kids
  end.

Definition deleted (doomed : Located -> bool) (anc : list ElementData)
    (kids : list Node) : list Located :=
  flat_map (deletedIn doomed anc) kids.

(** [list.forEach((el) => { change el.style })]: [f] gives an element its
    new data. *)
Fixpoint restyle (f : list ElementData -> ElementData -> ElementData)
    (anc : list ElementData) (n : Node) : Node :=
  match n with
  | Text t => Text t
  | Element d kids =>
      let d' := f anc d in
      Element d' (map (restyle f (d' :: anc)) kids)
  end.

(** The change [f], for the elements that [sel] matches. *)
Definition forEachMatching (sel : Selector) (f : ElementData -> ElementData)
    (anc : list ElementData) (kids : list Node) : list Node :=
  map (restyle (fun a d => if matches sel a d then f d else d) anc) kids.

(** *** Style *)

(** [el.style.setProperty(p, v)] *)
Definition setStyle (p v : string) (d : ElementData) : ElementData :=
  {| tagName := tagName d; attributes := attributes d;
     style := <[ p := v ]> (style d); sheet := sheet d |}.

(** [el.style.overflow = v]: the shorthand sets both longhands. *)
Definition setOverflow (v : string) (d : ElementData) : ElementData :=
  setStyle "overflow-y" v (setStyle "overflow-x" v d).

(** [el.style.cssText = ...]: the declarations replace the inline style. *)
Definition setCssText (decls : list (string * string)) (d : ElementData)
    : ElementData :=
  {| tagName := tagName d; attributes := attributes d;
     style := list_to_map decls; sheet := sheet d |}.

Definition initialValue (p : string) : string :=
  if String.eqb p "position" then "static"
  else if String.eqb p "overflow-x" then "visible"
  else if String.eqb p "overflow-y" then "visible"
  else "".

(** [getComputedStyle(el)[p]] for a longhand that is not inherited: an
    [!important] declaration of a sheet, else the inline declaration, else
    the declaration of a sheet, else the initial value. *)
Definition computed (p : string) (d : ElementData) : string :=
  match sheet d !! p with
  | Some (v, true) => v
  | declared =>
      match style d !! p with
      | Some v => v
      | None =>
          match declared with
          | Some (v, _) => v
          | None => initialValue p
          end
      end
  end.

(** The computed value of one axis of the overflow, from what the cascade
    gives the axis and the other one: beside an axis that is neither
    [visible] nor [clip], [visible] computes to [auto] and [clip] to
    [hidden]. *)
Definition overflowAxis (own other : string) : string :=
  if String.eqb other "visible" || String.eqb other "clip" then own
  else if String.eqb own "visible" then "auto"
  else if String.eqb own "clip" then "hidden"
  else own.

(** [getComputedStyle(el).overflowX] and [getComputedStyle(el).overflowY] *)
Definition computedOverflowX (d : ElementData) : string :=
  overflowAxis (computed "overflow-x" d) (computed "overflow-y" d).

Definition computedOverflowY (d : ElementData) : string :=
  overflowAxis (computed "overflow-y" d) (computed "overflow-x" d).

(** [getComputedStyle(el).overflow]: one keyword when both axes agree. *)
Definition computedOverflow (d : ElementData) : string :=
  let x := computedOverflowX d in
  let y := computedOverflowY d in
  if String.eqb x y then x else x +:+ " " +:+ y.

(** *** The document *)

(** An HTML document: the [html] element with its [head] and its [body]. *)
Record Document := {
  documentElement : ElementData;
  head : ElementData;
  headNodes : list Node;
  body : ElementData;
  bodyNodes : list Node
}.

Definition tree (doc : Document) : Node :=
  Element (documentElement doc)
    [ Element (head doc) (headNodes doc); Element (body doc) (bodyNodes doc) ].

(** [document.querySelector(sel)] *)
Definition querySelector (sel : Selector) (doc : Document) : option Located :=
  List.head (List.filter (fun l => matches sel (ancestors l) (element l))
               (elementsOf [] (tree doc))).

End Dom.

(** ** DOM Sanitizer: [cleanupPageForPdf], and the Height Measurer *)

Module Sanitizer.
Import Dom.

Definition only (s : list Simple) : Selector :=
  {| alternative := {| subject := s; context := [] |}; alternatives := [] |}.

Definition either (s t : list Simple) : Selector :=
  {| alternative := {| subject := s; context := [] |};
     alternatives := [ {| subject := t; context := [] |} ] |}.

(** The selectors the script spells out. *)
Definition gridCols2 : Selector := only [ AttrContains "class" "grid-cols-2" ].
Definition container : Selector := only [ AttrContains "class" "@container" ].
Definition anchors : Selector := only [ Tag "a" ].
Definition everything : Selector := only [ Universal ].
Definition disclosureState : Selector :=
  either [ AttrEquals "data-state" "open" ] [ AttrEquals "data-state" "closed" ].
Definition accordionRoot : Selector :=
  either [ HasAttr "data-radix-accordion-root" ] [ HasAttr "data-orientation" ].
Definition accordionItem : Selector := only [ HasAttr "data-radix-accordion-item" ].

Definition bodyCss : list (string * string) :=
  [ ("margin", "0"); ("padding", "0"); ("background", "white");
    ("width", "100%"); ("max-width", "100%") ].

Definition rootCss : list (string * string) :=
  [ ("margin", "0"); ("padding", "0"); ("background", "white") ].

Definition cloneCss : list (string * string) :=
  [ ("max-width", "100%"); ("width", "100%"); ("margin", "0");
    ("padding", "0"); ("background", "white") ].

(** [el.matches(sel)] for an element where it stands. *)
Definition selects (sel : Selector) (l : Located) : bool :=
  matches sel (ancestors l) (element l).

(** The test of the second removal: a responsive container that still holds
    a grid block, or exactly two links. *)
Definition isNavigationBlock (l : Located) : bool :=
  selects container l &&
  (negb (bool_decide
           (querySelectorAll gridCols2 (element l :: ancestors l) (children l) = []))
   || (length (querySelectorAll anchors (element l :: ancestors l) (children l))
         =? 2)%nat).

(** [removeSelectors.forEach(...)] *)
Definition removeSelected (removeSelectors : list Selector)
    (anc : list ElementData) (kids : list Node) : list Node :=
  foldl (fun ks sel => pruneAll (selects sel) anc ks) kids removeSelectors.

(** The body of the loop over [*]: a pinned element is made static, a
    clipping one visible. *)
Definition unpin (d : ElementData) : ElementData :=
  let d1 :=
    if String.eqb (computed "position" d) "fixed"
       || String.eqb (computed "position" d) "sticky"
    then setStyle "position" "static" d else d in
  if String.eqb (computedOverflow d1) "hidden"
     || String.eqb (computedOverflowY d1) "hidden"
  then setOverflow "visible" d1 else d1.

(** The style given to an element with a disclosure state. *)
Definition openUp (d : ElementData) : ElementData :=
  setOverflow "visible"
    (setStyle "display" "block"
       (setStyle "visibility" "visible"
          (setStyle "opacity" "1"
             (setStyle "height" "auto"
                (setStyle "position" "relative"
                   (setStyle "animation" "none"
                      (setStyle "transition" "none"
                         (setStyle "transform" "none" d)))))))).

(** The style given to an accordion content container. *)
Definition unfoldContent (d : ElementData) : ElementData :=
  setOverflow "visible"
    (setStyle "display" "block"
       (setStyle "position" "relative"
          (setStyle "animation" "none"
             (setStyle "transition" "none"
                (setStyle "transform" "none"
                   (setStyle "height" "auto" d)))))).

Definition stackColumn (d : ElementData) : ElementData :=
  setStyle "gap" "0" (setStyle "flex-direction" "column" (setStyle "display" "flex" d)).

Definition blockItem (d : ElementData) : ElementData :=
  setStyle "height" "auto" (setStyle "display" "block" (setStyle "position" "relative" d)).

Definition noTopSpace (d : ElementData) : ElementData :=
  setStyle "padding-top" "0" (setStyle "margin-top" "0" d).

(** [accordionContentSelectors.forEach(...)] *)
Definition unfoldContents (accordionContentSelectors : list Selector)
    (anc : list ElementData) (kids : list Node) : list Node :=
  foldl (fun ks sel => forEachMatching sel unfoldContent anc ks) kids
    accordionContentSelectors.

(** The change [f] on [firstElementChild], when there is one. *)
Fixpoint onFirstElementChild (f : ElementData -> ElementData) (kids : list Node)
    : list Node :=
  match kids with
  | [] => []
  | Text t :: more => Text t :: onFirstElementChild f more
  | Element d below :: more => Element (f d) below :: more
  end.

(** What the script does to the children of the clone, the clone standing
    below [anc]. *)
Definition removals (removeSelectors : list Selector) (anc : list ElementData)
    (kids : list Node) : list Node :=
  removeSelected removeSelectors anc
    (pruneAll isNavigationBlock anc (pruneAll (selects gridCols2) anc kids)).

Definition restyles (accordionContentSelectors : list Selector)
    (anc : list ElementData) (kids : list Node) : list Node :=
  onFirstElementChild noTopSpace
    (forEachMatching accordionItem blockItem anc
       (forEachMatching accordionRoot stackColumn anc
          (unfoldContents accordionContentSelectors anc
             (forEachMatching disclosureState openUp anc
                (forEachMatching everything unpin anc kids))))).

(** The first script of [cleanupPageForPdf], on the document. *)
Definition cleanupPageForPdf (doc : Document) (contentSelector : Selector)
    (removeSelectors accordionContentSelectors : list Selector) : Document :=
  match querySelector contentSelector doc with
  | None => doc
  | Some content =>
      let body' := setCssText bodyCss (body doc) in
      let root' := setCssText rootCss (documentElement doc) in
      let contentClone := setCssText cloneCss (element content) in
      let anc := [ contentClone; body'; root' ] in
      let kept := removals removeSelectors anc (children content) in
      let styled := restyles accordionContentSelectors anc kept in
      {| documentElement := root';
         head := head doc; headNodes := headNodes doc;
         body := body';
         bodyNodes := [ Element (noTopSpace contentClone) styled ] |}
  end.

(** The elements the script deletes from the clone, pass after pass. *)
Fixpoint deletedBySelectors (removeSelectors : list Selector)
    (anc : list ElementData) (kids : list Node) : list Located :=
  match removeSelectors with
  | [] => []
  | sel :: more =>
      deleted (selects sel) anc kids
        ++ deletedBySelectors more anc (pruneAll (selects sel) anc kids)
  end.

Definition deletedByCleanup (removeSelectors : list Selector)
    (anc : list ElementData) (kids : list Node) : list Located :=
  let kids1 := pruneAll (selects gridCols2) anc kids in
  let kids2 := pruneAll isNavigationBlock anc kids1 in
  deleted (selects gridCols2) anc kids
    ++ deleted isNavigationBlock anc kids1
    ++ deletedBySelectors removeSelectors anc kids2.

(** The elements of the clone that a removal selector or the heuristic for
    navigation blocks matches. *)
Definition matchedByCleanup (removeSelectors : list Selector)
    (anc : list ElementData) (kids : list Node) : list Located :=
  List.filter
    (fun l => selects gridCols2 l || isNavigationBlock l
              || existsb (fun sel => selects sel l) removeSelectors)
    (descendants anc kids).

(** What the layout of the page reports. *)
Record Layout := {
  boundingHeight : Located -> float;   (* el.getBoundingClientRect().height *)
  bodyScrollHeight : float             (* document.body.scrollHeight *)
}.

(** The script that measures the content. *)
Definition measureHeight (layout : Layout) (doc : Document)
    (selector : Selector) : float :=
  match querySelector selector doc with
  | Some content => (boundingHeight layout content + 40)%float
  | None => bodyScrollHeight layout
  end.

(** No sheet declares [p] as [!important] for the element. *)
Definition yields (p : string) (d : ElementData) : Prop :=
  forall v, sheet d !! p <> Some (v, true).

(** The element is neither pinned nor clipping, where the sheets yield to
    the inline style. *)
Definition flows (d : ElementData) : Prop :=
  (yields "position" d ->
     computed "position" d <> "fixed" /\ computed "position" d <> "sticky")
  /\ (yields "overflow-x" d -> yields "overflow-y" d ->
        computedOverflow d <> "hidden" /\ computedOverflowY d <> "hidden").

End Sanitizer.

(** ** A page to run the scripts on *)

Module ExamplePage.
Import Dom Sanitizer.

Definition el (tag : string) (attrs : list (string * string))
    (declared : list (string * (string * bool))) : ElementData :=
  {| tagName := tag; attributes := list_to_map attrs; style := ∅;
     sheet := list_to_map declared |}.

(** The default selectors of the handler, parsed. *)
Definition article : Selector := only [ Tag "article" ].

Definition defaultRemoveSelectors : list Selector :=
  [ only [ Id "nd-sidebar" ]; only [ Id "nd-toc" ]; only [ Tag "nav" ];
    only [ Class "print-hidden" ] ].

Definition defaultAccordionContentSelectors : list Selector :=
  [ only [ HasAttr "data-radix-accordion-content" ];
    only [ HasAttr "data-radix-collapsible-content" ] ].

(** An article that the sheets clip ([article { overflow: hidden }]), with
    a navigation bar holding one link, a paragraph, a header that the sheets
    pin ([position: fixed]) and a banner that they pin with [!important]. *)
Definition articleData : ElementData :=
  el "article" [] [ ("overflow-x", ("hidden", false)); ("overflow-y", ("hidden", false)) ].

Definition articleNodes : list Node :=
  [ Element (el "nav" [] []) [ Element (el "a" [ ("href", "/next") ] []) [] ];
    Element (el "header" [] [ ("position", ("fixed", false)) ]) [ Text "Setup" ];
    Element (el "p" [] []) [ Text "Install the package." ];
    Element (el "aside" [ ("class", "banner") ] [ ("position", ("sticky", true)) ]) [] ].

Definition page : Document :=
  {| documentElement := el "html" [] [];
     head := el "head" [] [];
     headNodes := [];
     body := el "body" [] [];
     bodyNodes :=
       [ Element (el "div" [ ("id", "nd-sidebar") ] []) [ Element (el "a" [] []) [] ];
         Element articleData articleNodes ] |}.

(** The article, where [document.querySelector] finds it. *)
Definition pageContent : Located :=
  {| ancestors := [ body page; documentElement page ];
     element := articleData;
     children := articleNodes |}.

Definition cleaned : Document :=
  cleanupPageForPdf page article defaultRemoveSelectors
    defaultAccordionContentSelectors.

(** The ancestors of the children of the clone, in the cleaned page. *)
Definition cleanedAncestors : list ElementData :=
  [ setCssText cloneCss articleData; setCssText bodyCss (body page);
    setCssText rootCss (documentElement page) ].

Definition layout : Layout :=
  {| boundingHeight := fun _ => 1200%float; bodyScrollHeight := 2000%float |}.

End ExamplePage.

(** Three responsive containers: one around a two-column grid of two links,
    one around two links, one around a single link. *)
Module ExampleCards.
Import Dom Sanitizer.

Definition link : Node := Element (ExamplePage.el "a" [] []) [].

Definition cards : list Node :=
  [ Element (ExamplePage.el "div" [ ("class", "@container") ] [])
      [ Element (ExamplePage.el "div" [ ("class", "grid grid-cols-2") ] [])
          [ link; link ] ];
    Element (ExamplePage.el "div" [ ("class", "@container next") ] [])
      [ link; Element (ExamplePage.el "span" [] []) [ link ] ];
    Element (ExamplePage.el "div" [ ("class", "@container more") ] []) [ link ] ].

End ExampleCards.

(** The postcondition of the sanitizer as the specification words it, for
    the content [document.querySelector] found: one root in the body, with
    as many descendants as the content had, less the elements matched for
    removal, and nothing pinned or clipping in the subtree. *)

Module SanitizerSpec.
Import Dom Sanitizer.

Definition sanitizedAsWorded (doc : Document) (contentSelector : Selector)
    (removeSelectors accordionContentSelectors : list Selector)
    (content : Located) : Prop :=
  let doc' := cleanupPageForPdf doc contentSelector removeSelectors
                accordionContentSelectors in
  let anc := [ setCssText cloneCss (element content);
               setCssText bodyCss (body doc);
               setCssText rootCss (documentElement doc) ] in
  exists root kids,
    bodyNodes doc' = [ Element root kids ]
    /\ length (descendants anc kids)
       = length (descendants anc (children content))
         - length (matchedByCleanup removeSelectors anc (children content))
    /\ Forall (fun l => computed "position" (element l) <> "fixed"
                        /\ computed "position" (element l) <> "sticky"
                        /\ computedOverflow (element l) <> "hidden")
         (elementsOf [ body doc'; documentElement doc' ] (Element root kids)).

End SanitizerSpec.

(** ** A cookie header written out *)

Module CookieHeader.

(** A header in the form browsers send it: [name=value] pairs joined by
    a semicolon and a space. *)
Definition write (pairs : list (string * string)) : string :=
  Js.join "; " (map (fun nv => nv.1 +:+ "=" +:+ nv.2) pairs).

(** A name and a value that such a header can carry: the name is not empty,
    has no white space around it and holds neither [=] nor [;]; the value
    holds no [;] and does not end in white space. *)
Definition writable (nv : string * string) : Prop :=
  nv.1 <> "" /\ Js.trim nv.1 = nv.1
  /\ Js.includes "=" nv.1 = false /\ Js.includes ";" nv.1 = false
  /\ Js.includes ";" nv.2 = false /\ Js.trimEnd nv.2 = nv.2.

End CookieHeader.

(** ** Lazy-Content Forcer: the synthetic scroll of [triggerLazyImages] *)

Module LazyScroll.

(** The timer of the first script.  [scrollHeightAt k] is what
    [document.body.scrollHeight] reads when the timer fires for the [k]th
    time, [totalHeight] what was scrolled before.  The result is the firing
    at which the promise resolves, if it does within [fuel] firings. *)
Fixpoint timer (fuel : nat) (scrollHeightAt : nat -> N) (k : nat) (totalHeight : N)
    : option nat :=
  match fuel with
  | 0 => None
  | S fuel' =>
      let distance := 200%N in
      let totalHeight' := (totalHeight + distance)%N in
      if (scrollHeightAt k + 500 <=? totalHeight')%N then Some k
      else timer fuel' scrollHeightAt (S k) totalHeight'
  end.

(** The scroll, from the first firing on. *)
Definition scroll (fuel : nat) (scrollHeightAt : nat -> N) : option nat :=
  timer fuel scrollHeightAt 1 0%N.

End LazyScroll.

(** ** What selectors can see *)

Module Markup.
Import Dom.

(** Two elements with the same tag and the same attributes: the scripts
    change the inline style of an element, never its markup. *)
Definition same (d d' : ElementData) : Prop :=
  tagName d = tagName d' /\ attributes d = attributes d'.

(** A test on elements that sees nothing but the markup of the element and
    of its ancestors. *)
Definition positional (P : Located -> bool) : Prop :=
  forall l l',
    same (element l) (element l') ->
    Forall2 same (ancestors l) (ancestors l') ->
    P l = P l'.

(** No element below [kids] passes the test [P]. *)
Definition clearOf (P : Located -> bool) (anc : list ElementData)
    (kids : list Node) : Prop :=
  Forall (fun l => P l = false) (descendants anc kids).

(** The element carries [data-state="open"] or [data-state="closed"]. *)
Definition hasDisclosureState (d : ElementData) : bool :=
  matchesSimple (AttrEquals "data-state" "open") d
  || matchesSimple (AttrEquals "data-state" "closed") d.

(** The inline style of an element laid open: nothing moves it, hides it or
    clips it, its height is its own, and it is a block or a column. *)
Definition laidOpen (d : ElementData) : Prop :=
  style d !! "transform" = Some "none"
  /\ style d !! "transition" = Some "none"
  /\ style d !! "animation" = Some "none"
  /\ style d !! "position" = Some "relative"
  /\ style d !! "height" = Some "auto"
  /\ style d !! "opacity" = Some "1"
  /\ style d !! "visibility" = Some "visible"
  /\ style d !! "overflow-x" = Some "visible"
  /\ style d !! "overflow-y" = Some "visible"
  /\ (style d !! "display" = Some "block" \/ style d !! "display" = Some "flex").

(** A selector that does not test the [style] attribute, which the
    element data keeps apart from the other attributes. *)
Definition styleBlind (sel : Selector) : Prop :=
  Forall (fun cx =>
            Forall (fun simple =>
                      match simple with
                      | HasAttr a | AttrEquals a _ | AttrContains a _ => a <> "style"
                      | _ => True
                      end)
              (subject cx ++ flat_map snd (context cx)))
    (alternative sel :: alternatives sel).

End Markup.

(** ** Runs of the handler: what was called, and in which order *)

Module Runs.
Import Handler.

#[export] Instance Stage_eq_dec : EqDecision Stage.
Proof. solve_decision. Defined.

(** The stages of the calls of a run, in the order they were made. *)
Definition stages (evs : list Event) : list Stage := map (fun ev => stage ev.1) evs.

(** Whether a stage was called at all. *)
Definition reached (st : Stage) (evs : list Event) : bool :=
  existsb (fun ev => bool_decide (stage ev.1 = st)) evs.

(** The first call that threw. *)
Definition firstThrown (evs : list Event) : option Event :=
  List.find (fun ev => match ev.2 with Some _ => true | None => false end) evs.

(** The awaited operations in the order the source text has them; the close
    of the catch block comes after all of them. *)
Definition pipeline : list Stage :=
  [ Launch; NewPage; SetCookie; SetViewport; Goto; ExpandAccordions;
    TriggerLazyImages; CleanupPageForPdf; BeforePdfGeneration; MeasureHeight;
    Pdf; Close ].

(** A browser that cannot be launched. *)
Definition launchFails : Browser :=
  {| throws := fun _ c =>
       match stage c with
       | Launch => Some "Error: Failed to launch the browser process"
       | _ => None
       end;
     measured := fun _ => 1200%float;
     printed := fun _ => "%PDF-1.4";
     refused := fun v => "TypeError: Headers.append: invalid header value" |}.

(** A browser whose first close throws, and whose later closes return. *)
Definition closeFailsOnce : Browser :=
  {| throws := fun tr c =>
       match stage c, closes tr with
       | Close, [] => Some "Error: Protocol error (Browser.close)"
       | _, _ => None
       end;
     measured := fun _ => 1200%float;
     printed := fun _ => "%PDF-1.4";
     refused := fun v => "TypeError: Headers.append: invalid header value" |}.

(** A browser in which rendering fails and no close ever returns. *)
Definition neverCloses : Browser :=
  {| throws := fun _ c =>
       match stage c with
       | Pdf => Some "Error: Printing failed"
       | Close => Some "Error: Protocol error (Browser.close)"
       | _ => None
       end;
     measured := fun _ => 1200%float;
     printed := fun _ => "%PDF-1.4";
     refused := fun v => "TypeError: Headers.append: invalid header value" |}.

(** A request of a signed-in reader for [/docs/setup]. *)
Definition setupRequest : Request :=
  {| searchPath := Some "/docs/setup"; protocol := "https:";
     hostHeader := Some "docs.test:8443"; cookieField := Some "sid=1; theme=dark" |}.

(** Calls that returned. *)
Definition returned (cs : list Call) : list Event := map (fun c => (c, None)) cs.

(** [browser.close()] *)
Definition close : Call := {| stage := Close; args := [] |}.

(** The cookies the handler reads off a request. *)
Definition forwarded (request : Request) : list Cookies.CookieParam :=
  let protocol := Js.dropFirst ":" (protocol request) in
  let host := Js.or_else (default "" (hostHeader request)) "localhost:3000" in
  Cookies.parseCookies (Js.or_else (default "" (cookieField request)) "")
    (default "" (head (Js.split ":" host))) (String.eqb protocol "https")
    (protocol +:+ "://" +:+ host)%string.

(** The calls of the try block up to the measurement, for a configuration
    and a request: what it awaits when nothing throws. *)
Definition preparation (options : Config.Options) (request : Request) : list Call :=
  let resolvedOptions := Config.resolveOptions options in
  let config := Config.resolveConfig options in
  let protocol := Js.dropFirst ":" (protocol request) in
  let host := Js.or_else (default "" (hostHeader request)) "localhost:3000" in
  let baseUrl := (protocol +:+ "://" +:+ host)%string in
  let pageUrl := (baseUrl +:+ default "" (searchPath request))%string in
  [ {| stage := Launch; args := [ AField (config !! "puppeteerOptions") ] |};
    {| stage := NewPage; args := [] |} ]
  ++ (if Js.truthy (Js.or_else (default "" (cookieField request)) "")
         && (0 <? length (forwarded request))%nat
      then [ {| stage := SetCookie; args := [ ACookies (forwarded request) ] |} ]
      else [])
  ++ [ {| stage := SetViewport; args := [ AField (config !! "pageWidth"); ANum 600 ] |};
       {| stage := Goto;
          args := [ AStr pageUrl; AStr "networkidle0"; AField (config !! "timeout") ] |} ]
  ++ (if truthy (config !! "expandAccordions")
      then [ {| stage := ExpandAccordions;
                args := [ AField (config !! "accordionTriggerSelectors") ] |} ]
      else [])
  ++ (if truthy (config !! "triggerLazyImages")
      then [ {| stage := TriggerLazyImages; args := [] |} ]
      else [])
  ++ [ {| stage := CleanupPageForPdf;
          args := [ AField (config !! "contentSelector");
                    AField (config !! "removeSelectors");
                    AField (config !! "accordionContentSelectors") ] |} ]
  ++ (if truthy (resolvedOptions !! "beforePdfGeneration")
      then [ {| stage := BeforePdfGeneration;
                args := [ AField (resolvedOptions !! "beforePdfGeneration") ] |} ]
      else [])
  ++ [ {| stage := MeasureHeight; args := [ AField (config !! "contentSelector") ] |} ].

(** [page.pdf(...)], after the trace [tr] that ends with the measurement. *)
Definition rendering (world : Browser) (options : Config.Options) (tr : list Event)
    : Call :=
  let config := Config.resolveConfig options in
  {| stage := Pdf;
     args := [ AField (config !! "pageWidth"); ANum (measured world tr + 60);
               AField (config !! "margins") ] |}.

(** The value of the [Content-Disposition] header. *)
Definition disposition (path : string) : string :=
  ("attachment; filename=" +:+ Config.dq +:+ Filename.fromPath path +:+ ".pdf"
   +:+ Config.dq)%string.

(** The headers of the answer that carries the PDF. *)
Definition pdfHeaders (path : string) : list (string * string) :=
  [ ("Content-Type", "application/pdf");
    ("Content-Disposition", disposition path) ]%string.

(** Whether the launch has returned, so that [browser] is set. *)
Definition launched (tr : list Event) : bool :=
  match tr with
  | (_, None) :: _ => true
  | _ => false
  end.

(** Everything the try block awaits when nothing throws: the preparation,
    the rendering at the height that was measured, and the close. *)
Definition plan (world : Browser) (options : Config.Options) (request : Request)
    : list Call :=
  preparation options request
  ++ [ rendering world options (returned (preparation options request)); close ].

(** The try block has awaited what comes before [rest] in [full], and all of
    it returned. *)
Definition At (full rest : list Call) (s : State) : Prop :=
  browser s = true
  /\ exists done, done <> [] /\ done ++ rest = full /\ events s = returned done.

(** The try block threw [e] at a call of [full], after everything before it
    had returned. *)
Definition Threw (full : list Call) (e : Thrown) (s : State) : Prop :=
  exists done c rest,
    full = done ++ c :: rest
    /\ events s = returned done ++ [ (c, Some e) ]
    /\ browser s = launched (events s).

(** The try block threw [e] when it built the response, after all of [full]
    had returned: the header value for [path] is not legal. *)
Definition Refused (world : Browser) (full : list Call) (path : string)
    (e : Thrown) (s : State) : Prop :=
  events s = returned full
  /\ browser s = true
  /\ legalHeaderValue (disposition path) = false
  /\ e = refused world (disposition path).

(** What the try block threw in a run that left [evs] and answered a
    failure: what its first failing call threw, or, when no call failed,
    what the constructor of the response threw; nothing in a run that
    called nothing. *)
Definition cause (world : Browser) (request : Request) (evs : list Event)
    : string :=
  match firstThrown evs, evs with
  | Some (_, Some e), _ => e
  | _, [] => ""
  | _, _ :: _ => refused world (disposition (default "" (searchPath request)))
  end.

(** A path with a line break in it, and the request for it. *)
Definition brokenPath : string :=
  ("/docs/a" +:+ String (ascii_of_nat 10) "b")%string.

Definition brokenRequest : Request :=
  {| searchPath := Some brokenPath; protocol := "https:";
     hostHeader := Some "docs.test:8443"; cookieField := None |}.

End Runs.

(** ** Export Button: [handleExport] of [ExportButton], and [FumadocsExportButton] *)

Module Button.

(** What a callback or an awaited promise throws: an [Error] with its
    message, or any other value, kept as [String(error)] prints it. *)
Inductive Thrown :=
| AnError (message : string)
| NotAnError (printed : string).

(** [error instanceof Error ? error : new Error(String(error))], an [Error]
    being kept as its message. *)
Definition asError (error : Thrown) : string :=
  match error with
  | AnError message => message
  | NotAnError printed => printed
  end.

(** The two components that hold an [isLoading] state. *)
Inductive Component := ExportButton | FumadocsExportButton.

(** What a click does that can be seen from outside. *)
Inductive Effect :=
| SetIsLoading (owner : Component) (b : bool)  (* setIsLoading(b) *)
| Fetch (url : string)                         (* fetch(url) *)
| Download (name : string)                     (* a.download = name; a.click() *)
| ConsoleError (message : string)              (* console.error(..., err) *)
| Notify (what : string).                      (* something a callback of the user does *)

(** A piece of the asynchronous function: what it did, and whether it threw
    or returned. *)
Definition Task (A : Type) : Type := list Effect * (Thrown + A).

#[export] Instance Task_ret : MRet Task := fun A a => ([], inr a).

#[export] Instance Task_bind : MBind Task := fun A B f m =>
  match m with
  | (fx, inl t) => (fx, inl t)
  | (fx, inr a) => let (fx', r) := f a in (fx ++ fx', r)
  end.

Definition emit (e : Effect) : Task unit := ([ e ], inr tt).

Definition throw {A} (t : Thrown) : Task A := ([], inl t).

(** [try { body } catch (error) { handler } finally { finalizer }] *)
Definition tryCatchFinally {A} (body : Task A) (handler : Thrown -> Task A)
    (finalizer : Task unit) : Task A :=
  let caught :=
    match body with
    | (fx, inl t) => let (fx', r) := handler t in (fx ++ fx', r)
    | (fx, inr a) => (fx, inr a)
    end in
  match finalizer with
  | (fx', inl t) => (caught.1 ++ fx', inl t)
  | (fx', inr _) => (caught.1 ++ fx', caught.2)
  end.

(** What [response.json()] and the reading of [error.details] give: they
    throw (the body is no JSON, or it is [null]), or there is an object
    whose [details] is a string or is missing. *)
Inductive JsonOutcome :=
| JsonFails (t : Thrown)
| JsonObject (details : option string).

Inductive BlobOutcome :=
| BlobFails (t : Thrown)
| Blob.

(** What [await fetch(url)] gives. *)
Inductive FetchOutcome :=
| FetchFails (t : Thrown)            (* the promise rejects *)
| NotOk (json : JsonOutcome)         (* [response.ok] is false *)
| IsOk (blob : BlobOutcome).         (* [response.ok] is true *)

(** The window of the click. *)
Record Env := {
  pathname : string;                       (* window.location.pathname *)
  encodeURIComponent : string -> string;
  response : string -> FetchOutcome
}.

(** The props of [ExportButton] that [handleExport] reads. *)
Record Props := {
  apiPath : option string;
  filename : option string;
  disabled : option bool;
  onExportStart : option (Task unit);
  onExportSuccess : option (Task unit);
  onExportError : option (string -> Task unit)
}.

(** [callback?.()] *)
Definition optional (callback : option (Task unit)) : Task unit :=
  default (mret tt) callback.

(** [callback?.(err)] *)
Definition optionalWith (callback : option (string -> Task unit)) (err : string)
    : Task unit :=
  match callback with
  | Some f => f err
  | None => mret tt
  end.

(** The URL that is fetched. *)
Definition requestUrl (env : Env) (props : Props) : string :=
  (default "/api/export-pdf" (apiPath props) +:+ "?path="
   +:+ encodeURIComponent env (pathname env))%string.

(** The try block of [handleExport]. *)
Definition tryBlock (env : Env) (props : Props) : Task unit :=
  let currentPath := pathname env in
  emit (Fetch (requestUrl env props));;
  match response env (requestUrl env props) with
  | FetchFails t => throw t
  | NotOk (JsonFails t) => throw t
  | NotOk (JsonObject details) =>
      throw (AnError (Js.or_else (default "" details) "Failed to generate PDF"))
  | IsOk (BlobFails t) => throw t
  | IsOk Blob =>
      emit (Download (Filename.download (filename props) currentPath));;
      optional (onExportSuccess props)
  end.

(** The catch block of [handleExport]. *)
Definition catchBlock (props : Props) (error : Thrown) : Task unit :=
  let err := asError error in
  emit (ConsoleError err);;
  optionalWith (onExportError props) err.

(** [handleExport], with the [isLoading] that the render of the click saw. *)
Definition handleExport (env : Env) (props : Props) (isLoading : bool) : Task unit :=
  if isLoading || default false (disabled props) then mret tt
  else
    emit (SetIsLoading ExportButton true);;
    optional (onExportStart props);;
    tryCatchFinally (tryBlock env props) (catchBlock props)
      (emit (SetIsLoading ExportButton false)).

(** The props that [FumadocsExportButton] hands to [ExportButton]. *)
Definition fumadocsProps (props : Props) : Props :=
  {| apiPath := apiPath props;
     filename := filename props;
     disabled := disabled props;
     onExportStart :=
       Some (emit (SetIsLoading FumadocsExportButton true);;
             optional (onExportStart props));
     onExportSuccess :=
       Some (emit (SetIsLoading FumadocsExportButton false);;
             optional (onExportSuccess props));
     onExportError :=
       Some (fun err =>
               emit (SetIsLoading FumadocsExportButton false);;
               optionalWith (onExportError props) err) |}.

Definition sameComponent (c c' : Component) : bool :=
  match c, c' with
  | ExportButton, ExportButton | FumadocsExportButton, FumadocsExportButton => true
  | _, _ => false
  end.

(** The [isLoading] of a component after the effects [fx]. *)
Definition isLoadingAfter (owner : Component) (before : bool) (fx : list Effect)
    : bool :=
  foldl (fun now e =>
           match e with
           | SetIsLoading c b => if sameComponent c owner then b else now
           | _ => now
           end) before fx.

(** The effects that are not the wrapper's own. *)
Definition withoutWrapper (fx : list Effect) : list Effect :=
  List.filter (fun e => match e with
                        | SetIsLoading FumadocsExportButton _ => false
                        | _ => true
                        end) fx.

(** A callback touches no [isLoading] state: it has no setter at hand. *)
Definition setsNoState (fx : list Effect) : Prop :=
  Forall (fun e => match e with SetIsLoading _ _ => False | _ => True end) fx.

(** The callbacks of the user touch no [isLoading] state. *)
Definition quietCallbacks (props : Props) : Prop :=
  setsNoState (optional (onExportStart props)).1
  /\ setsNoState (optional (onExportSuccess props)).1
  /\ forall err, setsNoState (optionalWith (onExportError props) err).1.

(** What the button's [fetch] gives for an answer of the handler: the JSON
    answers have the status 400 or 500, so [response.ok] is false and
    [response.json()] gives the object back; the PDF has the status 200. *)
Definition answered (resp : Handler.Response) : FetchOutcome :=
  match resp with
  | Handler.Json _ body =>
      NotOk (JsonObject
               (snd <$> List.find (fun kv => String.eqb kv.1 "details") body))
  | Handler.PdfFile _ _ => IsOk Blob
  end.

(** A user who listens to the three callbacks, with what each of them
    throws. *)
Definition listening (start success failure : option Thrown) : Props :=
  let outcome (t : option Thrown) : Task unit :=
    match t with Some t => throw t | None => mret tt end in
  {| apiPath := None; filename := None; disabled := None;
     onExportStart := Some (emit (Notify "start");; outcome start);
     onExportSuccess := Some (emit (Notify "success");; outcome success);
     onExportError :=
       Some (fun err => emit (Notify ("error: " +:+ err)%string);; outcome failure) |}.

(** A window on [/docs/setup] whose server answers what the handler
    answers in [world].  In a path of letters and slashes the slashes are
    all that [encodeURIComponent] has to encode; when the handler rejects,
    the server's answer is no JSON and [response.json()] throws. *)
Definition window (world : Handler.Browser) : Env :=
  {| pathname := "/docs/setup";
     encodeURIComponent := fun s => Js.join "%2F" (Js.split "/" s);
     response := fun _ =>
       match (Handler.handler world Config.NoOptions Runs.setupRequest
                Handler.initial).1 with
       | inr resp => answered resp
       | inl e => NotOk (JsonFails (AnError "SyntaxError: Unexpected token"))
       end |}.

End Button.

(** * Properties *)

(** ** Strings *)

Lemma split_nonempty c s : Js.split c s <> [].
Proof.
  destruct s as [|d r]; simpl; [discriminate|].
  destruct (Ascii.eqb d c); [discriminate|].
  destruct (Js.split c r); discriminate.
Qed.

Lemma split_head c s : exists more, Js.split c s = beforeFirst c s :: more.
Proof.
  induction s as [|d r [more IH]]; simpl; [by eexists|].
  destruct (Ascii.eqb d c); [by eexists|].
  rewrite IH. by eexists.
Qed.

Lemma join_cons sep p q more :
  Js.join sep (p :: q :: more) = p +:+ sep +:+ Js.join sep (q :: more).
Proof. reflexivity. Qed.

Lemma join_split c s : Js.join (String c EmptyString) (Js.split c s) = s.
Proof.
  induction s as [|d r IH]; simpl; [done|].
  destruct (Ascii.eqb_spec d c) as [->|Hne].
  - pose proof (split_nonempty c r) as Hn.
    destruct (Js.split c r) as [|q more]; [done|].
    rewrite join_cons, IH. reflexivity.
  - destruct (Js.split c r) as [|q more] eqn:E; [by destruct (split_nonempty c r)|].
    rewrite <- IH. by destruct more.
Qed.

Lemma join_split_tail c s :
  Js.includes c s = true ->
  Js.join (String c EmptyString) (tail (Js.split c s)) = afterFirst c s.
Proof.
  induction s as [|d r IH]; simpl; [done|].
  destruct (Ascii.eqb_spec d c) as [->|Hne]; simpl.
  - intros _. apply join_split.
  - intros Hin. specialize (IH Hin).
    destruct (Js.split c r) as [|q more] eqn:E; [by destruct (split_nonempty c r)|].
    exact IH.
Qed.

Lemma beforeFirst_app c n rest :
  Js.includes c n = false -> beforeFirst c (n +:+ String c rest) = n.
Proof.
  induction n as [|d n IH]; simpl.
  - by rewrite Ascii.eqb_refl.
  - destruct (Ascii.eqb d c); simpl; [done|]. intros H. by rewrite IH.
Qed.

Lemma afterFirst_app c n rest :
  Js.includes c n = false -> afterFirst c (n +:+ String c rest) = rest.
Proof.
  induction n as [|d n IH]; simpl.
  - by rewrite Ascii.eqb_refl.
  - destruct (Ascii.eqb d c); simpl; [done|]. exact IH.
Qed.

Lemma includes_app c n rest : Js.includes c (n +:+ String c rest) = true.
Proof.
  induction n as [|d n IH]; simpl.
  - by rewrite Ascii.eqb_refl.
  - rewrite IH. apply orb_true_r.
Qed.

Lemma or_else_empty s : Js.or_else s "" = s.
Proof. by destruct s. Qed.

Lemma truthy_true s : Js.truthy s = true <-> s <> "".
Proof. destruct s; simpl; split; congruence. Qed.

Example split_keeps_empty_pieces : Js.split ";" "a;b;;c" = [ "a"; "b"; ""; "c" ].
Proof. reflexivity. Qed.

Example split_of_empty : Js.split ";" "" = [ "" ].
Proof. reflexivity. Qed.

Example trim_strips_both_ends :
  Js.trim (String (ascii_of_nat 160) "  a b " +:+ String (ascii_of_nat 9) "") = "a b".
Proof. reflexivity. Qed.

Example join_of_none : Js.join ", " [] = "".
Proof. reflexivity. Qed.

(** ** Cookie Translator *)

Section CookieTranslator.
Import Cookies CookieSpec.
Variables (domain : string) (isSecure : bool) (baseUrl : string).

Lemma parseCookie_invalid pair :
  validPair pair = false -> parseCookie domain isSecure baseUrl pair = None.
Proof.
  unfold validPair, pairName, parseCookie. intros Hv.
  destruct (Js.includes "=" (Js.trim pair)) eqn:Hin; simpl in Hv.
  - rewrite orb_false_r.
    destruct (Js.truthy (Js.trim pair)); simpl; [|done].
    destruct (split_head "=" (Js.trim pair)) as [more ->].
    by rewrite Hv.
  - by rewrite orb_true_r.
Qed.

Lemma parseCookie_valid pair :
  validPair pair = true ->
  exists r, parseCookie domain isSecure baseUrl pair = Some r /\
            name r = pairName pair /\ value r = pairValue pair /\
            followsPrefixRules domain isSecure baseUrl r.
Proof.
  unfold validPair, parseCookie. intros [Hin Hname]%andb_true_iff.
  rewrite Hin. simpl. rewrite orb_false_r.
  assert (Js.truthy (Js.trim pair) = true) as ->.
  { destruct (Js.trim pair); [discriminate Hin | done]. }
  simpl.
  pose proof (join_split_tail "=" (Js.trim pair) Hin) as Hval.
  destruct (split_head "=" (Js.trim pair)) as [more E].
  rewrite E in Hval |- *. simpl in Hval.
  fold (pairName pair). rewrite Hname. simpl.
  unfold followsPrefixRules, pairValue.
  destruct (Js.startsWith (pairName pair) "__Host-") eqn:Hhost;
    [|destruct (Js.startsWith (pairName pair) "__Secure-") eqn:Hsec];
    eexists; (split; [reflexivity|]); simpl;
    rewrite ?Hhost, ?Hsec, or_else_empty, Hval; repeat split.
Qed.

Lemma filterNonNull_parse pairs :
  Forall2 (fun pair r => name r = pairName pair /\ value r = pairValue pair)
    (List.filter validPair pairs)
    (Js.filterNonNull (map (parseCookie domain isSecure baseUrl) pairs))
  /\ Forall (followsPrefixRules domain isSecure baseUrl)
       (Js.filterNonNull (map (parseCookie domain isSecure baseUrl) pairs)).
Proof.
  induction pairs as [|pair pairs [IH1 IH2]]; simpl; [by split; constructor|].
  destruct (validPair pair) eqn:Hv.
  - destruct (parseCookie_valid pair Hv) as (r & -> & Hn & Hval & Hrule).
    split; constructor; auto.
  - rewrite (parseCookie_invalid pair Hv). by split.
Qed.

End CookieTranslator.

Example parseCookies_on_a_header :
  Cookies.parseCookies "sid=1; __Host-s=x=y; bad; =z; b = 2 ; __Secure-t="
    "docs.test" false "http://docs.test:3000"
  = [ Cookies.Build_CookieParam "sid" "1" None (Some "docs.test") "/" false;
      Cookies.Build_CookieParam "__Host-s" "x=y" (Some "http://docs.test:3000")
        None "/" true;
      Cookies.Build_CookieParam "b" " 2" None (Some "docs.test") "/" false;
      Cookies.Build_CookieParam "__Secure-t" "" (Some "http://docs.test:3000")
        None "/" true ].
Proof. reflexivity. Qed.

(** C1.  [parseCookies] gives one record for every valid [name=value] pair
    of the header, in the order of the header, with the name and the value
    of the pair; every record follows the prefix rule table ([__Host-]: the
    base URL, path [/], secure, no domain; [__Secure-]: the base URL, path
    [/], secure; otherwise the host as domain, path [/], and the security of
    the connection); a pair without [=] or with an empty name gives no
    record.  The function is total: there is nothing it can raise. *)
Theorem parseCookies_prefix_rules
    (cookieHeader domain : string) (isSecure : bool) (baseUrl : string) :
  let records := Cookies.parseCookies cookieHeader domain isSecure baseUrl in
  let pairs := Js.split ";" cookieHeader in
  Forall2 (fun pair r => Cookies.name r = CookieSpec.pairName pair /\
                         Cookies.value r = CookieSpec.pairValue pair)
    (List.filter CookieSpec.validPair pairs) records
  /\ Forall (CookieSpec.followsPrefixRules domain isSecure baseUrl) records
  /\ Forall (fun pair =>
       Js.includes "=" (Js.trim pair) = false \/ CookieSpec.pairName pair = "" ->
       Cookies.parseCookie domain isSecure baseUrl pair = None) pairs.
Proof.
  intros records pairs. subst records pairs. unfold Cookies.parseCookies.
  destruct (filterNonNull_parse domain isSecure baseUrl (Js.split ";" cookieHeader))
    as [H1 H2].
  repeat split; auto.
  apply Forall_forall. intros pair _ Hbad.
  apply parseCookie_invalid. unfold CookieSpec.validPair.
  destruct Hbad as [-> | ->]; [done | apply andb_false_r].
Qed.

Lemma parseCookies_prefix_rules_witness :
  Cookies.parseCookie "docs.test" true "https://docs.test" " =orphan" = None
  /\ Forall (CookieSpec.followsPrefixRules "docs.test" true "https://docs.test")
       (Cookies.parseCookies "sid=1; =orphan; __Host-s=x" "docs.test" true
          "https://docs.test").
Proof.
  destruct (parseCookies_prefix_rules "sid=1; =orphan; __Host-s=x" "docs.test"
              true "https://docs.test") as (_ & Hrules & Hbad).
  split; [|exact Hrules].
  eapply Forall_forall in Hbad; [apply Hbad; by right|].
  apply list_elem_of_In. vm_compute. tauto.
Defined.

(** C9.  A pair is split at its first [=] only: when the trimmed pair reads
    [n=rest] with no [=] in [n] and [n] not blank, the record's name is [n]
    trimmed and its value is all of [rest], further [=] included ([rest] may
    be empty, and the value is then the empty string); a header made of this
    one pair yields this one record. *)
Theorem parseCookie_splits_at_first_equals
    (domain : string) (isSecure : bool) (baseUrl pair n rest : string) :
  Js.trim pair = n +:+ "=" +:+ rest ->
  Js.includes "=" n = false ->
  Js.trim n <> "" ->
  exists r,
    Cookies.parseCookie domain isSecure baseUrl pair = Some r /\
    Cookies.name r = Js.trim n /\ Cookies.value r = rest /\
    (Js.includes ";" pair = false ->
     Cookies.parseCookies pair domain isSecure baseUrl = [ r ]).
Proof.
  intros Htrim Hn Hname.
  assert (CookieSpec.validPair pair = true) as Hv.
  { unfold CookieSpec.validPair, CookieSpec.pairName. rewrite Htrim.
    change (n +:+ "=" +:+ rest) with (n +:+ String "=" rest).
    rewrite includes_app, beforeFirst_app by done.
    by apply truthy_true. }
  destruct (parseCookie_valid domain isSecure baseUrl pair Hv)
    as (r & Hr & Hname' & Hval & _).
  exists r. split; [done|].
  unfold CookieSpec.pairName, CookieSpec.pairValue in *. rewrite Htrim in *.
  change (n +:+ "=" +:+ rest) with (n +:+ String "=" rest) in *.
  rewrite beforeFirst_app in Hname' by done.
  rewrite afterFirst_app in Hval by done.
  repeat split; auto.
  intros Hsemi. unfold Cookies.parseCookies.
  assert (Js.split ";" pair = [ pair ]) as ->.
  { clear -Hsemi. induction pair as [|d p IH]; simpl in *; [done|].
    destruct (Ascii.eqb d ";"); simpl in *; [done|]. by rewrite IH. }
  simpl. by rewrite Hr.
Qed.

Lemma parseCookie_splits_at_first_equals_witness :
  exists r,
    Cookies.parseCookie "docs.test" false "http://docs.test" " name=a=b " = Some r /\
    Cookies.name r = "name" /\ Cookies.value r = "a=b" /\
    (Js.includes ";" " name=a=b " = false ->
     Cookies.parseCookies " name=a=b " "docs.test" false "http://docs.test" = [ r ]).
Proof.
  apply (parseCookie_splits_at_first_equals
           "docs.test" false "http://docs.test" " name=a=b " "name" "a=b");
    [reflexivity | reflexivity | discriminate].
Defined.

(** ** Download name *)

Lemma includes_replaceAll c r s :
  c <> r -> Js.includes c (Js.replaceAll c r s) = false.
Proof.
  intros Hne. induction s as [|d s IH]; simpl; [done|].
  rewrite IH, orb_false_r.
  destruct (Ascii.eqb_spec d c) as [->|Hd]; by apply Ascii.eqb_neq.
Qed.

Lemma includes_dropLeading c d s :
  Js.includes c s = false -> Js.includes c (Js.dropLeading d s) = false.
Proof.
  destruct s as [|e s]; simpl; [done|].
  intros H. destruct (Ascii.eqb e d); simpl; [|exact H].
  by apply orb_false_iff in H as [_ H].
Qed.

(** C6.  The download name of a path is the path with every [/] turned into
    [-] and one leading [-] dropped, followed by [.pdf], and [document.pdf]
    when nothing is left; it contains no [/].  [/guides/setup] gives
    [guides-setup.pdf] and [/] gives [document.pdf], for the handler and for
    the button alike.  A button given a filename that is not empty downloads
    under that filename followed by [.pdf], whatever the path; an empty
    filename counts as none. *)
Theorem filename_derivation (path : string) :
  let stem := Js.dropLeading "-" (Js.replaceAll "/" "-" path) in
  (stem <> "" -> Filename.handlerFilename path = stem +:+ ".pdf")
  /\ (stem = "" -> Filename.handlerFilename path = "document.pdf")
  /\ Js.includes "/" (Filename.handlerFilename path) = false
  /\ Filename.download None path = Filename.handlerFilename path
  /\ Filename.download (Some "") path = Filename.handlerFilename path
  /\ Filename.handlerFilename "/guides/setup" = "guides-setup.pdf"
  /\ Filename.handlerFilename "/" = "document.pdf"
  /\ (forall filename, filename <> "" ->
        Filename.download (Some filename) path = filename +:+ ".pdf")
  /\ Filename.download (Some "report") path = "report.pdf".
Proof.
  intros stem. unfold Filename.handlerFilename, Filename.fromPath.
  fold stem. repeat split; try reflexivity.
  - intros H%truthy_true. unfold Js.or_else. by rewrite H.
  - by intros ->.
  - assert (Js.includes "/" stem = false) as Hstem.
    { apply includes_dropLeading, includes_replaceAll. discriminate. }
    unfold Js.or_else. destruct (Js.truthy stem); [|reflexivity].
    clear -Hstem. induction stem as [|d s IH]; simpl in *; [done|].
    apply orb_false_iff in Hstem as [-> Hs]. by rewrite IH.
  - intros filename H%truthy_true. unfold Filename.download. by rewrite H.
Qed.

Lemma filename_derivation_witness :
  Filename.handlerFilename "/api/v1/" = "api-v1-.pdf"
  /\ Filename.download (Some "report") "/api/v1/" = "report.pdf".
Proof.
  destruct (filename_derivation "/api/v1/") as (Hstem & _ & _ & _ & _ & _ & _ & Hname & _).
  split; [apply Hstem; discriminate | apply Hname; discriminate].
Defined.

(** ** Configuration *)

Section Configuration.
Import Config.

Lemma resolveOptions_preset name :
  resolveOptions (PresetNamed name) = presetFields (presets name).
Proof.
  unfold resolveOptions.
  rewrite (insert_id _ "removeSelectors") by reflexivity.
  rewrite (insert_id _ "accordionTriggerSelectors") by reflexivity.
  by rewrite (insert_id _ "accordionContentSelectors") by reflexivity.
Qed.

Lemma presetFields_no_margins preset : presetFields preset !! "margins" = None.
Proof. reflexivity. Qed.

Lemma resolveConfig_lookup options k :
  k <> "margins" ->
  resolveConfig (OptionsObject options) !! k =
    match options !! k with
    | Some v => Some v
    | None => defaultOptions !! k
    end.
Proof.
  intros Hk. unfold resolveConfig, spread. simpl.
  rewrite lookup_insert_ne by done.
  rewrite lookup_union. by destruct (options !! k), (defaultOptions !! k).
Qed.

Lemma resolveConfig_margins options :
  resolveConfig (OptionsObject options) !! "margins" =
    Some (Obj (fieldsOf (options !! "margins") ∪ defaultMargins)).
Proof. unfold resolveConfig. by rewrite lookup_insert_eq. Qed.

End Configuration.

(** C7.  A preset name resolves to the same configuration as the options
    object that holds the preset's four fields.  In that configuration a
    field of the preset has the preset's value, and any other field has its
    default.  When explicit fields are laid over the preset's fields, an
    explicit field has its explicit value and the others are as the preset
    alone resolves them ([margins] is merged side by side and is the matter
    of C10). *)
Theorem preset_is_base_configuration (name : Config.PresetName) :
  let preset := Config.presetFields (Config.presets name) in
  Config.resolveConfig (Config.PresetNamed name)
    = Config.resolveConfig (Config.OptionsObject preset)
  /\ (forall k v, preset !! k = Some v ->
        Config.resolveConfig (Config.PresetNamed name) !! k = Some v)
  /\ (forall k, preset !! k = None ->
        Config.resolveConfig (Config.PresetNamed name) !! k
          = Config.defaultOptions !! k)
  /\ (forall (explicit : Config.Object) k v,
        k <> "margins" -> explicit !! k = Some v ->
        Config.resolveConfig (Config.OptionsObject (Config.spread preset explicit)) !! k
          = Some v)
  /\ (forall (explicit : Config.Object) k,
        k <> "margins" -> explicit !! k = None ->
        Config.resolveConfig (Config.OptionsObject (Config.spread preset explicit)) !! k
          = Config.resolveConfig (Config.PresetNamed name) !! k).
Proof.
  intros preset.
  assert (Config.resolveConfig (Config.PresetNamed name)
          = Config.resolveConfig (Config.OptionsObject preset)) as E.
  { unfold Config.resolveConfig. by rewrite resolveOptions_preset. }
  rewrite E. split; [done|]. repeat split.
  - intros k v Hk.
    assert (k <> "margins") as Hne.
    { intros ->. subst preset. by rewrite presetFields_no_margins in Hk. }
    by rewrite resolveConfig_lookup, Hk.
  - intros k Hk. destruct (decide (k = "margins")) as [->|Hne].
    + rewrite resolveConfig_margins, Hk. simpl. by rewrite (left_id_L ∅ (∪)).
    + by rewrite resolveConfig_lookup, Hk.
  - intros explicit k v Hne Hk.
    rewrite resolveConfig_lookup by done. unfold Config.spread.
    by rewrite (lookup_union_Some_l _ _ _ _ Hk).
  - intros explicit k Hne Hk.
    rewrite !resolveConfig_lookup by done. unfold Config.spread.
    by rewrite lookup_union_r.
Qed.

Lemma preset_is_base_configuration_witness :
  Config.resolveConfig (Config.PresetNamed Config.docusaurus) !! "removeSelectors"
    = Some (Config.Strs [ ".theme-doc-sidebar-container"; ".table-of-contents";
                          "nav"; ".print-hidden" ])
  /\ Config.resolveConfig (Config.PresetNamed Config.docusaurus) !! "timeout"
    = Some (Config.Number 30000)
  /\ Config.resolveConfig
       (Config.OptionsObject
          (Config.spread (Config.presetFields (Config.presets Config.docusaurus))
             {[ "contentSelector" := Config.Str "main" ]})) !! "contentSelector"
    = Some (Config.Str "main").
Proof.
  destruct (preset_is_base_configuration Config.docusaurus) as (_ & Hp & Hd & He & _).
  split; [|split].
  - apply Hp. reflexivity.
  - rewrite Hd; reflexivity.
  - apply He; [discriminate | reflexivity].
Defined.

(** C10.  When an options object carries a [margins] object, the resolved
    [margins] has, for each of the four sides, the value the object supplies
    for that side, and 30 for a side it does not supply. *)
Theorem margins_merge_side_by_side
    (options margins : Config.Object) (side : string) :
  options !! "margins" = Some (Config.Obj margins) ->
  side ∈ [ "top"; "right"; "bottom"; "left" ] ->
  exists merged : Config.Object,
    Config.resolveConfig (Config.OptionsObject options) !! "margins"
      = Some (Config.Obj merged)
    /\ merged !! side =
         match margins !! side with
         | Some supplied => Some supplied
         | None => Some (Config.Number 30)
         end.
Proof.
  intros Hm Hside. eexists. split.
  - rewrite resolveConfig_margins, Hm. reflexivity.
  - simpl. rewrite lookup_union.
    assert (Config.defaultMargins !! side = Some (Config.Number 30)) as ->.
    { repeat (apply elem_of_cons in Hside as [->|Hside]; [reflexivity|]).
      by apply elem_of_nil in Hside. }
    by destruct (margins !! side).
Qed.

Lemma margins_merge_side_by_side_witness :
  exists merged : Config.Object,
    Config.resolveConfig
      (Config.OptionsObject {[ "margins" := Config.Obj {[ "top" := Config.Number 10 ]} ]})
      !! "margins" = Some (Config.Obj merged)
    /\ merged !! "left" =
         match ({[ "top" := Config.Number 10 ]} : Config.Object) !! "left" with
         | Some supplied => Some supplied
         | None => Some (Config.Number 30)
         end.
Proof.
  apply (margins_merge_side_by_side
           {[ "margins" := Config.Obj {[ "top" := Config.Number 10 ]} ]}
           {[ "top" := Config.Number 10 ]} "left").
  - reflexivity.
  - repeat constructor.
Defined.

(** ** Accordion Expander *)

Section AccordionExpander.
Import Accordion.
Context {Page Handle : Type}.
Variable querySelectorAll : string -> Page -> option (list Handle).
Variable click : Handle -> Page -> Page.
Variable settle : nat -> Page -> Page.
Variable sel : string.

Local Abbreviation loop := (loop Page Handle querySelectorAll click settle).
Local Abbreviation pageAtRound := (pageAtRound Page Handle querySelectorAll click settle).
Local Abbreviation clickAll := (clickAll Page Handle click).

#[local] Arguments Accordion.clickAll : simpl never.

Lemma pageAtRound_shift page k :
  pageAtRound sel page (S k) =
  pageAtRound sel
    (settle 400 (clickAll (default [] (querySelectorAll sel page)) page)) k.
Proof.
  induction k as [|k IH]; [reflexivity|].
  simpl in *. by rewrite IH.
Qed.


End AccordionExpander.

Lemma expandAccordions_rejected {Page Handle : Type}
    (querySelectorAll : string -> Page -> option (list Handle))
    (click : Handle -> Page -> Page) (settle : nat -> Page -> Page)
    (page : Page) (selectors : list string) :
  querySelectorAll (Js.join ", " selectors) page = None ->
  let run := Accordion.expandAccordions Page Handle querySelectorAll click settle
               page selectors in
  Accordion.threw _ _ run = true /\ Accordion.rounds _ _ run = [].
Proof.
  intros Hq. unfold Accordion.expandAccordions. simpl. by rewrite Hq.
Qed.




(** ** Lazy-Content Forcer *)

Section LazyContentForcer.
Import LazyImages.

Lemma waitFor_removeLoading img : waitFor (removeLoading img) = waitFor img.
Proof. reflexivity. Qed.

Lemma waitFor_not_rejected img reason : waitFor img <> Rejected reason.
Proof.
  unfold waitFor.
  destruct (complete img && (0 <? naturalHeight img)%N); [done|].
  by destruct (fires img).
Qed.

Lemma all_not_rejected promises :
  Forall (fun p => forall reason, p <> Rejected reason) promises ->
  forall reason, all promises <> Rejected reason.
Proof.
  induction 1 as [|p promises Hp _ IH]; intros reason; simpl; [done|].
  destruct p as [|r|]; [apply IH | by destruct (Hp r) |].
  destruct (all promises) as [|r|] eqn:E; try done; by destruct (IH r).
Qed.

Lemma all_fulfilled promises :
  Forall (fun p => p = Fulfilled) promises -> all promises = Fulfilled.
Proof. induction 1 as [|p promises -> _ IH]; simpl; done. Qed.

End LazyContentForcer.

(** C8.  In the forced reload, an image that fires [error] settles its wait
    exactly as one that fires [load]: the wait is fulfilled.  The promise of
    the whole phase is never rejected, whatever the images do, and it is
    fulfilled once every image has fired [load] or [error]. *)
Theorem broken_image_counts_as_loaded (images : list LazyImages.Img) :
  (forall img, LazyImages.waitFor (LazyImages.firing LazyImages.Error img)
               = LazyImages.waitFor (LazyImages.firing LazyImages.Load img))
  /\ (forall img, LazyImages.fires img = LazyImages.Error ->
        LazyImages.waitFor img = LazyImages.Fulfilled)
  /\ (forall reason, LazyImages.reloadImages images <> LazyImages.Rejected reason)
  /\ (Forall (fun img => LazyImages.fires img = LazyImages.Load
                         \/ LazyImages.fires img = LazyImages.Error) images ->
      LazyImages.reloadImages images = LazyImages.Fulfilled).
Proof.
  split_and!.
  - intros img. unfold LazyImages.waitFor. simpl.
    by destruct (_ && _).
  - intros img Hf. unfold LazyImages.waitFor. rewrite Hf.
    by destruct (_ && _).
  - unfold LazyImages.reloadImages. apply all_not_rejected.
    rewrite map_map. apply Forall_map, Forall_forall.
    intros img _ reason. apply waitFor_not_rejected.
  - intros Hall. unfold LazyImages.reloadImages. apply all_fulfilled.
    rewrite map_map. apply Forall_map.
    eapply Forall_impl; [exact Hall|]. intros img Hf. simpl.
    unfold LazyImages.waitFor. simpl.
    destruct (_ && _); [done|]. by destruct Hf as [-> | ->].
Qed.

Lemma broken_image_counts_as_loaded_witness :
  LazyImages.reloadImages
    [ LazyImages.Build_Img false 0 "/missing.png" (Some "lazy") LazyImages.Error;
      LazyImages.Build_Img true 120 "/logo.png" None LazyImages.Nothing;
      LazyImages.Build_Img false 0 "/late.png" (Some "lazy") LazyImages.Load ]
  = LazyImages.Fulfilled.
Proof.
  pose proof (broken_image_counts_as_loaded
    [ LazyImages.Build_Img false 0 "/missing.png" (Some "lazy") LazyImages.Error;
      LazyImages.Build_Img true 120 "/logo.png" None LazyImages.Nothing;
      LazyImages.Build_Img false 0 "/late.png" (Some "lazy") LazyImages.Load ])
    as (_ & Herr & _ & _).
  rewrite <- (Herr (LazyImages.Build_Img false 0 "/missing.png" (Some "lazy")
                      LazyImages.Error) eq_refl).
  reflexivity.
Defined.

(** ** Render Orchestrator *)

Section Orchestrator.
Import Handler HandlerLogic.
Variable world : Browser.
Hypothesis close_returns : forall tr c, stage c = Close -> throws world tr c = None.

Lemma hoare_ret {A} (P : State -> Prop) (a : A) Q F :
  (forall s, P s -> Q a s) -> hoare P (mret a) Q F.
Proof. intros H s Hs. by apply H. Qed.

Lemma hoare_bind {A B} P (m : M A) (f : A -> M B) Q' Q F :
  hoare P m Q' F -> (forall a, hoare (Q' a) (f a) Q F) -> hoare P (m ≫= f) Q F.
Proof.
  intros Hm Hf s Hs. specialize (Hm s Hs).
  unfold mbind, M_bind. destruct (m s) as [[e|a] s']; [done|].
  by apply Hf.
Qed.













End Orchestrator.



(** A run in which nothing fails: the PDF comes back under the derived
    name, the page is rendered 60 units higher than it was measured, and the
    session is closed once, by the last call. *)
Example handler_succeeds :
  let run := Handler.handler Handler.nothingFails Config.NoOptions
               (Handler.Build_Request (Some "/docs/setup") "https:"
                  (Some "docs.test") (Some "sid=1")) Handler.initial in
  run.1 = inr (Handler.PdfFile "%PDF-1.4"
                 [ ("Content-Type", "application/pdf");
                   ("Content-Disposition",
                    "attachment; filename=" +:+ Config.dq +:+ "docs-setup.pdf"
                      +:+ Config.dq) ])
  /\ map (fun ev => Handler.stage ev.1) (Handler.events run.2)
     = [ Handler.Launch; Handler.NewPage; Handler.SetCookie; Handler.SetViewport;
         Handler.Goto; Handler.ExpandAccordions; Handler.TriggerLazyImages;
         Handler.CleanupPageForPdf; Handler.MeasureHeight; Handler.Pdf;
         Handler.Close ]
  /\ (Handler.Build_Call Handler.Pdf
        [ Handler.AField (Some (Config.Number 850)); Handler.ANum 1300;
          Handler.AField (Some (Config.Obj Config.defaultMargins)) ], None)
     ∈ Handler.events run.2.
Proof.
  split_and!; [by vm_compute..|].
  apply list_elem_of_In. vm_compute. tauto.
Qed.

(** ** The page *)

Section Tree.
Import Dom.

Lemma Node_ind (P : Node -> Prop) :
  (forall t, P (Text t)) ->
  (forall d kids, Forall P kids -> P (Element d kids)) ->
  forall n, P n.
Proof.
  intros Htext Helem. fix IH 1. intros [t|d kids]; [apply Htext|].
  apply Helem. induction kids as [|k kids IHkids]; constructor; [apply IH | exact IHkids].
Qed.

Lemma length_flat_map {A B} (f g : A -> list B) xs :
  Forall (fun x => length (f x) = length (g x)) xs ->
  length (flat_map f xs) = length (flat_map g xs).
Proof.
  induction 1 as [|x xs Hx _ IH]; simpl; [done|].
  by rewrite !length_app, Hx, IH.
Qed.

(** The number of elements of a subtree does not depend on where it stands. *)
Lemma length_elementsOf anc anc' n :
  length (elementsOf anc n) = length (elementsOf anc' n).
Proof.
  revert anc anc'. induction n as [t|d kids IH] using Node_ind; intros anc anc'; simpl; [done|].
  f_equal. apply length_flat_map.
  eapply Forall_impl; [exact IH|]. intros k Hk. apply Hk.
Qed.

Lemma length_descendants anc anc' kids :
  length (descendants anc kids) = length (descendants anc' kids).
Proof.
  unfold descendants. apply length_flat_map, Forall_forall.
  intros k _. apply length_elementsOf.
Qed.

(** A pruning keeps every element it does not delete. *)
Lemma length_prune doomed anc n :
  length (descendants anc (prune doomed anc n)) + length (deletedIn doomed anc n)
  = length (elementsOf anc n).
Proof.
  revert anc. induction n as [t|d kids IH] using Node_ind; intros anc; simpl; [done|].
  destruct (doomed _); simpl; [done|].
  assert (length (flat_map (elementsOf (d :: anc))
                    (flat_map (prune doomed (d :: anc)) kids))
          + length (flat_map (deletedIn doomed (d :: anc)) kids)
          = length (flat_map (elementsOf (d :: anc)) kids)) as Hkids.
  { induction IH as [|k kids Hk _ IHkids]; simpl; [done|].
    rewrite flat_map_app, !length_app.
    specialize (Hk (d :: anc)). unfold descendants in Hk. lia. }
  rewrite app_nil_r. simpl. lia.
Qed.

Lemma length_pruneAll doomed anc kids :
  length (descendants anc (pruneAll doomed anc kids))
    + length (deleted doomed anc kids)
  = length (descendants anc kids).
Proof.
  unfold pruneAll, deleted, descendants.
  induction kids as [|k kids IH]; simpl; [done|].
  rewrite flat_map_app, !length_app.
  pose proof (length_prune doomed anc k) as Hk. unfold descendants in Hk. lia.
Qed.

(** A restyling keeps every element. *)
Lemma length_restyle f anc anc' n :
  length (elementsOf anc' (restyle f anc n)) = length (elementsOf anc' n).
Proof.
  revert anc anc'. induction n as [t|d kids IH] using Node_ind; intros anc anc'; simpl; [done|].
  f_equal. rewrite flat_map_concat_map, map_map, <- flat_map_concat_map.
  induction IH as [|k kids Hk _ IHkids]; simpl; [done|].
  rewrite !length_app, IHkids. f_equal.
  rewrite Hk. apply length_elementsOf.
Qed.

Lemma length_forEachMatching sel f anc anc' kids :
  length (descendants anc' (forEachMatching sel f anc kids))
  = length (descendants anc' kids).
Proof.
  unfold forEachMatching, descendants.
  rewrite flat_map_concat_map, map_map, <- flat_map_concat_map.
  apply length_flat_map, Forall_forall. intros k _. apply length_restyle.
Qed.

Lemma Forall_flat_map {A B} (Q : B -> Prop) (f : A -> list B) xs :
  Forall (fun x => Forall Q (f x)) xs -> Forall Q (flat_map f xs).
Proof.
  induction 1 as [|x xs Hx _ IH]; simpl; [constructor|].
  apply Forall_app. done.
Qed.

Lemma Forall_flat_map_inv {A B} (Q : B -> Prop) (f : A -> list B) xs :
  Forall Q (flat_map f xs) -> Forall (fun x => Forall Q (f x)) xs.
Proof.
  induction xs as [|x xs IH]; simpl; [constructor|].
  intros [Hx Hxs]%Forall_app. constructor; auto.
Qed.

Lemma restyle_everywhere (Q R : ElementData -> Prop) f :
  (forall a d, Q d -> R (f a d)) ->
  forall n anc anc' anc'',
    Forall (fun l => Q (element l)) (elementsOf anc n) ->
    Forall (fun l => R (element l)) (elementsOf anc' (restyle f anc'' n)).
Proof.
  intros Hf. induction n as [t|d kids IH] using Node_ind;
    intros anc anc' anc''; simpl; [constructor|].
  intros Hall. apply Forall_cons in Hall as [Hd Hkids]. simpl in Hd.
  constructor; [by apply Hf|].
  apply Forall_flat_map_inv in Hkids.
  rewrite flat_map_concat_map, map_map, <- flat_map_concat_map.
  apply Forall_flat_map.
  induction IH as [|k kids Hk _ IHkids]; [constructor|].
  apply Forall_cons in Hkids as [Hk' Hkids]. constructor; eauto.
Qed.

Lemma forEachMatching_everywhere (Q R : ElementData -> Prop) sel f anc anc' kids :
  (forall d, Q d -> R (f d)) -> (forall d, Q d -> R d) ->
  everywhere Q anc' kids ->
  everywhere R anc' (forEachMatching sel f anc kids).
Proof.
  intros Hf Hid Hall. unfold everywhere, forEachMatching, descendants in *.
  apply Forall_flat_map_inv in Hall.
  rewrite flat_map_concat_map, map_map, <- flat_map_concat_map.
  apply Forall_flat_map.
  eapply Forall_impl; [exact Hall|]. intros k Hk. simpl.
  eapply restyle_everywhere; [|exact Hk].
  intros a d Hd. destruct (matches sel a d); auto.
Qed.

End Tree.

Section Styles.
Import Dom Sanitizer.

Lemma Forall_elementsOf_anywhere (Q : ElementData -> Prop) n anc anc' :
  Forall (fun l => Q (element l)) (elementsOf anc n) ->
  Forall (fun l => Q (element l)) (elementsOf anc' n).
Proof.
  revert anc anc'. induction n as [t|d kids IH] using Node_ind;
    intros anc anc'; simpl; [done|].
  intros [Hd Hkids]%Forall_cons. constructor; [done|].
  apply Forall_flat_map_inv in Hkids. apply Forall_flat_map.
  induction IH as [|k kids Hk _ IHkids]; [constructor|].
  apply Forall_cons in Hkids as [Hk' Hkids]. constructor; eauto.
Qed.

Lemma everywhere_anywhere Q anc anc' kids :
  everywhere Q anc kids -> everywhere Q anc' kids.
Proof.
  unfold everywhere, descendants. intros H%Forall_flat_map_inv.
  apply Forall_flat_map. eapply Forall_impl; [exact H|].
  intros k. apply Forall_elementsOf_anywhere.
Qed.

Lemma computed_setStyle_same p v d :
  yields p d -> computed p (setStyle p v d) = v.
Proof.
  intros Hy. unfold computed. simpl. rewrite lookup_insert_eq.
  destruct (sheet d !! p) as [[w [|]]|] eqn:E; [by destruct (Hy w)|done..].
Qed.

Lemma computed_setStyle_other p q v d :
  p <> q -> computed p (setStyle q v d) = computed p d.
Proof. intros Hne. unfold computed. simpl. by rewrite lookup_insert_ne. Qed.

Lemma flows_setStyle_other q v d :
  q <> "position" -> q <> "overflow-x" -> q <> "overflow-y" ->
  flows d -> flows (setStyle q v d).
Proof.
  intros Hp Hx Hy [Hpos Hov].
  unfold flows, computedOverflow, computedOverflowX, computedOverflowY, yields in *.
  simpl. by rewrite !computed_setStyle_other.
Qed.

Lemma flows_setPosition v d :
  v <> "fixed" -> v <> "sticky" -> flows d -> flows (setStyle "position" v d).
Proof.
  intros Hf Hs [Hpos Hov]. split.
  - intros Hy. by rewrite computed_setStyle_same.
  - unfold computedOverflow, computedOverflowX, computedOverflowY, yields in *.
    simpl. by rewrite !computed_setStyle_other.
Qed.

Lemma flows_setOverflow_visible d :
  (yields "position" d ->
     computed "position" d <> "fixed" /\ computed "position" d <> "sticky") ->
  flows (setOverflow "visible" d).
Proof.
  intros Hpos. unfold setOverflow. split.
  - unfold yields in *. simpl. by rewrite !computed_setStyle_other.
  - intros Hx Hy. unfold computedOverflow, computedOverflowX, computedOverflowY.
    rewrite computed_setStyle_other by done.
    rewrite !computed_setStyle_same by done. done.
Qed.

Lemma flows_unpin d : flows (unpin d).
Proof.
  unfold unpin.
  set (d1 := if (_ : bool) then setStyle "position" "static" d else d).
  assert (yields "position" d1 ->
          computed "position" d1 <> "fixed" /\ computed "position" d1 <> "sticky")
    as Hpos.
  { subst d1.
    destruct (String.eqb_spec (computed "position" d) "fixed") as [?|Hf]; simpl.
    { intros Hy. by rewrite computed_setStyle_same. }
    destruct (String.eqb_spec (computed "position" d) "sticky") as [?|Hs]; simpl.
    { intros Hy. by rewrite computed_setStyle_same. }
    done. }
  clearbody d1.
  destruct (String.eqb_spec (computedOverflow d1) "hidden") as [?|Ho]; simpl.
  { by apply flows_setOverflow_visible. }
  destruct (String.eqb_spec (computedOverflowY d1) "hidden") as [?|Hy]; simpl.
  { by apply flows_setOverflow_visible. }
  done.
Qed.

Lemma flows_keeps_overflow_visible d :
  flows d -> flows (setOverflow "visible" d).
Proof. intros [Hpos _]. by apply flows_setOverflow_visible. Qed.

(** Beside an axis that a sheet hides, the other axis computes to [auto],
    and a clipped one to [hidden]: it is the second that the loop over [*]
    takes for hidden, and makes visible. *)
Example overflow_beside_a_hidden_axis :
  computedOverflow (ExamplePage.el "div" [] [ ("overflow-y", ("hidden", false)) ])
  = "auto hidden"
  /\ computedOverflow
       (ExamplePage.el "div" []
          [ ("overflow-x", ("clip", false)); ("overflow-y", ("scroll", false)) ])
     = "hidden scroll"
  /\ computedOverflow
       (unpin (ExamplePage.el "div" []
                 [ ("overflow-x", ("hidden", false)); ("overflow-y", ("clip", false)) ]))
     = "visible".
Proof. by vm_compute. Qed.

Ltac flows_step :=
  first
    [ apply flows_keeps_overflow_visible
    | apply flows_setPosition; [ discriminate | discriminate | ]
    | apply flows_setStyle_other; [ discriminate | discriminate | discriminate | ] ].

Lemma flows_openUp d : flows d -> flows (openUp d).
Proof. intros H. unfold openUp. by repeat flows_step. Qed.

Lemma flows_unfoldContent d : flows d -> flows (unfoldContent d).
Proof. intros H. unfold unfoldContent. by repeat flows_step. Qed.

Lemma flows_stackColumn d : flows d -> flows (stackColumn d).
Proof. intros H. unfold stackColumn. by repeat flows_step. Qed.

Lemma flows_blockItem d : flows d -> flows (blockItem d).
Proof. intros H. unfold blockItem. by repeat flows_step. Qed.

Lemma flows_noTopSpace d : flows d -> flows (noTopSpace d).
Proof. intros H. unfold noTopSpace. by repeat flows_step. Qed.

Lemma matches_everything anc d : matches everything anc d = true.
Proof. reflexivity. Qed.

Lemma unpin_everywhere anc anc' kids :
  everywhere flows anc' (forEachMatching everything unpin anc kids).
Proof.
  unfold everywhere, forEachMatching, descendants.
  rewrite flat_map_concat_map, map_map, <- flat_map_concat_map.
  apply Forall_flat_map, Forall_forall. intros k _.
  apply (restyle_everywhere (fun _ => True) flows) with (anc := anc).
  - intros a d _. rewrite matches_everything. apply flows_unpin.
  - apply Forall_forall. done.
Qed.

Lemma unfoldContents_everywhere sels anc anc' kids :
  everywhere flows anc' kids ->
  everywhere flows anc' (unfoldContents sels anc kids).
Proof.
  unfold unfoldContents. revert kids.
  induction sels as [|sel sels IH]; intros kids Hk; simpl; [done|].
  apply IH. apply (forEachMatching_everywhere flows flows); auto using flows_unfoldContent.
Qed.

Lemma onFirstElementChild_everywhere (Q : ElementData -> Prop) f anc kids :
  (forall d, Q d -> Q (f d)) ->
  everywhere Q anc kids -> everywhere Q anc (onFirstElementChild f kids).
Proof.
  intros Hf. unfold everywhere, descendants.
  induction kids as [|[t|d below] kids IH]; simpl; [done|exact IH|].
  intros [Hd [Hb Hk]%Forall_app]%Forall_cons. constructor; [by apply Hf|].
  apply Forall_app. split; [|exact Hk].
  apply Forall_flat_map_inv in Hb. apply Forall_flat_map.
  eapply Forall_impl; [exact Hb|]. intros k. apply Forall_elementsOf_anywhere.
Qed.

Lemma restyles_everywhere sels anc anc' kids :
  everywhere flows anc' (restyles sels anc kids).
Proof.
  unfold restyles.
  apply onFirstElementChild_everywhere; [apply flows_noTopSpace|].
  apply (forEachMatching_everywhere flows flows); auto using flows_blockItem.
  apply (forEachMatching_everywhere flows flows); auto using flows_stackColumn.
  apply unfoldContents_everywhere.
  apply (forEachMatching_everywhere flows flows); auto using flows_openUp.
  apply unpin_everywhere.
Qed.

Lemma length_unfoldContents sels anc anc' kids :
  length (descendants anc' (unfoldContents sels anc kids))
  = length (descendants anc' kids).
Proof.
  unfold unfoldContents. revert kids.
  induction sels as [|sel sels IH]; intros kids; simpl; [done|].
  by rewrite IH, length_forEachMatching.
Qed.

Lemma length_onFirstElementChild f anc kids :
  length (descendants anc (onFirstElementChild f kids))
  = length (descendants anc kids).
Proof.
  unfold descendants.
  induction kids as [|[t|d below] kids IH]; simpl; [done|exact IH|].
  f_equal. rewrite !length_app. f_equal.
  apply length_flat_map, Forall_forall. intros k _. apply length_elementsOf.
Qed.

Lemma length_restyles sels anc anc' kids :
  length (descendants anc' (restyles sels anc kids))
  = length (descendants anc' kids).
Proof.
  unfold restyles.
  by rewrite length_onFirstElementChild, !length_forEachMatching,
       length_unfoldContents, !length_forEachMatching.
Qed.

Lemma length_removeSelected sels anc kids :
  length (descendants anc (removeSelected sels anc kids))
    + length (deletedBySelectors sels anc kids)
  = length (descendants anc kids).
Proof.
  unfold removeSelected. revert kids.
  induction sels as [|sel sels IH]; intros kids; simpl; [lia|].
  rewrite length_app.
  pose proof (IH (pruneAll (selects sel) anc kids)) as H1.
  pose proof (length_pruneAll (selects sel) anc kids) as H2. lia.
Qed.

Lemma length_removals sels anc kids :
  length (descendants anc (removals sels anc kids))
    + length (deletedByCleanup sels anc kids)
  = length (descendants anc kids).
Proof.
  unfold removals, deletedByCleanup. rewrite !length_app.
  pose proof (length_pruneAll (selects gridCols2) anc kids) as H1.
  pose proof (length_pruneAll isNavigationBlock anc
                (pruneAll (selects gridCols2) anc kids)) as H2.
  pose proof (length_removeSelected sels anc
                (pruneAll isNavigationBlock anc
                   (pruneAll (selects gridCols2) anc kids))) as H3.
  lia.
Qed.

End Styles.

(** ** The removal passes, seen closer *)

Section RemovalPasses.
Import Dom Sanitizer.

Lemma filter_none {A} (f : A -> bool) xs :
  Forall (fun x => f x = false) xs -> List.filter f xs = [].
Proof. induction 1 as [|x xs Hx _ IH]; simpl; [done|]. by rewrite Hx. Qed.

Lemma selects_gridCols2 l :
  selects gridCols2 l
  = matchesSimple (AttrContains "class" "grid-cols-2") (element l).
Proof.
  unfold selects, matches, matchesComplex. simpl.
  by rewrite !andb_true_r, orb_false_r.
Qed.

Lemma prune_leaves_no_grid n anc anc' :
  Forall (fun l => selects gridCols2 l = false)
    (descendants anc' (prune (selects gridCols2) anc n)).
Proof.
  revert anc anc'. induction n as [t|d kids IH] using Node_ind;
    intros anc anc'; unfold descendants; simpl; [constructor|].
  destruct (selects gridCols2 _) eqn:Hsel; simpl; [constructor|].
  rewrite app_nil_r. constructor.
  { by rewrite selects_gridCols2 in *. }
  do 2 apply Forall_flat_map. eapply Forall_impl; [exact IH|].
  intros k Hk. apply Forall_flat_map_inv, Hk.
Qed.

Lemma below_everywhere (Q : ElementData -> Prop) n anc anc' l :
  Forall (fun l => Q (element l)) (elementsOf anc n) ->
  l ∈ elementsOf anc n ->
  everywhere Q anc' (children l).
Proof.
  revert anc. induction n as [t|d kids IH] using Node_ind; intros anc; simpl.
  { intros _ Hin. by apply elem_of_nil in Hin. }
  intros [_ Hkids]%Forall_cons [->|Hin]%elem_of_cons.
  { simpl. by apply (everywhere_anywhere Q (d :: anc)). }
  apply Forall_flat_map_inv in Hkids.
  apply list_elem_of_In, in_flat_map in Hin as (k & Hk & Hin).
  apply list_elem_of_In in Hk, Hin.
  eapply Forall_forall in IH; [|exact Hk].
  eapply Forall_forall in Hkids; [|exact Hk].
  by eapply IH.
Qed.

(** Once the first pass has removed the grid blocks, no element has one
    below it: the first half of the test for navigation blocks cannot
    succeed, and a responsive container around a grid block stays. *)
Lemma grid_test_is_spent anc kids l :
  l ∈ descendants anc (pruneAll (selects gridCols2) anc kids) ->
  querySelectorAll gridCols2 (element l :: ancestors l) (children l) = [].
Proof.
  unfold descendants, pruneAll. intros Hin.
  apply list_elem_of_In, in_flat_map in Hin as (n & Hn & Hin).
  apply in_flat_map in Hn as (k & _ & Hn).
  apply list_elem_of_In in Hin.
  pose proof (prune_leaves_no_grid k anc anc) as Hclean.
  unfold descendants in Hclean. apply Forall_flat_map_inv in Hclean.
  eapply Forall_forall in Hclean; [|by apply list_elem_of_In].
  pose proof (below_everywhere (fun d =>
                matchesSimple (AttrContains "class" "grid-cols-2") d = false)
                n anc (element l :: ancestors l) l) as Hbelow.
  unfold querySelectorAll. apply filter_none.
  eapply Forall_impl.
  - apply Hbelow; [|exact Hin].
    eapply Forall_impl; [exact Hclean|].
    intros x Hx. by rewrite <- selects_gridCols2.
  - intros l' Hl'. simpl in *. fold (selects gridCols2 l').
    by rewrite selects_gridCols2.
Qed.

(** Of the three containers, only the one around exactly two links goes;
    the grid goes, but the container around it stays, empty. *)
Example removals_on_cards :
  map (fun l => (tagName (element l), attributes (element l) !! "class"))
    (descendants [] (removals [] [] ExampleCards.cards))
  = [ ("div", Some "@container"); ("div", Some "@container more"); ("a", None) ].
Proof. reflexivity. Qed.

End RemovalPasses.

(** ** DOM Sanitizer *)

(** C3, as the code has it.  When the content selector matches, the body of
    the cleaned document holds exactly one node: the clone of the content
    element, with its tag and its attributes.  The elements below the clone
    are those below the content less the deleted ones, an element that a
    removal pass matches being deleted with everything below it.  No element
    below the clone is left with a computed position of [fixed] or [sticky]
    where no sheet declares the position [!important], nor with a computed
    overflow of [hidden] where no sheet declares the overflow
    [!important]. *)
Theorem cleanup_leaves_one_flowing_root
    (doc : Dom.Document) (contentSelector : Dom.Selector)
    (removeSelectors accordionContentSelectors : list Dom.Selector)
    (content : Dom.Located) :
  Dom.querySelector contentSelector doc = Some content ->
  let doc' := Sanitizer.cleanupPageForPdf doc contentSelector removeSelectors
                accordionContentSelectors in
  let anc := [ Dom.setCssText Sanitizer.cloneCss (Dom.element content);
               Dom.setCssText Sanitizer.bodyCss (Dom.body doc);
               Dom.setCssText Sanitizer.rootCss (Dom.documentElement doc) ] in
  exists root kids,
    Dom.bodyNodes doc' = [ Dom.Element root kids ]
    /\ Dom.tagName root = Dom.tagName (Dom.element content)
    /\ Dom.attributes root = Dom.attributes (Dom.element content)
    /\ length (Dom.descendants anc kids)
       + length (Sanitizer.deletedByCleanup removeSelectors anc (Dom.children content))
       = length (Dom.descendants anc (Dom.children content))
    /\ Forall (fun l => Sanitizer.flows (Dom.element l)) (Dom.descendants anc kids).
Proof.
  intros Hq doc' anc. subst doc'. unfold Sanitizer.cleanupPageForPdf.
  rewrite Hq. fold anc. eexists _, _. split; [reflexivity|].
  split_and!; [done|done| |].
  - rewrite length_restyles. apply length_removals.
  - apply restyles_everywhere.
Qed.

Lemma cleanup_leaves_one_flowing_root_witness :
  exists root kids,
    Dom.bodyNodes ExamplePage.cleaned = [ Dom.Element root kids ]
    /\ Dom.tagName root = "article"
    /\ length (Dom.descendants ExamplePage.cleanedAncestors kids) + 2 = 5
    /\ Forall (fun l => Sanitizer.flows (Dom.element l))
         (Dom.descendants ExamplePage.cleanedAncestors kids).
Proof.
  destruct (cleanup_leaves_one_flowing_root ExamplePage.page ExamplePage.article
              ExamplePage.defaultRemoveSelectors
              ExamplePage.defaultAccordionContentSelectors
              ExamplePage.pageContent eq_refl)
    as (root & kids & Hbody & Htag & _ & Hcount & Hflows).
  exists root, kids. split_and!; [exact Hbody | exact Htag | exact Hcount | exact Hflows].
Defined.

(** C3, as it is worded, fails on the example page.  The navigation bar is
    matched for removal and goes with the link below it, so that three
    elements are left below the clone where five less one would be four;
    the clone itself, which the script does not visit, still clips as the
    sheets tell it to; and the banner keeps the position that a sheet
    declares [!important]. *)
Lemma cleanup_as_worded_fails :
  Dom.querySelector ExamplePage.article ExamplePage.page
    = Some ExamplePage.pageContent
  /\ ~ SanitizerSpec.sanitizedAsWorded ExamplePage.page ExamplePage.article
         ExamplePage.defaultRemoveSelectors
         ExamplePage.defaultAccordionContentSelectors ExamplePage.pageContent
  /\ (exists root kids,
        Dom.bodyNodes ExamplePage.cleaned = [ Dom.Element root kids ]
        /\ length (Dom.descendants ExamplePage.cleanedAncestors
                     ExamplePage.articleNodes) = 5
        /\ length (Sanitizer.matchedByCleanup ExamplePage.defaultRemoveSelectors
                     ExamplePage.cleanedAncestors ExamplePage.articleNodes) = 1
        /\ length (Dom.descendants ExamplePage.cleanedAncestors kids) = 3
        /\ Dom.computedOverflow root = "hidden"
        /\ map (fun l => (Dom.tagName (Dom.element l),
                          Dom.computed "position" (Dom.element l)))
             (Dom.descendants ExamplePage.cleanedAncestors kids)
           = [ ("header", "static"); ("p", "static"); ("aside", "sticky") ]).
Proof.
  split; [reflexivity|]. split.
  - intros (root & kids & Hbody & Hcount & _).
    injection Hbody as <- <-. vm_compute in Hcount. discriminate.
  - eexists _, _. split; [reflexivity|]. by vm_compute.
Qed.

(** ** Height Measurer *)

Section Measurement.
Import Dom Sanitizer.

Lemma matchesSimple_same_markup s d d' :
  tagName d = tagName d' -> attributes d = attributes d' ->
  matchesSimple s d = matchesSimple s d'.
Proof. intros Ht Ha. destruct s; simpl; by rewrite ?Ht, ?Ha. Qed.

Lemma matches_contextFree sel anc anc' d d' :
  contextFree sel ->
  tagName d = tagName d' -> attributes d = attributes d' ->
  matches sel anc d = matches sel anc' d'.
Proof.
  unfold contextFree, matches. intros Hfree Ht Ha.
  induction Hfree as [|cx more Hcx _ IH]; simpl; [done|].
  rewrite IH. f_equal. unfold matchesComplex. rewrite Hcx. simpl. f_equal.
  unfold matchesCompound.
  induction (subject cx) as [|s ss IHs]; simpl; [done|].
  by rewrite IHs, (matchesSimple_same_markup s d d').
Qed.

Lemma head_filter_found {A} (f : A -> bool) xs x :
  x ∈ xs -> f x = true -> is_Some (List.head (List.filter f xs)).
Proof.
  intros Hin Hf. induction Hin as [x xs|x y xs _ IH]; simpl.
  - rewrite Hf. by eexists.
  - destruct (f y); [by eexists | by apply IH].
Qed.

Lemma querySelector_matches sel doc l :
  querySelector sel doc = Some l -> matches sel (ancestors l) (element l) = true.
Proof.
  unfold querySelector. intros Hhead.
  assert (In l (List.filter (fun l => matches sel (ancestors l) (element l))
                  (elementsOf [] (tree doc)))) as Hin.
  { destruct (List.filter _ _) as [|x xs]; simplify_eq/=. by left. }
  by apply filter_In in Hin as [_ Hm].
Qed.

(** After the cleanup, a content selector that looks at the element alone
    finds an element again: the measurement does not fall back on the scroll
    height of the body. *)
Lemma content_found_again doc sel removeSelectors accordionContentSelectors content :
  contextFree sel ->
  querySelector sel doc = Some content ->
  is_Some (querySelector sel
             (cleanupPageForPdf doc sel removeSelectors accordionContentSelectors)).
Proof.
  intros Hfree Hq. pose proof (querySelector_matches _ _ _ Hq) as Hm.
  unfold cleanupPageForPdf. rewrite Hq.
  set (anc := [ setCssText cloneCss (element content);
                setCssText bodyCss (body doc);
                setCssText rootCss (documentElement doc) ]).
  set (styled := restyles accordionContentSelectors anc
                   (removals removeSelectors anc (children content))).
  unfold querySelector.
  apply (head_filter_found _ _
           {| ancestors := [ setCssText bodyCss (body doc);
                             setCssText rootCss (documentElement doc) ];
              element := noTopSpace (setCssText cloneCss (element content));
              children := styled |}).
  - unfold tree.
    cbn [documentElement head headNodes body bodyNodes elementsOf flat_map].
    apply elem_of_cons. right. apply elem_of_app. right.
    apply elem_of_cons. right. rewrite !app_nil_r.
    apply elem_of_cons. by left.
  - cbn [ancestors element]. rewrite <- Hm. by apply matches_contextFree.
Qed.

End Measurement.


(** C5.  The measured height is the height of the bounding rectangle of the
    content element plus 40 when the content selector finds an element, and
    the scroll height of the body, with nothing added, when it finds
    none. *)
Theorem measured_height_has_padding
    (layout : Sanitizer.Layout) (doc : Dom.Document) (selector : Dom.Selector) :
  (forall content, Dom.querySelector selector doc = Some content ->
     Sanitizer.measureHeight layout doc selector
       = (Sanitizer.boundingHeight layout content + 40)%float)
  /\ (Dom.querySelector selector doc = None ->
      Sanitizer.measureHeight layout doc selector
        = Sanitizer.bodyScrollHeight layout).
Proof.
  unfold Sanitizer.measureHeight.
  split; [intros content Hq | intros Hq]; by rewrite Hq.
Qed.

Lemma measured_height_has_padding_witness :
  Sanitizer.measureHeight ExamplePage.layout ExamplePage.cleaned ExamplePage.article
    = 1240%float
  /\ Sanitizer.measureHeight ExamplePage.layout ExamplePage.cleaned
       (Sanitizer.only [ Dom.Tag "main" ])
    = 2000%float.
Proof.
  destruct (measured_height_has_padding ExamplePage.layout ExamplePage.cleaned
              ExamplePage.article) as [Hfound _].
  destruct (measured_height_has_padding ExamplePage.layout ExamplePage.cleaned
              (Sanitizer.only [ Dom.Tag "main" ])) as [_ Hnone].
  split.
  - destruct (Dom.querySelector ExamplePage.article ExamplePage.cleaned)
      as [content|] eqn:Hq; [|by vm_compute in Hq].
    rewrite (Hfound content eq_refl). reflexivity.
  - rewrite Hnone; reflexivity.
Defined.

(** * Further properties of the code *)

(** ** Configuration, further *)

(** X1.  The preset [fumadocs] is the default configuration: a handler
    created with that name, one created with no argument and one created
    with an empty options object resolve to the table of defaults. *)
Theorem fumadocs_is_the_default :
  Config.resolveConfig (Config.PresetNamed Config.fumadocs) = Config.defaultOptions
  /\ Config.resolveConfig Config.NoOptions = Config.defaultOptions
  /\ Config.resolveConfig (Config.OptionsObject ∅) = Config.defaultOptions.
Proof.
  assert (Config.resolveConfig (Config.OptionsObject ∅) = Config.defaultOptions) as E.
  { unfold Config.resolveConfig, Config.spread. simpl.
    rewrite !(left_id_L ∅ (∪)). by apply insert_id. }
  split_and!; [|exact E|exact E].
  unfold Config.resolveConfig. rewrite resolveOptions_preset.
  unfold Config.spread, Config.fieldsOf.
  rewrite presetFields_no_margins, (left_id_L ∅ (∪)).
  rewrite insert_id by reflexivity.
  apply map_eq. intros k. rewrite lookup_union.
  destruct (Config.presetFields (Config.presets Config.fumadocs) !! k) as [v|] eqn:Hk;
    [|by destruct (Config.defaultOptions !! k)].
  assert (Config.defaultOptions !! k = Some v) as ->; [|done].
  unfold Config.presetFields in Hk.
  repeat (apply lookup_insert_Some in Hk as [[<- <-]|[_ Hk]]; [reflexivity|]).
  by apply lookup_singleton_Some in Hk as [<- <-].
Qed.

(** X2.  Outside [margins], the resolved configuration holds, key by key,
    what the options object holds under the key, the value [undefined]
    included, and the default where the object has no such key; every key
    of the defaults is present, and so is every key of the object. *)
Theorem config_is_resolved_key_by_key (options : Config.Object) (k : string) :
  (k <> "margins" ->
     Config.resolveConfig (Config.OptionsObject options) !! k
     = match options !! k with
       | Some v => Some v
       | None => Config.defaultOptions !! k
       end)
  /\ (is_Some (Config.defaultOptions !! k) \/ is_Some (options !! k) <->
      is_Some (Config.resolveConfig (Config.OptionsObject options) !! k)).
Proof.
  split; [apply resolveConfig_lookup|].
  destruct (decide (k = "margins")) as [->|Hk].
  - rewrite resolveConfig_margins. split; [by eexists|].
    intros _. left. by exists (Config.Obj Config.defaultMargins).
  - rewrite resolveConfig_lookup by done.
    rewrite <- !not_eq_None_Some.
    destruct (options !! k) as [v|], (Config.defaultOptions !! k) as [w|];
      intuition congruence.
Qed.

(** X3.  The resolved [margins] is always an object that defines the four
    sides, whatever the options hold under [margins]; when they hold
    nothing there, or [undefined], a boolean or a number, it is the default
    margins. *)
Theorem margins_always_have_four_sides (options : Config.Options) :
  exists merged : Config.Object,
    Config.resolveConfig options !! "margins" = Some (Config.Obj merged)
    /\ Forall (fun side => is_Some (merged !! side))
         [ "top"; "right"; "bottom"; "left" ]
    /\ (match Config.resolveOptions options !! "margins" with
        | None | Some Config.Undefined | Some (Config.Bool _)
        | Some (Config.Number _) => True
        | Some (Config.Str _) | Some (Config.Strs _) | Some (Config.Obj _) => False
        end ->
        merged = Config.defaultMargins).
Proof.
  unfold Config.resolveConfig. eexists. split; [by rewrite lookup_insert_eq|].
  unfold Config.spread. split.
  - repeat constructor; rewrite lookup_union;
      by destruct (Config.fieldsOf _ !! _); eexists.
  - intros Hno.
    destruct (Config.resolveOptions options !! "margins") as [[]|] eqn:E;
      try done; simpl; by rewrite (left_id_L ∅ (∪)).
Qed.

(** A string under [margins] is spread as well: its code units come in
    under their indices, beside the four sides. *)
Example margins_of_a_string :
  exists merged : Config.Object,
    Config.resolveConfig
      (Config.OptionsObject {[ "margins" := Config.Str "ab" ]}) !! "margins"
    = Some (Config.Obj merged)
    /\ merged !! "0" = Some (Config.Str "a")
    /\ merged !! "1" = Some (Config.Str "b")
    /\ merged !! "top" = Some (Config.Number 30).
Proof.
  eexists. split; [unfold Config.resolveConfig; by rewrite lookup_insert_eq|].
  split_and!; by vm_compute.
Qed.

(** X4.  A handler created from a preset name and a handler created from
    the options object that holds the fields of the preset answer every
    request alike, whatever the browser does. *)
Theorem preset_handler_is_options_handler
    (world : Handler.Browser) (name : Config.PresetName)
    (request : Handler.Request) (s : Handler.State) :
  Handler.handler world (Config.PresetNamed name) request s
  = Handler.handler world
      (Config.OptionsObject (Config.presetFields (Config.presets name)))
      request s.
Proof.
  unfold Handler.handler, Config.resolveConfig.
  rewrite resolveOptions_preset. reflexivity.
Qed.

(** ** Cookie Translator, further *)

Section CookieFacts.
Import Cookies CookieSpec.

Lemma includes_trimStart c s :
  Js.includes c s = false -> Js.includes c (Js.trimStart s) = false.
Proof.
  induction s as [|d s IH]; simpl; [done|].
  intros [Hd Hs]%orb_false_iff. destruct (Js.isWhiteSpace d); [by apply IH|].
  simpl. by rewrite Hd, Hs.
Qed.

Lemma includes_trimEnd c s :
  Js.includes c s = false -> Js.includes c (Js.trimEnd s) = false.
Proof.
  induction s as [|d s IH]; simpl; [done|].
  intros [Hd Hs]%orb_false_iff. specialize (IH Hs).
  destruct (Js.trimEnd s) eqn:E.
  - destruct (Js.isWhiteSpace d); simpl; [done|]. by rewrite Hd.
  - simpl in *. by rewrite Hd, IH.
Qed.

Lemma includes_trim c s : Js.includes c s = false -> Js.includes c (Js.trim s) = false.
Proof. intros H. by apply includes_trimEnd, includes_trimStart. Qed.

Lemma includes_beforeFirst c s : Js.includes c (beforeFirst c s) = false.
Proof.
  induction s as [|d s IH]; simpl; [done|].
  destruct (Ascii.eqb d c) eqn:E; simpl; [done|]. by rewrite E, IH.
Qed.

Lemma includes_beforeFirst_other c d s :
  Js.includes d s = false -> Js.includes d (beforeFirst c s) = false.
Proof.
  induction s as [|e s IH]; simpl; [done|].
  intros [He Hs]%orb_false_iff. destruct (Ascii.eqb e c); simpl; [done|].
  by rewrite He, IH.
Qed.

Lemma includes_afterFirst c d s :
  Js.includes d s = false -> Js.includes d (afterFirst c s) = false.
Proof.
  induction s as [|e s IH]; simpl; [done|].
  intros [He Hs]%orb_false_iff. destruct (Ascii.eqb e c); [done|]. by apply IH.
Qed.

(** No piece of a split holds the separator, nor any code unit that the
    whole string does not hold. *)
Lemma includes_split_piece c s :
  Forall (fun p => Js.includes c p = false) (Js.split c s).
Proof.
  induction s as [|d s IH]; simpl; [by repeat constructor|].
  destruct (Ascii.eqb d c) eqn:E; [by constructor|].
  destruct (Js.split c s) as [|p ps]; [by repeat constructor; simpl; rewrite E|].
  apply Forall_cons in IH as [Hp Hps]. constructor; [|done].
  simpl. by rewrite E, Hp.
Qed.

Lemma includes_split_other c d s :
  Js.includes d s = false ->
  Forall (fun p => Js.includes d p = false) (Js.split c s).
Proof.
  induction s as [|e s IH]; simpl; [by repeat constructor|].
  intros [He Hs]%orb_false_iff. specialize (IH Hs).
  destruct (Ascii.eqb e c); [by constructor|].
  destruct (Js.split c s) as [|p ps]; [by repeat constructor; simpl; rewrite He|].
  apply Forall_cons in IH as [Hp Hps]. constructor; [|done].
  simpl. by rewrite He, Hp.
Qed.

Lemma trimEnd_idempotent s : Js.trimEnd (Js.trimEnd s) = Js.trimEnd s.
Proof.
  induction s as [|d s IH]; simpl; [done|].
  destruct (Js.trimEnd s) as [|e k] eqn:E.
  - destruct (Js.isWhiteSpace d) eqn:W; simpl; [done|]. by rewrite W.
  - simpl in *. by rewrite IH.
Qed.

(** A string without white space at its end has none at the end of what
    follows its first [c]. *)
Lemma trimEnd_afterFirst c s :
  Js.trimEnd s = s -> Js.trimEnd (afterFirst c s) = afterFirst c s.
Proof.
  induction s as [|d s IH]; simpl; [done|].
  intros H.
  assert (Js.trimEnd s = s) as Hs.
  { destruct (Js.trimEnd s) as [|e k] eqn:E; [|by simplify_eq].
    destruct (Js.isWhiteSpace d); by simplify_eq. }
  destruct (Ascii.eqb d c); [done|]. by apply IH.
Qed.

Lemma trimStart_head s :
  Js.trimStart s = s ->
  match s with
  | EmptyString => True
  | String d _ => Js.isWhiteSpace d = false
  end.
Proof.
  destruct s as [|d s]; simpl; [done|].
  destruct (Js.isWhiteSpace d) eqn:W; [|done]. intros H.
  assert (String.length (Js.trimStart s) <= String.length s) as Hlen.
  { clear. induction s as [|e s IH]; simpl; [done|].
    destruct (Js.isWhiteSpace e); simpl; lia. }
  rewrite H in Hlen. simpl in Hlen. lia.
Qed.

Lemma trimEnd_head s :
  match Js.trimEnd s, s with
  | String d _, String e _ => d = e
  | _, _ => True
  end.
Proof.
  destruct s as [|e s]; simpl; [done|].
  destruct (Js.trimEnd s); [by destruct (Js.isWhiteSpace e)|done].
Qed.

Lemma trimEnd_nonblank s :
  match s with
  | String d _ => Js.isWhiteSpace d = false -> Js.trimEnd s <> ""
  | EmptyString => True
  end.
Proof.
  destruct s as [|d s]; simpl; [done|]. intros W.
  destruct (Js.trimEnd s); [by rewrite W|done].
Qed.

(** Trimming twice is trimming once. *)
Lemma trim_idempotent s : Js.trim (Js.trim s) = Js.trim s.
Proof.
  unfold Js.trim.
  assert (Js.trimStart (Js.trimStart s) = Js.trimStart s) as Hstart.
  { induction s as [|d s IH]; simpl; [done|].
    destruct (Js.isWhiteSpace d) eqn:W; [done|]. simpl. by rewrite W. }
  pose proof (trimStart_head _ Hstart) as Hhead.
  pose proof (trimEnd_head (Js.trimStart s)) as Hsame.
  pose proof (trimEnd_nonblank (Js.trimStart s)) as Hnb.
  destruct (Js.trimStart s) as [|d t] eqn:E; [done|].
  destruct (Js.trimEnd (String d t)) as [|e k] eqn:E'; [by destruct (Hnb Hhead)|].
  subst e. cbn [Js.trimStart]. rewrite Hhead, <- E'. apply trimEnd_idempotent.
Qed.

Lemma Forall2_right {A B} (P : A -> B -> Prop) (Q : A -> Prop) xs ys :
  Forall2 P xs ys -> Forall Q xs ->
  Forall (fun y => exists x, Q x /\ P x y) ys.
Proof.
  induction 1 as [|x y xs ys Hxy _ IH]; [constructor|].
  intros [Hx Hxs]%Forall_cons. constructor; eauto.
Qed.

Lemma length_filterNonNull {A} (xs : list (option A)) :
  length (Js.filterNonNull xs) <= length xs.
Proof. induction xs as [|[x|] xs IH]; simpl; lia. Qed.

End CookieFacts.

(** X5.  Whatever the header, a record of [parseCookies] has a name that is
    not empty, has no white space around it and holds neither [=] nor [;],
    and a value that holds no [;] and does not end in white space. *)
Theorem parseCookies_records_are_clean
    (cookieHeader domain : string) (isSecure : bool) (baseUrl : string) :
  Forall (fun r => CookieHeader.writable (Cookies.name r, Cookies.value r))
    (Cookies.parseCookies cookieHeader domain isSecure baseUrl).
Proof.
  destruct (filterNonNull_parse domain isSecure baseUrl
              (Js.split ";" cookieHeader)) as [Hpairs _].
  fold (Cookies.parseCookies cookieHeader domain isSecure baseUrl) in Hpairs.
  eapply Forall2_right with
    (Q := fun pair => Js.includes ";" pair = false
                      /\ CookieSpec.validPair pair = true) in Hpairs.
  - eapply Forall_impl; [exact Hpairs|].
    intros r (pair & [Hsemi Hvalid] & Hname & Hvalue).
    unfold CookieHeader.writable. simpl. rewrite Hname, Hvalue.
    unfold CookieSpec.validPair, CookieSpec.pairName, CookieSpec.pairValue in *.
    apply andb_true_iff in Hvalid as [_ Hne%truthy_true].
    split_and!.
    + done.
    + apply trim_idempotent.
    + apply includes_trim, includes_beforeFirst.
    + by apply includes_trim, includes_beforeFirst_other, includes_trim.
    + by apply includes_afterFirst, includes_trim.
    + apply trimEnd_afterFirst. unfold Js.trim. apply trimEnd_idempotent.
  - apply Forall_forall. intros pair Hin.
    apply list_elem_of_In, filter_In in Hin as [Hin Hvalid]. split; [|done].
    pose proof (includes_split_piece ";" cookieHeader) as Hall.
    eapply Forall_forall in Hall; [exact Hall|by apply list_elem_of_In].
Qed.

(** X6.  [parseCookies] gives at most one record for each piece of the
    header between semicolons, and none at all for a header without [=],
    the empty header among them. *)
Theorem parseCookies_is_bounded
    (cookieHeader domain : string) (isSecure : bool) (baseUrl : string) :
  length (Cookies.parseCookies cookieHeader domain isSecure baseUrl)
    <= length (Js.split ";" cookieHeader)
  /\ (Js.includes "=" cookieHeader = false ->
      Cookies.parseCookies cookieHeader domain isSecure baseUrl = []).
Proof.
  unfold Cookies.parseCookies. split.
  - etrans; [apply length_filterNonNull|]. by rewrite length_map.
  - intros Hno.
    pose proof (includes_split_other ";" "=" cookieHeader Hno) as Hall.
    induction Hall as [|pair pairs Hpair _ IH]; [done|]. simpl.
    rewrite parseCookie_invalid; [done|].
    unfold CookieSpec.validPair. by rewrite includes_trim.
Qed.

Lemma parseCookies_is_bounded_witness :
  Cookies.parseCookies "theme; ; dark" "docs.test" true "https://docs.test" = [].
Proof.
  apply (parseCookies_is_bounded "theme; ; dark" "docs.test" true "https://docs.test").
  reflexivity.
Defined.

Section CookieReadBack.
Import Cookies CookieSpec.

Lemma split_no_separator c s : Js.includes c s = false -> Js.split c s = [ s ].
Proof.
  induction s as [|d s IH]; simpl; [done|].
  intros [-> Hs]%orb_false_iff. by rewrite IH.
Qed.

Lemma split_app c p rest :
  Js.includes c p = false ->
  Js.split c (p +:+ String c rest) = p :: Js.split c rest.
Proof.
  induction p as [|d p IH]; simpl.
  - by rewrite Ascii.eqb_refl.
  - intros [-> Hp]%orb_false_iff. by rewrite IH.
Qed.

Lemma split_join_semicolons pieces :
  Forall (fun p => Js.includes ";" p = false) pieces ->
  Js.split ";" (Js.join "; " pieces)
  = match pieces with
    | [] => [ "" ]
    | p :: more => p :: map (String " ") more
    end.
Proof.
  induction 1 as [|p more Hp Hmore IH]; [done|].
  destruct more as [|q more]; [by apply split_no_separator|].
  rewrite join_cons.
  change (p +:+ "; " +:+ Js.join "; " (q :: more))
    with (p +:+ String ";" (String " " (Js.join "; " (q :: more)))).
  rewrite split_app by done. f_equal.
  change (Js.split ";" (String " " (Js.join "; " (q :: more))))
    with (match Js.split ";" (Js.join "; " (q :: more)) with
          | [] => [ " " ]
          | piece :: rest => String " " piece :: rest
          end).
  by rewrite IH.
Qed.

Lemma includes_app_false c a b :
  Js.includes c a = false -> Js.includes c b = false ->
  Js.includes c (a +:+ b) = false.
Proof.
  induction a as [|d a IH]; simpl; [done|].
  intros [-> Ha]%orb_false_iff Hb. by apply IH.
Qed.

Lemma trimEnd_app a b :
  Js.trimEnd b = b -> b <> "" -> Js.trimEnd (a +:+ b) = a +:+ b.
Proof.
  intros Hb Hne. induction a as [|d a IH]; [exact Hb|].
  change (String d a +:+ b) with (String d (a +:+ b)).
  cbn [Js.trimEnd]. rewrite IH. destruct (a +:+ b) eqn:E; [|reflexivity].
  by destruct a, b.
Qed.

(** A pair written as [name=value] is its own trimmed form, with or
    without the space that follows a semicolon. *)
Lemma trim_written nv :
  CookieHeader.writable nv ->
  Js.trim (nv.1 +:+ "=" +:+ nv.2) = nv.1 +:+ "=" +:+ nv.2
  /\ Js.trim (String " " (nv.1 +:+ "=" +:+ nv.2)) = nv.1 +:+ "=" +:+ nv.2.
Proof.
  destruct nv as [n v]. unfold CookieHeader.writable. simpl.
  intros (Hne & Htrim & _ & _ & _ & Hv).
  assert (Js.trimStart n = n) as Hstart.
  { unfold Js.trim in Htrim.
    assert (String.length (Js.trimEnd (Js.trimStart n))
            <= String.length (Js.trimStart n)) as H1.
    { generalize (Js.trimStart n). clear. intros s.
      induction s as [|d s IH]; simpl; [done|].
      destruct (Js.trimEnd s); [destruct (Js.isWhiteSpace d)|]; simpl in *; lia. }
    rewrite Htrim in H1. clear -H1.
    induction n as [|d n IH]; simpl in *; [done|].
    destruct (Js.isWhiteSpace d); [|done].
    assert (String.length (Js.trimStart n) <= String.length n) as H2.
    { clear. induction n as [|e n IH]; simpl; [done|].
      destruct (Js.isWhiteSpace e); simpl; lia. }
    lia. }
  assert (Js.trimStart (n +:+ "=" +:+ v) = n +:+ "=" +:+ v) as Hs.
  { pose proof (trimStart_head n Hstart) as Hhead.
    destruct n as [|d n]; [done|]. simpl. by rewrite Hhead. }
  assert (Js.trimEnd (n +:+ "=" +:+ v) = n +:+ "=" +:+ v) as He.
  { apply trimEnd_app; [|done].
    change ("=" +:+ v) with (String "=" v). simpl. rewrite Hv. by destruct v. }
  unfold Js.trim. simpl. by rewrite Hs, He.
Qed.

Lemma parseCookie_written domain isSecure baseUrl nv piece :
  CookieHeader.writable nv ->
  Js.trim piece = nv.1 +:+ "=" +:+ nv.2 ->
  exists r, parseCookie domain isSecure baseUrl piece = Some r
            /\ (name r, value r) = nv.
Proof.
  destruct nv as [n v]. intros Hw Htrim.
  pose proof Hw as (Hne & Hn & Heq & _). simpl in *.
  assert (validPair piece = true) as Hvalid.
  { unfold validPair, pairName. rewrite Htrim.
    change (n +:+ "=" +:+ v) with (n +:+ String "=" v).
    rewrite includes_app, beforeFirst_app, Hn by done. by apply truthy_true. }
  destruct (parseCookie_valid domain isSecure baseUrl piece Hvalid)
    as (r & Hr & Hname & Hvalue & _).
  exists r. split; [done|].
  unfold pairName, pairValue in *. rewrite Htrim in *.
  change (n +:+ "=" +:+ v) with (n +:+ String "=" v) in *.
  rewrite beforeFirst_app in Hname by done.
  rewrite afterFirst_app in Hvalue by done.
  by rewrite Hname, Hvalue, Hn.
Qed.

Lemma parse_written_pieces domain isSecure baseUrl pairs pieces :
  Forall CookieHeader.writable pairs ->
  Forall2 (fun nv piece => Js.trim piece = nv.1 +:+ "=" +:+ nv.2) pairs pieces ->
  map (fun r => (name r, value r))
    (Js.filterNonNull (map (parseCookie domain isSecure baseUrl) pieces))
  = pairs.
Proof.
  intros Hw H2. induction H2 as [|nv piece pairs pieces Hp _ IH]; [done|].
  apply Forall_cons in Hw as [Hnv Hw].
  destruct (parseCookie_written domain isSecure baseUrl nv piece Hnv Hp)
    as (r & Hr & Hnv'). simpl. rewrite Hr. simpl. by rewrite Hnv', IH.
Qed.

End CookieReadBack.

(** X7.  A header written in the usual form, [name=value] pairs joined by a
    semicolon and a space, is read back in full: [parseCookies] gives one
    record for each pair, in order, with exactly the name and the value
    written, provided each name is not empty, has no white space around it
    and holds neither [=] nor [;], and each value holds no [;] and does not
    end in white space. *)
Theorem parseCookies_reads_back
    (pairs : list (string * string)) (domain : string) (isSecure : bool)
    (baseUrl : string) :
  Forall CookieHeader.writable pairs ->
  map (fun r => (Cookies.name r, Cookies.value r))
    (Cookies.parseCookies (CookieHeader.write pairs) domain isSecure baseUrl)
  = pairs.
Proof.
  intros Hw. unfold Cookies.parseCookies, CookieHeader.write.
  rewrite split_join_semicolons.
  - destruct pairs as [|nv pairs]; [done|].
    apply parse_written_pieces; [done|]. simpl.
    apply Forall_cons in Hw as [Hnv Hw].
    constructor; [by apply trim_written|].
    apply Forall2_fmap_r, Forall2_fmap_r, Forall_Forall2_diag.
    eapply Forall_impl; [exact Hw|]. intros nv' Hnv'. by apply trim_written.
  - apply Forall_map. eapply Forall_impl; [exact Hw|].
    intros [n v] (_ & _ & _ & Hn & Hv & _). simpl in *.
    apply includes_app_false; [done|]. by apply includes_app_false.
Qed.

Lemma parseCookies_reads_back_witness :
  map (fun r => (Cookies.name r, Cookies.value r))
    (Cookies.parseCookies
       (CookieHeader.write [ ("sid", "a=b"); ("__Host-t", ""); ("theme", " dark") ])
       "docs.test" true "https://docs.test")
  = [ ("sid", "a=b"); ("__Host-t", ""); ("theme", " dark") ].
Proof.
  apply (parseCookies_reads_back
           [ ("sid", "a=b"); ("__Host-t", ""); ("theme", " dark") ]).
  repeat constructor; simpl; discriminate.
Defined.

(** ** Accordion Expander, further *)

Section FullRounds.
Context {Page Handle : Type}.
Variable querySelectorAll : string -> Page -> option (list Handle).
Variable click : Handle -> Page -> Page.
Variable settle : nat -> Page -> Page.
Variable sel : string.

(** The loop when each of its rounds finds something. *)
Lemma loop_full budget page :
  (forall k, k < budget ->
     exists btn more,
       querySelectorAll sel
         (Accordion.pageAtRound Page Handle querySelectorAll click settle sel page k)
       = Some (btn :: more)) ->
  let run := Accordion.loop Page Handle querySelectorAll click settle budget sel page in
  Accordion.threw _ _ run = false
  /\ length (Accordion.rounds _ _ run) = budget
  /\ Forall (fun clicked => clicked <> []) (Accordion.rounds _ _ run)
  /\ Accordion.finalPage _ _ run
     = Accordion.pageAtRound Page Handle querySelectorAll click settle sel page budget.
Proof.
  revert page. induction budget as [|budget IH]; intros page Hfull; [done|].
  destruct (Hfull 0 ltac:(lia)) as (btn & more & Hq).
  cbn [Accordion.pageAtRound] in Hq. cbn [Accordion.loop]. rewrite Hq.
  cbn [length Nat.eqb].
  destruct (IH (settle 400 (Accordion.clickAll Page Handle click (btn :: more) page)))
    as (Ht & Hlen & Hall & Hpage).
  { intros k Hk. destruct (Hfull (S k) ltac:(lia)) as (btn' & more' & Hq').
    exists btn', more'. rewrite <- Hq'.
    rewrite (pageAtRound_shift querySelectorAll click settle sel page k), Hq. done. }
  cbn [Accordion.threw Accordion.rounds Accordion.finalPage length].
  split_and!; [done|by rewrite Hlen|by constructor|].
  rewrite Hpage, (pageAtRound_shift querySelectorAll click settle sel page budget), Hq.
  done.
Qed.

End FullRounds.

(** X8.  When each of the five rounds finds something to click,
    [expandAccordions] gives up after the fifth and returns without
    raising, whatever is still closed on the page: it has clicked in five
    rounds, and it leaves the page as the fifth round left it. *)
Theorem expandAccordions_gives_up_quietly {Page Handle : Type}
    (querySelectorAll : string -> Page -> option (list Handle))
    (click : Handle -> Page -> Page) (settle : nat -> Page -> Page)
    (page : Page) (selectors : list string) :
  let sel := Js.join ", " selectors in
  let run := Accordion.expandAccordions Page Handle querySelectorAll click settle
               page selectors in
  (forall k, k < 5 ->
     exists btn more,
       querySelectorAll sel
         (Accordion.pageAtRound Page Handle querySelectorAll click settle sel page k)
       = Some (btn :: more)) ->
  Accordion.threw _ _ run = false
  /\ length (Accordion.rounds _ _ run) = 5
  /\ Forall (fun clicked => clicked <> []) (Accordion.rounds _ _ run)
  /\ Accordion.finalPage _ _ run
     = settle 500
         (Accordion.pageAtRound Page Handle querySelectorAll click settle sel page 5).
Proof.
  intros sel run Hfull. subst run. unfold Accordion.expandAccordions. fold sel.
  destruct (loop_full querySelectorAll click settle sel 5 page Hfull)
    as (Ht & Hlen & Hall & Hpage).
  rewrite Ht. cbn [Accordion.threw Accordion.rounds Accordion.finalPage].
  by rewrite Hpage.
Qed.

Lemma expandAccordions_gives_up_quietly_witness :
  Accordion.threw _ _ (NestedDisclosures.expand 7 [ "button.closed" ]) = false
  /\ length (Accordion.rounds _ _ (NestedDisclosures.expand 7 [ "button.closed" ])) = 5
  /\ Accordion.finalPage _ _ (NestedDisclosures.expand 7 [ "button.closed" ]) = 2.
Proof.
  destruct (expandAccordions_gives_up_quietly NestedDisclosures.querySelectorAll
              NestedDisclosures.click NestedDisclosures.settle 7
              [ "button.closed" ]) as (Ht & Hlen & _ & Hpage).
  - intros k Hk. do 5 (destruct k as [|k]; [by exists tt, []|]). lia.
  - split_and!; [exact Ht|exact Hlen|exact Hpage].
Defined.

(** ** Lazy-Content Forcer, further *)

Section LazyFacts.
Import LazyImages.

Lemma all_pending promises :
  Forall (fun p => forall reason, p <> Rejected reason) promises ->
  (all promises = Pending <-> Exists (fun p => p = Pending) promises).
Proof.
  induction 1 as [|p promises Hp Hall IH]; simpl.
  { split; [done|]. by intros H%Exists_nil. }
  pose proof (all_not_rejected promises Hall) as Hnr.
  destruct p as [|r|]; [|by destruct (Hp r)|].
  - rewrite IH. split; [by right|].
    intros [H|H]%Exists_cons; done.
  - split; [by left|]. intros _.
    destruct (all promises) as [|r|]; [done|by destruct (Hnr r)|done].
Qed.

End LazyFacts.

(** X9.  The forced reload of the images stays pending exactly when some
    image that is not already loaded ([complete] with a natural height
    above zero) fires neither [load] nor [error]; otherwise it is
    fulfilled.  An image that is already loaded is not waited for. *)
Theorem reloadImages_hangs_on_silent_images (images : list LazyImages.Img) :
  let loaded img :=
    LazyImages.complete img && (0 <? LazyImages.naturalHeight img)%N in
  (LazyImages.reloadImages images = LazyImages.Pending <->
   Exists (fun img => loaded img = false
                      /\ LazyImages.fires img = LazyImages.Nothing) images)
  /\ (LazyImages.reloadImages images = LazyImages.Fulfilled <->
      Forall (fun img => loaded img = true
                         \/ LazyImages.fires img <> LazyImages.Nothing) images).
Proof.
  intros loaded.
  assert (forall img, LazyImages.waitFor (LazyImages.removeLoading img)
                      = LazyImages.Pending
                      <-> loaded img = false
                          /\ LazyImages.fires img = LazyImages.Nothing) as Hwait.
  { intros img. unfold LazyImages.waitFor, loaded. simpl.
    destruct (_ && _); [by split; [|intros []]|].
    destruct (LazyImages.fires img); by split; [|intros []]. }
  assert (LazyImages.reloadImages images = LazyImages.Pending <->
          Exists (fun img => loaded img = false
                             /\ LazyImages.fires img = LazyImages.Nothing) images)
    as Hpending.
  { unfold LazyImages.reloadImages. rewrite all_pending.
    - rewrite map_map, Exists_fmap.
      split; intros H; eapply Exists_impl; try exact H; intros img; apply Hwait.
    - rewrite map_map. apply Forall_map, Forall_forall.
      intros img _ reason. apply waitFor_not_rejected. }
  split; [exact Hpending|].
  pose proof (all_not_rejected
                (map LazyImages.waitFor (map LazyImages.removeLoading images)))
    as Hnr.
  fold (LazyImages.reloadImages images) in Hnr.
  assert (LazyImages.reloadImages images = LazyImages.Fulfilled <->
          LazyImages.reloadImages images <> LazyImages.Pending) as ->.
  { destruct (LazyImages.reloadImages images) as [|r|] eqn:E; [done| |done].
    exfalso. eapply Hnr; [|reflexivity].
    rewrite map_map. apply Forall_map, Forall_forall.
    intros img _ reason. apply waitFor_not_rejected. }
  rewrite Hpending, <- Forall_Exists_neg. apply Forall_iff. intros img.
  destruct (loaded img), (LazyImages.fires img); intuition congruence.
Qed.

Section ScrollFacts.
Import LazyScroll.

(** The timer resolves at the first firing whose total reaches the height
    read at that firing plus 500. *)
Lemma timer_spec scrollHeightAt fuel k0 total k :
  timer fuel scrollHeightAt k0 total = Some k <->
  (k0 <= k < k0 + fuel)%nat
  /\ (scrollHeightAt k + 500 <= total + 200 * N.of_nat (S k - k0))%N
  /\ (forall j, (k0 <= j < k)%nat ->
        (total + 200 * N.of_nat (S j - k0) < scrollHeightAt j + 500)%N).
Proof.
  revert k0 total. induction fuel as [|fuel IH]; intros k0 total; simpl.
  { split; [done|]. lia. }
  destruct (N.leb_spec (scrollHeightAt k0 + 500) (total + 200)) as [Hle|Hgt].
  - split.
    + intros [= <-]. split; [lia|]. split; [|lia].
      replace (S k0 - k0)%nat with 1%nat by lia. lia.
    + intros (Hk & Hreach & Hfirst).
      destruct (decide (k = k0)) as [->|Hne]; [done|].
      specialize (Hfirst k0 ltac:(lia)).
      replace (S k0 - k0)%nat with 1%nat in Hfirst by lia. lia.
  - rewrite IH. split.
    + intros (Hk & Hreach & Hfirst). split; [lia|]. split.
      * replace (S k - k0)%nat with (S (S k - S k0)) by lia. lia.
      * intros j Hj. destruct (decide (j = k0)) as [->|Hne].
        { replace (S k0 - k0)%nat with 1%nat by lia. lia. }
        specialize (Hfirst j ltac:(lia)).
        replace (S j - k0)%nat with (S (S j - S k0)) by lia. lia.
    + intros (Hk & Hreach & Hfirst).
      assert (k <> k0) as Hne.
      { intros ->. replace (S k0 - k0)%nat with 1%nat in Hreach by lia. lia. }
      split; [lia|]. split.
      * replace (S k - k0)%nat with (S (S k - S k0)) in Hreach by lia. lia.
      * intros j Hj. specialize (Hfirst j ltac:(lia)).
        replace (S j - k0)%nat with (S (S j - S k0)) in Hfirst by lia. lia.
Qed.

End ScrollFacts.

(** X10.  The synthetic scroll resolves at the first firing [k] of its timer
    at which [200 * k] has reached the scroll height of the body read at
    that firing plus 500.  So it never resolves on a page whose height stays
    ahead of the scroll, and on a page that is never higher than [limit] it
    resolves within [(limit + 699) / 200] firings. *)
Theorem scroll_resolves_at_first_reach
    (scrollHeightAt : nat -> N) (fuel : nat) :
  (forall k,
     LazyScroll.scroll fuel scrollHeightAt = Some k <->
     (1 <= k <= fuel)%nat
     /\ (scrollHeightAt k + 500 <= 200 * N.of_nat k)%N
     /\ (forall j, (1 <= j < k)%nat ->
           (200 * N.of_nat j < scrollHeightAt j + 500)%N))
  /\ ((forall j, (200 * N.of_nat j < scrollHeightAt j + 500)%N) ->
      LazyScroll.scroll fuel scrollHeightAt = None)
  /\ (forall limit,
        (forall j, (scrollHeightAt j <= limit)%N) ->
        (N.to_nat ((limit + 699) / 200) <= fuel)%nat ->
        exists k, LazyScroll.scroll fuel scrollHeightAt = Some k
                  /\ (k <= N.to_nat ((limit + 699) / 200))%nat).
Proof.
  assert (forall k,
     LazyScroll.scroll fuel scrollHeightAt = Some k <->
     (1 <= k <= fuel)%nat
     /\ (scrollHeightAt k + 500 <= 200 * N.of_nat k)%N
     /\ (forall j, (1 <= j < k)%nat ->
           (200 * N.of_nat j < scrollHeightAt j + 500)%N)) as Hspec.
  { intros k. unfold LazyScroll.scroll. rewrite timer_spec.
    replace (S k - 1)%nat with k by lia.
    split; intros (Hk & Hreach & Hfirst); (split; [lia|]; split; [lia|]);
      intros j Hj; specialize (Hfirst j Hj);
      replace (S j - 1)%nat with j in * by lia; lia. }
  split; [exact Hspec|]. split.
  - intros Hahead.
    destruct (LazyScroll.scroll fuel scrollHeightAt) as [k|] eqn:E; [|done].
    destruct (proj1 (Hspec k) eq_refl) as (_ & Hreach & _).
    specialize (Hahead k). lia.
  - intros limit Hlimit Hfuel.
    set (bound := N.to_nat ((limit + 699) / 200)) in *.
    assert (limit + 500 <= 200 * N.of_nat bound)%N as Hbound.
    { subst bound. rewrite N2Nat.id.
      pose proof (N.div_mod (limit + 699) 200 ltac:(lia)) as Hdm.
      pose proof (N.mod_lt (limit + 699) 200 ltac:(lia)) as Hm. lia. }
    assert (exists k, (1 <= k <= bound)%nat
                      /\ (scrollHeightAt k + 500 <= 200 * N.of_nat k)%N
                      /\ (forall j, (1 <= j < k)%nat ->
                            (200 * N.of_nat j < scrollHeightAt j + 500)%N))
      as (k & Hk & Hreach & Hfirst).
    { assert (1 <= bound)%nat as Hpos.
      { destruct bound; [|lia]. simpl in Hbound. lia. }
      clear Hfuel. clearbody bound.
      assert (forall n, (n <= bound)%nat ->
                (exists k, (1 <= k <= n)%nat
                           /\ (scrollHeightAt k + 500 <= 200 * N.of_nat k)%N
                           /\ (forall j, (1 <= j < k)%nat ->
                                 (200 * N.of_nat j < scrollHeightAt j + 500)%N))
                \/ (forall j, (1 <= j <= n)%nat ->
                      (200 * N.of_nat j < scrollHeightAt j + 500)%N)) as Hsearch.
      { induction n as [|n IHn]; intros Hn; [right; lia|].
        destruct (IHn ltac:(lia)) as [(k & Hk & Hr & Hf)|Hnone].
        - left. exists k. split; [lia|]. by split.
        - destruct (decide (scrollHeightAt (S n) + 500 <= 200 * N.of_nat (S n))%N)
            as [Hr|Hr].
          + left. exists (S n). split; [lia|]. split; [done|].
            intros j Hj. apply Hnone. lia.
          + right. intros j Hj. destruct (decide (j = S n)) as [->|]; [lia|].
            apply Hnone. lia. }
      destruct (Hsearch bound ltac:(lia)) as [Hfound|Hnone]; [done|].
      specialize (Hnone bound ltac:(lia)). specialize (Hlimit bound). lia. }
    exists k. split; [|lia]. apply Hspec. split; [lia|]. by split.
Qed.

Lemma scroll_resolves_at_first_reach_witness :
  exists k, LazyScroll.scroll 20 (fun _ => 2400%N) = Some k
            /\ (k <= N.to_nat ((2400 + 699) / 200))%nat.
Proof.
  apply (scroll_resolves_at_first_reach (fun _ => 2400%N) 20).
  - intros j. lia.
  - vm_compute. lia.
Defined.

(** ** DOM Sanitizer, further *)

Section MarkupFacts.
Import Dom Sanitizer Markup.

Lemma same_refl d : same d d.
Proof. by split. Qed.

Lemma Forall2_same_refl anc : Forall2 same anc anc.
Proof. induction anc; constructor; auto using same_refl. Qed.

Lemma matchesCompound_same c d d' :
  same d d' -> matchesCompound c d = matchesCompound c d'.
Proof.
  intros [Ht Ha]. unfold matchesCompound.
  induction c as [|s c IH]; simpl; [done|].
  by rewrite IH, (matchesSimple_same_markup s d d').
Qed.

Lemma matchesContext_same ctx anc anc' :
  Forall2 same anc anc' -> matchesContext ctx anc = matchesContext ctx anc'.
Proof.
  revert anc anc'. induction ctx as [|[[|] c] ctx IH]; intros anc anc' Hanc;
    simpl; [done| |].
  - destruct Hanc as [|a a' anc anc' Ha Hanc]; [done|].
    by rewrite (matchesCompound_same c a a'), (IH anc anc').
  - induction Hanc as [|a a' anc anc' Ha Hanc IHanc]; [done|].
    by rewrite (matchesCompound_same c a a'), (IH anc anc'), IHanc.
Qed.

(** A selector sees the markup only. *)
Lemma selects_positional sel : positional (selects sel).
Proof.
  intros l l' Hd Hanc. unfold selects, matches.
  induction (alternative sel :: alternatives sel) as [|cx cxs IH]; simpl; [done|].
  rewrite IH. f_equal. unfold matchesComplex.
  by rewrite (matchesCompound_same _ _ _ Hd), (matchesContext_same _ _ _ Hanc).
Qed.

(** A pruning leaves nothing of what it prunes, and adds nothing of what
    was not there. *)
Lemma prune_clear (P P' : Located -> bool) n anc :
  positional P' ->
  (Forall (fun l => P' l = false) (elementsOf anc n)
   \/ forall l, P l = false -> P' l = false) ->
  Forall (fun l => P' l = false) (descendants anc (prune P anc n)).
Proof.
  intros Hpos. revert anc.
  induction n as [t|d kids IH] using Node_ind; intros anc Hwhy;
    unfold descendants; simpl; [constructor|].
  destruct (P _) eqn:HP; simpl; [constructor|].
  rewrite app_nil_r. constructor.
  - rewrite (Hpos _ {| ancestors := anc; element := d; children := kids |});
      [|apply same_refl|apply Forall2_same_refl].
    destruct Hwhy as [Hall|Himp]; [|by apply Himp].
    by apply Forall_cons in Hall as [Hd _].
  - do 2 apply Forall_flat_map.
    assert (Forall (fun k => Forall (fun l => P' l = false)
                               (elementsOf (d :: anc) k)
                             \/ forall l, P l = false -> P' l = false) kids)
      as Hkids.
    { destruct Hwhy as [Hall|Himp]; [|apply Forall_forall; auto].
      apply Forall_cons in Hall as [_ Hall]. apply Forall_flat_map_inv in Hall.
      eapply Forall_impl; [exact Hall|]. auto. }
    clear Hwhy HP. induction IH as [|k kids Hk _ IHkids]; [constructor|].
    apply Forall_cons in Hkids as [Hk' Hkids]. constructor; [|by apply IHkids].
    apply Forall_flat_map_inv. by apply Hk.
Qed.

Lemma pruneAll_clear (P P' : Located -> bool) anc kids :
  positional P' ->
  (clearOf P' anc kids \/ forall l, P l = false -> P' l = false) ->
  clearOf P' anc (pruneAll P anc kids).
Proof.
  intros Hpos Hwhy. unfold clearOf, pruneAll, descendants in *.
  do 2 apply Forall_flat_map. apply Forall_forall. intros k Hk.
  apply Forall_flat_map_inv.
  apply (prune_clear P P' k anc Hpos).
  destruct Hwhy as [Hall|Himp]; [left|by right].
  apply Forall_flat_map_inv in Hall. by eapply Forall_forall in Hall.
Qed.

(** A restyling that keeps the markup keeps a subtree clear. *)
Lemma restyle_clear (P : Located -> bool) f n anc anc' anc'' :
  positional P ->
  (forall a d, same (f a d) d) ->
  Forall2 same anc' anc ->
  Forall (fun l => P l = false) (elementsOf anc n) ->
  Forall (fun l => P l = false) (elementsOf anc' (restyle f anc'' n)).
Proof.
  intros Hpos Hf. revert anc anc' anc''.
  induction n as [t|d kids IH] using Node_ind; intros anc anc' anc'' Hanc;
    simpl; [constructor|].
  intros [Hd Hkids]%Forall_cons. constructor.
  - rewrite <- Hd. apply Hpos; simpl; [apply Hf|exact Hanc].
  - apply Forall_flat_map_inv in Hkids. clear Hd.
    rewrite flat_map_concat_map, map_map, <- flat_map_concat_map.
    apply Forall_flat_map.
    induction IH as [|k kids Hk _ IHkids]; [constructor|].
    apply Forall_cons in Hkids as [Hk' Hkids]. constructor; [|by apply IHkids].
    eapply Hk; [|exact Hk']. by constructor.
Qed.

Lemma forEachMatching_clear (P : Located -> bool) sel g anc anc' anc'' kids :
  positional P ->
  (forall d, same (g d) d) ->
  Forall2 same anc' anc ->
  clearOf P anc kids ->
  clearOf P anc' (forEachMatching sel g anc'' kids).
Proof.
  intros Hpos Hg Hanc Hall. unfold clearOf, forEachMatching, descendants in *.
  apply Forall_flat_map_inv in Hall.
  rewrite flat_map_concat_map, map_map, <- flat_map_concat_map.
  apply Forall_flat_map. eapply Forall_impl; [exact Hall|].
  intros k Hk. simpl. eapply restyle_clear; try done.
  intros a d. destruct (matches sel a d); [apply Hg|apply same_refl].
Qed.

Lemma same_setStyle p v d : same (setStyle p v d) d.
Proof. by split. Qed.

Lemma same_trans d1 d2 d3 : same d1 d2 -> same d2 d3 -> same d1 d3.
Proof. intros [? ?] [? ?]. split; congruence. Qed.

Lemma same_unpin d : same (unpin d) d.
Proof.
  unfold unpin. repeat match goal with |- context [ if ?b then _ else _ ] =>
    destruct b end; by split.
Qed.

Lemma elementsOf_clear_same (P : Located -> bool) n anc anc' :
  positional P ->
  Forall2 same anc' anc ->
  Forall (fun l => P l = false) (elementsOf anc n) ->
  Forall (fun l => P l = false) (elementsOf anc' n).
Proof.
  intros Hpos. revert anc anc'.
  induction n as [t|d kids IH] using Node_ind; intros anc anc' Hanc;
    simpl; [constructor|].
  intros [Hd Hkids]%Forall_cons. constructor.
  - rewrite <- Hd. apply Hpos; simpl; [apply same_refl|exact Hanc].
  - apply Forall_flat_map_inv in Hkids. clear Hd. apply Forall_flat_map.
    induction IH as [|k kids Hk _ IHkids]; [constructor|].
    apply Forall_cons in Hkids as [Hk' Hkids]. constructor; [|by apply IHkids].
    eapply Hk; [|exact Hk']. constructor; [apply same_refl|done].
Qed.

Lemma onFirstElementChild_clear (P : Located -> bool) g anc kids :
  positional P ->
  (forall d, same (g d) d) ->
  clearOf P anc kids -> clearOf P anc (onFirstElementChild g kids).
Proof.
  intros Hpos Hg. unfold clearOf, descendants.
  induction kids as [|[t|d below] kids IH]; simpl; [done|exact IH|].
  intros [Hd [Hb Hk]%Forall_app]%Forall_cons. constructor.
  - rewrite <- Hd. apply Hpos; simpl; [apply Hg|apply Forall2_same_refl].
  - apply Forall_app. split; [|exact Hk].
    apply Forall_flat_map_inv in Hb. apply Forall_flat_map.
    eapply Forall_impl; [exact Hb|]. intros k Hk'. simpl.
    eapply elementsOf_clear_same; [done| |exact Hk'].
    constructor; [apply Hg|apply Forall2_same_refl].
Qed.

End MarkupFacts.

Section CleanupFacts.
Import Dom Sanitizer Markup.

Lemma removeSelected_keeps_clear (P : Located -> bool) sels anc kids :
  positional P -> clearOf P anc kids ->
  clearOf P anc (removeSelected sels anc kids).
Proof.
  intros Hpos. unfold removeSelected. revert kids.
  induction sels as [|sel sels IH]; intros kids Hk; simpl; [done|].
  apply IH. apply pruneAll_clear; auto.
Qed.

Lemma removeSelected_clears sels anc kids sel :
  sel ∈ sels -> clearOf (selects sel) anc (removeSelected sels anc kids).
Proof.
  unfold removeSelected. revert kids.
  induction sels as [|sel' sels IH]; intros kids Hin; [by apply elem_of_nil in Hin|].
  simpl. apply elem_of_cons in Hin as [->|Hin]; [|by apply IH].
  apply (removeSelected_keeps_clear _ sels); [apply selects_positional|].
  apply pruneAll_clear; [apply selects_positional|by right].
Qed.

Lemma unfoldContents_clear (P : Located -> bool) sels anc kids :
  positional P -> clearOf P anc kids ->
  clearOf P anc (unfoldContents sels anc kids).
Proof.
  intros Hpos. unfold unfoldContents. revert kids.
  induction sels as [|sel sels IH]; intros kids Hk; simpl; [done|].
  apply IH. apply (forEachMatching_clear P sel unfoldContent anc anc anc);
    auto using Forall2_same_refl.
  intros d. by split.
Qed.

Lemma restyles_clear (P : Located -> bool) sels anc kids :
  positional P -> clearOf P anc kids -> clearOf P anc (restyles sels anc kids).
Proof.
  intros Hpos Hk. unfold restyles.
  apply onFirstElementChild_clear; [done|by split|].
  apply (forEachMatching_clear P _ _ anc anc anc);
    [done|by split|apply Forall2_same_refl|].
  apply (forEachMatching_clear P _ _ anc anc anc);
    [done|by split|apply Forall2_same_refl|].
  apply unfoldContents_clear; [done|].
  apply (forEachMatching_clear P _ _ anc anc anc);
    [done|by split|apply Forall2_same_refl|].
  apply (forEachMatching_clear P _ _ anc anc anc);
    [done|apply same_unpin|apply Forall2_same_refl|done].
Qed.

Lemma matches_disclosureState anc d :
  matches disclosureState anc d = hasDisclosureState d.
Proof.
  unfold matches, matchesComplex, hasDisclosureState. simpl.
  by rewrite !andb_true_r, orb_false_r.
Qed.

Lemma style_setStyle_same p v d : style (setStyle p v d) !! p = Some v.
Proof. unfold setStyle. cbn [style]. apply lookup_insert_eq. Qed.

Lemma style_setStyle_other p q v d :
  p <> q -> style (setStyle q v d) !! p = style d !! p.
Proof. intros Hne. unfold setStyle. cbn [style]. by apply lookup_insert_ne. Qed.

Ltac style_lookup :=
  repeat first [ rewrite style_setStyle_same
               | rewrite style_setStyle_other by discriminate ].

Lemma laidOpen_openUp d : laidOpen (openUp d).
Proof.
  unfold laidOpen, openUp, setOverflow. style_lookup.
  split_and!; try reflexivity. by left.
Qed.

Ltac laidOpen_kept :=
  intros (H1 & H2 & H3 & H4 & H5 & H6 & H7 & H8 & H9 & H10);
  unfold laidOpen, setOverflow; style_lookup;
  split_and!; try done; auto.

Lemma laidOpen_unfoldContent d : laidOpen d -> laidOpen (unfoldContent d).
Proof. unfold unfoldContent. laidOpen_kept. Qed.

Lemma laidOpen_stackColumn d : laidOpen d -> laidOpen (stackColumn d).
Proof. unfold stackColumn. laidOpen_kept. Qed.

Lemma laidOpen_blockItem d : laidOpen d -> laidOpen (blockItem d).
Proof. unfold blockItem. laidOpen_kept. Qed.

Lemma laidOpen_noTopSpace d : laidOpen d -> laidOpen (noTopSpace d).
Proof. unfold noTopSpace. laidOpen_kept. Qed.

Lemma restyles_lay_open sels anc anc' kids :
  everywhere (fun d => hasDisclosureState d = true -> laidOpen d) anc'
    (restyles sels anc kids).
Proof.
  set (Q := fun d => hasDisclosureState d = true -> laidOpen d).
  assert (forall g, (forall d, same (g d) d) ->
                    (forall d, laidOpen d -> laidOpen (g d)) ->
                    forall d, Q d -> Q (g d)) as Hkeep.
  { intros g Hsame Hg d Hd Hstate. apply Hg, Hd.
    destruct (Hsame d) as [_ Ha]. unfold hasDisclosureState in *. simpl in *.
    by rewrite <- Ha. }
  unfold restyles.
  apply onFirstElementChild_everywhere;
    [apply Hkeep; [by split|apply laidOpen_noTopSpace]|].
  apply (forEachMatching_everywhere Q Q);
    [apply Hkeep; [by split|apply laidOpen_blockItem]|done|].
  apply (forEachMatching_everywhere Q Q);
    [apply Hkeep; [by split|apply laidOpen_stackColumn]|done|].
  assert (forall kids', everywhere Q anc' kids' ->
            everywhere Q anc' (unfoldContents sels anc kids')) as Hfold.
  { unfold unfoldContents. induction sels as [|sel sels IH]; intros kids' Hk';
      simpl; [done|].
    apply IH. apply (forEachMatching_everywhere Q Q);
      [apply Hkeep; [by split|apply laidOpen_unfoldContent]|done|done]. }
  apply Hfold.
  unfold everywhere, forEachMatching, descendants.
  rewrite flat_map_concat_map, map_map, <- flat_map_concat_map.
  apply Forall_flat_map, Forall_forall. intros k _.
  apply (restyle_everywhere (fun _ => True) Q) with (anc := anc).
  - intros a d _. rewrite matches_disclosureState. unfold Q.
    destruct (hasDisclosureState d) eqn:E.
    + intros _. apply laidOpen_openUp.
    + by rewrite E.
  - apply Forall_forall. done.
Qed.

End CleanupFacts.

(** X11.  For removal selectors made of tests of the tag, the id, the
    classes and the attributes other than [style], joined by the child and
    the descendant combinators, with no pseudo-class, no pseudo-element and
    no sibling combinator (as every removal selector of the defaults and of
    the presets is): after the cleanup, nothing below the clone of the
    content matches a removal selector, and nothing below it carries the
    class of a two-column grid.  Such a selector sees the markup of an
    element and of its ancestors only, which a removal elsewhere and the
    later steps of the cleanup, changing inline styles only, leave as they
    are.  A selector that tests the place of an element among its siblings,
    such as [p:first-child], is not covered: a removal can make it match. *)
Theorem removed_selectors_match_nothing
    (doc : Dom.Document) (contentSelector : Dom.Selector)
    (removeSelectors accordionContentSelectors : list Dom.Selector)
    (content : Dom.Located) :
  Forall Markup.styleBlind removeSelectors ->
  Dom.querySelector contentSelector doc = Some content ->
  let doc' := Sanitizer.cleanupPageForPdf doc contentSelector removeSelectors
                accordionContentSelectors in
  exists root kids,
    Dom.bodyNodes doc' = [ Dom.Element root kids ]
    /\ Forall (fun l =>
                 Sanitizer.selects Sanitizer.gridCols2 l = false
                 /\ Forall (fun sel => Sanitizer.selects sel l = false)
                      removeSelectors)
         (Dom.descendants [ root; Dom.body doc'; Dom.documentElement doc' ] kids).
Proof.
  intros _ Hq doc'. subst doc'. unfold Sanitizer.cleanupPageForPdf. rewrite Hq.
  eexists _, _. split; [reflexivity|]. cbn [Dom.body Dom.documentElement].
  set (anc := [ Dom.setCssText Sanitizer.cloneCss (Dom.element content);
                Dom.setCssText Sanitizer.bodyCss (Dom.body doc);
                Dom.setCssText Sanitizer.rootCss (Dom.documentElement doc) ]).
  set (kept := Sanitizer.removals removeSelectors anc (Dom.children content)).
  assert (forall P, Markup.positional P -> Markup.clearOf P anc kept ->
            Markup.clearOf P
              (Sanitizer.noTopSpace
                 (Dom.setCssText Sanitizer.cloneCss (Dom.element content))
               :: tail anc)
              (Sanitizer.restyles accordionContentSelectors anc kept)) as Hfinal.
  { intros P Hpos Hclear. apply (restyles_clear P accordionContentSelectors) in Hclear;
      [|done].
    unfold Markup.clearOf, Dom.descendants in *.
    apply Forall_flat_map_inv in Hclear. apply Forall_flat_map.
    eapply Forall_impl; [exact Hclear|]. intros k Hk. simpl.
    eapply elementsOf_clear_same; [done| |exact Hk].
    constructor; [by split|apply Forall2_same_refl]. }
  assert (Markup.clearOf (Sanitizer.selects Sanitizer.gridCols2) anc kept) as Hgrid.
  { subst kept. unfold Sanitizer.removals.
    apply removeSelected_keeps_clear; [apply selects_positional|].
    apply pruneAll_clear; [apply selects_positional|left].
    apply pruneAll_clear; [apply selects_positional|by right]. }
  apply Hfinal in Hgrid; [|apply selects_positional].
  assert (Forall (fun sel =>
            Markup.clearOf (Sanitizer.selects sel)
              (Sanitizer.noTopSpace
                 (Dom.setCssText Sanitizer.cloneCss (Dom.element content))
               :: tail anc)
              (Sanitizer.restyles accordionContentSelectors anc kept))
            removeSelectors) as Hsels.
  { apply Forall_forall. intros sel Hin.
    apply Hfinal; [apply selects_positional|].
    subst kept. unfold Sanitizer.removals. by apply removeSelected_clears. }
  unfold Markup.clearOf in *. simpl tail in *.
  apply Forall_forall. intros l Hl. split.
  - by eapply Forall_forall in Hgrid.
  - eapply Forall_impl; [exact Hsels|]. intros sel Hsel. simpl in Hsel.
    by eapply Forall_forall in Hsel.
Qed.

Lemma removed_selectors_match_nothing_witness :
  exists root kids,
    Dom.bodyNodes ExamplePage.cleaned = [ Dom.Element root kids ]
    /\ Forall (fun l =>
                 Sanitizer.selects Sanitizer.gridCols2 l = false
                 /\ Forall (fun sel => Sanitizer.selects sel l = false)
                      ExamplePage.defaultRemoveSelectors)
         (Dom.descendants
            [ root; Dom.body ExamplePage.cleaned;
              Dom.documentElement ExamplePage.cleaned ] kids).
Proof.
  apply (removed_selectors_match_nothing ExamplePage.page ExamplePage.article
           ExamplePage.defaultRemoveSelectors
           ExamplePage.defaultAccordionContentSelectors
           ExamplePage.pageContent).
  - by repeat constructor.
  - reflexivity.
Defined.

(** X12.  After the cleanup, every element below the clone that carries
    [data-state="open"] or [data-state="closed"] has an inline style that
    lays it open: no transform, transition or animation, position
    [relative], height [auto], opacity [1], visible, overflow visible, and
    displayed as a block or as a flex column. *)
Theorem disclosures_are_laid_open
    (doc : Dom.Document) (contentSelector : Dom.Selector)
    (removeSelectors accordionContentSelectors : list Dom.Selector)
    (content : Dom.Located) :
  Dom.querySelector contentSelector doc = Some content ->
  let doc' := Sanitizer.cleanupPageForPdf doc contentSelector removeSelectors
                accordionContentSelectors in
  exists root kids,
    Dom.bodyNodes doc' = [ Dom.Element root kids ]
    /\ Forall (fun l => Markup.hasDisclosureState (Dom.element l) = true ->
                        Markup.laidOpen (Dom.element l))
         (Dom.descendants [ root; Dom.body doc'; Dom.documentElement doc' ] kids).
Proof.
  intros Hq doc'. subst doc'. unfold Sanitizer.cleanupPageForPdf. rewrite Hq.
  eexists _, _. split; [reflexivity|]. apply restyles_lay_open.
Qed.

Lemma disclosures_are_laid_open_witness :
  exists root kids,
    Dom.bodyNodes ExamplePage.cleaned = [ Dom.Element root kids ]
    /\ Forall (fun l => Markup.hasDisclosureState (Dom.element l) = true ->
                        Markup.laidOpen (Dom.element l))
         (Dom.descendants
            [ root; Dom.body ExamplePage.cleaned;
              Dom.documentElement ExamplePage.cleaned ] kids).
Proof.
  exact (disclosures_are_laid_open ExamplePage.page ExamplePage.article
           ExamplePage.defaultRemoveSelectors
           ExamplePage.defaultAccordionContentSelectors
           ExamplePage.pageContent eq_refl).
Defined.

(** X13.  Once the first removal has taken out the grid blocks, the test for
    navigation blocks comes down to its second half: an element passes it
    exactly when it is a responsive container with exactly two links below
    it.  A container around a grid block is not removed for that. *)
Theorem navigation_test_counts_links_only
    (anc : list Dom.ElementData) (kids : list Dom.Node) (l : Dom.Located) :
  l ∈ Dom.descendants anc (Dom.pruneAll (Sanitizer.selects Sanitizer.gridCols2) anc kids) ->
  Sanitizer.isNavigationBlock l
  = Sanitizer.selects Sanitizer.container l
    && (length (Dom.querySelectorAll Sanitizer.anchors
                  (Dom.element l :: Dom.ancestors l) (Dom.children l)) =? 2)%nat.
Proof.
  intros Hin. unfold Sanitizer.isNavigationBlock.
  by rewrite (grid_test_is_spent anc kids l Hin).
Qed.

Lemma navigation_test_counts_links_only_witness :
  Forall (fun l => Sanitizer.isNavigationBlock l
                   = Sanitizer.selects Sanitizer.container l
                     && (length (Dom.querySelectorAll Sanitizer.anchors
                                   (Dom.element l :: Dom.ancestors l)
                                   (Dom.children l)) =? 2)%nat)
    (Dom.descendants []
       (Dom.pruneAll (Sanitizer.selects Sanitizer.gridCols2) [] ExampleCards.cards)).
Proof.
  apply Forall_forall. intros l Hl.
  exact (navigation_test_counts_links_only [] ExampleCards.cards l Hl).
Defined.

(** X14.  For a content selector made of tests of the tag, the id, the
    classes and the attributes other than [style] of the element itself,
    with no combinator, no pseudo-class and no pseudo-element (as
    [article], the content selector of the defaults and of every preset,
    is): after the cleanup the selector finds an element again, so that the
    measurement is the height of a bounding rectangle plus 40 and never the
    scroll height of the body.  A selector that tests the place of an
    element among its siblings, such as [article:nth-child(2)], is not
    covered: the clone is the only child of the body. *)
Theorem measurement_after_cleanup_has_padding
    (layout : Sanitizer.Layout) (doc : Dom.Document) (contentSelector : Dom.Selector)
    (removeSelectors accordionContentSelectors : list Dom.Selector)
    (content : Dom.Located) :
  Dom.contextFree contentSelector ->
  Markup.styleBlind contentSelector ->
  Dom.querySelector contentSelector doc = Some content ->
  let doc' := Sanitizer.cleanupPageForPdf doc contentSelector removeSelectors
                accordionContentSelectors in
  exists found,
    Dom.querySelector contentSelector doc' = Some found
    /\ Sanitizer.measureHeight layout doc' contentSelector
       = (Sanitizer.boundingHeight layout found + 40)%float.
Proof.
  intros Hfree _ Hq doc'.
  destruct (content_found_again doc contentSelector removeSelectors
              accordionContentSelectors content Hfree Hq) as [found Hfound].
  exists found. split; [exact Hfound|].
  unfold Sanitizer.measureHeight. subst doc'. by rewrite Hfound.
Qed.

Lemma measurement_after_cleanup_has_padding_witness :
  exists found,
    Dom.querySelector ExamplePage.article ExamplePage.cleaned = Some found
    /\ Sanitizer.measureHeight ExamplePage.layout ExamplePage.cleaned
         ExamplePage.article
       = (Sanitizer.boundingHeight ExamplePage.layout found + 40)%float.
Proof.
  apply (measurement_after_cleanup_has_padding ExamplePage.layout ExamplePage.page
           ExamplePage.article ExamplePage.defaultRemoveSelectors
           ExamplePage.defaultAccordionContentSelectors ExamplePage.pageContent).
  - repeat constructor.
  - by repeat constructor.
  - reflexivity.
Defined.

(** X15.  When the content selector matches nothing, the cleanup changes
    nothing at all: the document stays as it was, with everything the
    removal selectors name, and the measurement falls back on the scroll
    height of the body. *)
Theorem cleanup_without_content_is_idle
    (layout : Sanitizer.Layout) (doc : Dom.Document) (contentSelector : Dom.Selector)
    (removeSelectors accordionContentSelectors : list Dom.Selector) :
  Dom.querySelector contentSelector doc = None ->
  Sanitizer.cleanupPageForPdf doc contentSelector removeSelectors
    accordionContentSelectors = doc
  /\ Sanitizer.measureHeight layout
       (Sanitizer.cleanupPageForPdf doc contentSelector removeSelectors
          accordionContentSelectors) contentSelector
     = Sanitizer.bodyScrollHeight layout.
Proof.
  intros Hq. unfold Sanitizer.cleanupPageForPdf, Sanitizer.measureHeight.
  by rewrite !Hq.
Qed.

Lemma cleanup_without_content_is_idle_witness :
  Sanitizer.cleanupPageForPdf ExamplePage.page (Sanitizer.only [ Dom.Tag "main" ])
    ExamplePage.defaultRemoveSelectors ExamplePage.defaultAccordionContentSelectors
  = ExamplePage.page.
Proof.
  apply (cleanup_without_content_is_idle ExamplePage.layout ExamplePage.page
           (Sanitizer.only [ Dom.Tag "main" ])).
  reflexivity.
Defined.

(** ** Render Orchestrator, further *)

Section RunFacts.
Import Handler HandlerLogic Runs.

Lemma returned_snoc done c : returned (done ++ [ c ]) = returned done ++ [ (c, None) ].
Proof. unfold returned. by rewrite map_app. Qed.

Lemma launched_returned done tail : done <> [] -> launched (returned done ++ tail) = true.
Proof. by destruct done. Qed.

Lemma when_true (m : M unit) : when true m = m.
Proof. reflexivity. Qed.

Lemma firstThrown_returned done tail :
  firstThrown (returned done ++ tail) = firstThrown tail.
Proof. induction done as [|c done IH]; [done|]. exact IH. Qed.

Section Plan.
Variable world : Browser.
Variable full : list Call.
Variable F : Thrown -> State -> Prop.
Hypothesis F_threw : forall e s, Threw full e s -> F e s.

Lemma at_launch st a rest :
  full = {| stage := st; args := a |} :: rest ->
  hoare Fresh (call world st a)
    (fun _ s => events s = returned [ {| stage := st; args := a |} ])
    F.
Proof.
  intros Hfull s [He Hb]. unfold call. rewrite He. simpl.
  destruct (throws world [] _) as [e|]; simpl; [|done].
  apply F_threw. exists [], {| stage := st; args := a |}, rest. by rewrite Hb.
Qed.

Lemma at_assignBrowser (c : Call) rest :
  full = c :: rest ->
  hoare (fun s => events s = returned [ c ]) assignBrowser
    (fun _ => At full rest) F.
Proof.
  intros Hfull s He. split; [done|]. exists [ c ]. by rewrite Hfull.
Qed.

Lemma at_call st a rest :
  hoare (At full ({| stage := st; args := a |} :: rest)) (call world st a)
    (fun _ => At full rest) F.
Proof.
  intros s (Hb & done & Hne & Hfull & He). unfold call. rewrite He.
  destruct (throws world (returned done) _) as [e|]; simpl.
  - apply F_threw. exists done, {| stage := st; args := a |}, rest. simpl.
    by rewrite launched_returned.
  - split; [done|]. exists (done ++ [ {| stage := st; args := a |} ]).
    rewrite <- app_assoc, returned_snoc. split_and!; [|done..].
    by destruct done.
Qed.

Lemma at_when (b : bool) st a rest :
  hoare (At full ((if b then [ {| stage := st; args := a |} ] else []) ++ rest))
    (when b (call world st a)) (fun _ => At full rest) F.
Proof. destruct b; [apply at_call|by apply hoare_ret]. Qed.

Lemma at_when_both (b b' : bool) st a rest :
  hoare (At full ((if b && b' then [ {| stage := st; args := a |} ] else []) ++ rest))
    (when b (when b' (call world st a))) (fun _ => At full rest) F.
Proof. destruct b; [apply at_when|by apply hoare_ret]. Qed.

End Plan.

Variable world : Browser.
Variable options : Config.Options.
Variable request : Request.

Lemma plan_ends_with_close :
  plan world options request
  = (preparation options request
       ++ [ rendering world options (returned (preparation options request)) ])
    ++ [ close ].
Proof. unfold plan. by rewrite <- app_assoc. Qed.

(** The try block, on a request with a path. *)
Lemma tryBlock_follows_plan :
  let config := Config.resolveConfig options in
  let resolvedOptions := Config.resolveOptions options in
  let path := default "" (searchPath request) in
  let protocol := Js.dropFirst ":" (protocol request) in
  let host := Js.or_else (default "" (hostHeader request)) "localhost:3000" in
  let baseUrl := protocol +:+ "://" +:+ host in
  let pageUrl := baseUrl +:+ path in
  let cookieHeader := Js.or_else (default "" (cookieField request)) "" in
  let full := plan world options request in
  hoare Fresh
    (call world Launch [ AField (config !! "puppeteerOptions") ];;
     assignBrowser;;
     call world NewPage [];;
     when (Js.truthy cookieHeader)
       (let domain := default "" (head (Js.split ":" host)) in
        let isSecure := String.eqb protocol "https" in
        let cookies := Cookies.parseCookies cookieHeader domain isSecure baseUrl in
        when (0 <? length cookies)%nat (call world SetCookie [ ACookies cookies ]));;
     call world SetViewport [ AField (config !! "pageWidth"); ANum 600 ];;
     call world Goto [ AStr pageUrl; AStr "networkidle0"; AField (config !! "timeout") ];;
     when (truthy (config !! "expandAccordions"))
       (call world ExpandAccordions [ AField (config !! "accordionTriggerSelectors") ]);;
     when (truthy (config !! "triggerLazyImages"))
       (call world TriggerLazyImages []);;
     call world CleanupPageForPdf
       [ AField (config !! "contentSelector"); AField (config !! "removeSelectors");
         AField (config !! "accordionContentSelectors") ];;
     when (truthy (resolvedOptions !! "beforePdfGeneration"))
       (call world BeforePdfGeneration [ AField (resolvedOptions !! "beforePdfGeneration") ]);;
     call world MeasureHeight [ AField (config !! "contentSelector") ];;
     contentHeight ← lastMeasured world;
     call world Pdf [ AField (config !! "pageWidth"); ANum (contentHeight + 60);
                AField (config !! "margins") ];;
     pdfBuffer ← lastPrinted world;
     call world Close [];;
     let filename := Filename.fromPath path in
     newResponse world pdfBuffer
       [ ("Content-Type", "application/pdf");
         ("Content-Disposition",
          "attachment; filename=" +:+ Config.dq +:+ filename +:+ ".pdf"
            +:+ Config.dq) ])
    (fun resp s =>
       browser s = true /\ events s = returned full
       /\ legalHeaderValue (disposition path) = true
       /\ resp = PdfFile
                   (printed world
                      (returned
                         (preparation options request
                          ++ [ rendering world options
                                 (returned (preparation options request)) ])))
                   (pdfHeaders path))
    (fun e s => Threw full e s \/ Refused world full path e s).
Proof.
  cbv zeta.
  remember (plan world options request) as full eqn:Hfull.
  set (prep := preparation options request) in *.
  set (pdf := rendering world options (returned prep)) in *.
  unfold plan in Hfull. fold prep pdf in Hfull. pose proof Hfull as Hplan.
  unfold prep at 1, preparation, forwarded in Hfull.
  rewrite <- !app_assoc in Hfull. cbn [app] in Hfull.
  eapply hoare_bind; [eapply at_launch; [by left|exact Hfull]|intros ?; cbv beta].
  eapply hoare_bind; [eapply at_assignBrowser; exact Hfull|intros ?; cbv beta].
  clear Hfull.
  assert (forall e s, Threw full e s ->
            Threw full e s
            \/ Refused world full (default "" (searchPath request)) e s) as Hleft
    by (by left).
  eapply hoare_bind; [by apply at_call|intros ?; cbv beta].
  eapply hoare_bind; [by apply at_when_both|intros ?; cbv beta].
  cbn [app].
  eapply hoare_bind; [by apply at_call|intros ?; cbv beta].
  eapply hoare_bind; [by apply at_call|intros ?; cbv beta].
  eapply hoare_bind; [by apply at_when|intros ?; cbv beta].
  eapply hoare_bind; [by apply at_when|intros ?; cbv beta].
  cbn [app].
  eapply hoare_bind; [by apply at_call|intros ?; cbv beta].
  eapply hoare_bind; [by apply at_when|intros ?; cbv beta].
  cbn [app].
  eapply hoare_bind; [by apply at_call|intros ?; cbv beta].
  intros s (Hb & done & Hne & Hd & He).
  rewrite Hplan in Hd. apply app_inv_tail in Hd. subst done.
  unfold mbind, M_bind, lastMeasured, lastPrinted, call, mret, M_ret.
  cbn [events browser fst snd]. rewrite He.
  change {| stage := Pdf; args := _ |} with pdf.
  change {| stage := Close; args := [] |} with close.
  destruct (throws world (returned prep) pdf) as [e|]; cbn [events browser fst snd].
  { left. exists prep, pdf, [ close ]. cbn [events browser].
    by rewrite launched_returned. }
  destruct (throws world (returned prep ++ [ (pdf, None) ]) close) as [e|];
    cbn [events browser fst snd]; rewrite <- returned_snoc.
  { left. exists (prep ++ [ pdf ]), close, []. cbn [events browser].
    rewrite launched_returned.
    - by rewrite <- app_assoc.
    - by destruct prep. }
  unfold newResponse. cbn [List.find snd].
  change (legalHeaderValue "application/pdf") with true. cbn [negb].
  fold (disposition (default "" (searchPath request))).
  fold (pdfHeaders (default "" (searchPath request))).
  rewrite <- returned_snoc, <- app_assoc.
  destruct (legalHeaderValue (disposition (default "" (searchPath request))))
    eqn:Hlegal; cbn [negb events browser fst snd].
  - by rewrite Hplan.
  - right. unfold Refused. cbn [events browser]. by rewrite Hplan.
Qed.


Lemma run_without_path :
  Js.truthy (default "" (searchPath request)) = false ->
  handler world options request initial
  = (inr (Json 400 [ ("error", "Missing path parameter") ]), initial).
Proof. intros Hp. unfold handler. by rewrite Hp. Qed.

(** The runs of the handler on a request with a path: all of the plan
    returned and the response was built; all of the plan returned and the
    response was refused; or a call of the plan threw. *)
Lemma run_cases :
  Js.truthy (default "" (searchPath request)) = true ->
  let run := handler world options request initial in
  let prep := preparation options request in
  let pdf := rendering world options (returned prep) in
  let value := disposition (default "" (searchPath request)) in
  (legalHeaderValue value = true
   /\ events run.2 = returned (plan world options request)
   /\ run.1 = inr (PdfFile (printed world (returned (prep ++ [ pdf ])))
                     (pdfHeaders (default "" (searchPath request)))))
  \/ (legalHeaderValue value = false
      /\ exists o,
           events run.2 = returned (plan world options request) ++ [ (close, o) ]
           /\ run.1 = match o with
                      | None => inr (failureReport (refused world value))
                      | Some e' => inl e'
                      end)
  \/ (exists done c rest e,
        plan world options request = done ++ c :: rest
        /\ ((done = [] /\ events run.2 = [ (c, Some e) ]
             /\ run.1 = inr (failureReport e))
            \/ (done <> []
                /\ exists o,
                     events run.2 = returned done ++ [ (c, Some e); (close, o) ]
                     /\ run.1 = match o with
                                | None => inr (failureReport e)
                                | Some e' => inl e'
                                end))).
Proof.
  intros Hp run prep pdf value. subst run. unfold handler. rewrite Hp. cbn [negb].
  cbv zeta. unfold tryCatch.
  match goal with |- context [ match ?body initial with _ => _ end ] =>
    assert (hoare Fresh body
              (fun resp s =>
                 browser s = true
                 /\ events s = returned (plan world options request)
                 /\ legalHeaderValue value = true
                 /\ resp = PdfFile (printed world (returned (prep ++ [ pdf ])))
                             (pdfHeaders (default "" (searchPath request))))
              (fun e s =>
                 Threw (plan world options request) e s
                 \/ Refused world (plan world options request)
                      (default "" (searchPath request)) e s)) as H;
      [exact tryBlock_follows_plan
      |specialize (H initial (conj eq_refl eq_refl));
       destruct (body initial) as [[e|resp] s]]
  end.
  - unfold mbind, M_bind, readBrowser. cbn [fst snd].
    destruct H as [(done & c & rest & Hplan & He & Hb)|(He & Hb & Hlegal & ->)].
    + right. right. exists done, c, rest, e. split; [done|].
      rewrite He in Hb. rewrite Hb.
      destruct done as [|d done]; cbn [launched returned map app].
      * left. done.
      * right. split; [done|]. unfold when, call. cbn [events browser]. rewrite He.
        change {| stage := Close; args := [] |} with close.
        destruct (throws world _ close) as [e'|]; cbn [fst snd events].
        -- exists (Some e'). by rewrite <- app_assoc.
        -- exists None. by rewrite <- app_assoc.
    + right. left. split; [done|]. rewrite Hb.
      unfold when, call. cbn [events browser]. rewrite He.
      change {| stage := Close; args := [] |} with close.
      destruct (throws world _ close) as [e'|]; cbn [fst snd events].
      * by exists (Some e').
      * by exists None.
  - left. destruct H as (_ & He & Hlegal & ->). done.
Qed.

Lemma tryCatch_call_throws {A} st a (k : unit -> M A) (h : Thrown -> M A) s e :
  throws world (events s) {| stage := st; args := a |} = Some e ->
  tryCatch (call world st a ≫= k) h s
  = h e {| events := events s ++ [ ({| stage := st; args := a |}, Some e) ];
           browser := browser s |}.
Proof. intros H. unfold tryCatch, mbind, M_bind, call. by rewrite H. Qed.

Lemma split_at_last {A} (P : A -> Prop) (init done rest : list A) (x y : A) :
  Forall (fun a => ~ P a) init -> P x -> done ++ x :: rest = init ++ [ y ] ->
  done = init /\ x = y /\ rest = [].
Proof.
  intros Hinit Hx. revert init Hinit.
  induction done as [|d done IH]; intros [|a init] Hinit Heq; simpl in Heq.
  - by simplify_eq.
  - simplify_eq. by apply Forall_cons in Hinit as [Ha _].
  - simplify_eq. by destruct done.
  - simplify_eq. apply Forall_cons in Hinit as [_ Hinit].
    destruct (IH init Hinit) as (-> & -> & ->); done.
Qed.

Ltac plan_flags :=
  unfold preparation;
  repeat match goal with
         | |- context [ if ?b then _ else _ ] => destruct b
         end;
  cbn [app map].

Lemma preparation_stages_no_close :
  Forall (fun c => stage c <> Close) (preparation options request).
Proof. plan_flags; repeat constructor; discriminate. Qed.

Lemma preparation_starts_with_launch :
  exists more,
    preparation options request
    = {| stage := Launch;
         args := [ AField (Config.resolveConfig options !! "puppeteerOptions") ] |}
      :: more.
Proof. unfold preparation. cbn [app]. by eexists. Qed.

Lemma preparation_in_pipeline :
  map stage (preparation options request)
    `sublist_of` [ Launch; NewPage; SetCookie; SetViewport; Goto; ExpandAccordions;
                   TriggerLazyImages; CleanupPageForPdf; BeforePdfGeneration;
                   MeasureHeight ].
Proof. plan_flags; repeat constructor. Qed.

Lemma plan_in_pipeline : map stage (plan world options request) `sublist_of` pipeline.
Proof.
  unfold plan. rewrite map_app.
  change (map stage [ _; close ]) with [ Pdf; Close ].
  change pipeline
    with ([ Launch; NewPage; SetCookie; SetViewport; Goto; ExpandAccordions;
            TriggerLazyImages; CleanupPageForPdf; BeforePdfGeneration;
            MeasureHeight ] ++ [ Pdf; Close ]).
  apply sublist_app; [apply preparation_in_pipeline|done].
Qed.

Lemma stages_returned cs : stages (returned cs) = map stage cs.
Proof. unfold stages, returned. rewrite map_map. done. Qed.

Lemma closes_returned cs :
  Forall (fun c => stage c <> Close) cs -> closes (returned cs) = [].
Proof.
  induction 1 as [|c cs Hc _ IH]; [done|].
  unfold closes in *. simpl. rewrite IH. by destruct (stage c).
Qed.

Lemma firstThrown_none_returned cs : firstThrown (returned cs) = None.
Proof. rewrite <- (app_nil_r (returned cs)). by rewrite firstThrown_returned. Qed.


(** The stages of a run are an initial segment of the stages of the plan,
    with one more close after a failure. *)
Lemma stages_of_run :
  exists k closing,
    stages (events (handler world options request initial).2)
    = take k (map stage (plan world options request)) ++ closing
    /\ (closing = [] \/ closing = [ Close ]).
Proof.
  destruct (Js.truthy (default "" (searchPath request))) eqn:Hp;
    [|rewrite run_without_path by done; exists 0, []; by split; [|left]].
  destruct (run_cases Hp)
    as [(_ & He & _)|[(_ & o & He & _)|(done & c & rest & e & Hplan & H)]].
  - rewrite He, stages_returned.
    exists (length (map stage (plan world options request))), [].
    rewrite firstn_all, app_nil_r. by split; [|left].
  - rewrite He. unfold stages. rewrite map_app.
    fold (stages (returned (plan world options request))). rewrite stages_returned.
    exists (length (map stage (plan world options request))), [ Close ].
    rewrite firstn_all. by split; [|right].
  - rewrite Hplan.
    assert (take (S (length done)) (map stage (done ++ c :: rest))
            = map stage done ++ [ stage c ]) as Htake.
    { clear. induction done as [|d done IH]; simpl; [done|]. by rewrite IH. }
    destruct H as [(-> & He & _)|(_ & o & He & _)]; rewrite He.
    + exists 1, []. by split; [|left].
    + exists (S (length done)), [ Close ]. rewrite Htake. split; [|by right].
      unfold stages. rewrite map_app. fold (stages (returned done)).
      rewrite stages_returned, <- app_assoc. done.
Qed.

Lemma includes_replaceAll_other c a b s :
  c <> a -> c <> b -> Js.includes c (Js.replaceAll a b s) = Js.includes c s.
Proof.
  intros Ha Hb. induction s as [|d s IH]; simpl; [done|]. rewrite IH. f_equal.
  destruct (Ascii.eqb_spec d a) as [->|Hd]; [|done].
  rewrite (proj2 (Ascii.eqb_neq b c)), (proj2 (Ascii.eqb_neq a c)); done.
Qed.

Lemma includes_dropLeading_other c d s :
  c <> d -> Js.includes c (Js.dropLeading d s) = Js.includes c s.
Proof.
  intros Hne. destruct s as [|e s]; simpl; [done|].
  destruct (Ascii.eqb_spec e d) as [->|He]; [|done].
  by rewrite (proj2 (Ascii.eqb_neq d c)).
Qed.

Lemma includes_append c a b :
  Js.includes c (a +:+ b) = Js.includes c a || Js.includes c b.
Proof. induction a as [|d a IH]; simpl; [done|]. by rewrite IH, orb_assoc. Qed.

Lemma includes_disposition c path :
  c <> "/"%char -> c <> "-"%char ->
  Js.includes c ("attachment; filename=" +:+ Config.dq) = false ->
  Js.includes c "document" = false ->
  Js.includes c (".pdf" +:+ Config.dq) = false ->
  Js.includes c (disposition path) = Js.includes c path.
Proof.
  intros Hslash Hdash Hhead Hdoc Htail. unfold disposition.
  change ("attachment; filename=" +:+ Config.dq +:+ Filename.fromPath path
          +:+ ".pdf" +:+ Config.dq)
    with (("attachment; filename=" +:+ Config.dq)
          +:+ (Filename.fromPath path +:+ (".pdf" +:+ Config.dq))).
  rewrite (includes_append c ("attachment; filename=" +:+ Config.dq)), Hhead.
  rewrite (includes_append c (Filename.fromPath path)), Htail, orb_false_r.
  cbn [orb].
  unfold Filename.fromPath, Js.or_else.
  rewrite <- (includes_replaceAll_other c "/" "-" path Hslash Hdash).
  rewrite <- (includes_dropLeading_other c "-" (Js.replaceAll "/" "-" path) Hdash).
  by destruct (Js.dropLeading "-" (Js.replaceAll "/" "-" path)).
Qed.

(** The header value is legal exactly when the path holds no NUL, no line
    feed and no carriage return. *)
Lemma disposition_legal path :
  legalHeaderValue (disposition path) = legalHeaderValue path.
Proof.
  unfold legalHeaderValue. by rewrite !includes_disposition.
Qed.

End RunFacts.

(** ** The failure policy *)




Section HandlerRuns.
Import Handler Runs.

Lemma reached_stages st evs :
  reached st evs = existsb (fun s => bool_decide (s = st)) (stages evs).
Proof. unfold reached, stages. induction evs as [|ev evs IH]; simpl; by rewrite ?IH. Qed.

Lemma forwarded_needs_header request :
  Js.truthy (Js.or_else (default "" (cookieField request)) "")
  && (0 <? length (forwarded request))%nat
  = (0 <? length (forwarded request))%nat.
Proof.
  unfold forwarded. rewrite or_else_empty.
  by destruct (default "" (cookieField request)).
Qed.



(** The conditions under which the optional calls are made. *)
Lemma stages_follow_conditions world options request :
  let evs := events (handler world options request initial).2 in
  let config := Config.resolveConfig options in
  let resolvedOptions := Config.resolveOptions options in
  (reached SetViewport evs = true ->
   reached SetCookie evs = (0 <? length (forwarded request))%nat)
  /\ (reached CleanupPageForPdf evs = true ->
      reached ExpandAccordions evs = truthy (config !! "expandAccordions")
      /\ reached TriggerLazyImages evs = truthy (config !! "triggerLazyImages"))
  /\ (reached MeasureHeight evs = true ->
      reached BeforePdfGeneration evs
      = truthy (resolvedOptions !! "beforePdfGeneration"))
  /\ (reached SetCookie evs = true -> (0 <? length (forwarded request))%nat = true)
  /\ (reached ExpandAccordions evs = true ->
      truthy (config !! "expandAccordions") = true)
  /\ (reached TriggerLazyImages evs = true ->
      truthy (config !! "triggerLazyImages") = true)
  /\ (reached BeforePdfGeneration evs = true ->
      truthy (resolvedOptions !! "beforePdfGeneration") = true).
Proof.
  intros evs config resolvedOptions. subst evs config resolvedOptions.
  destruct (stages_of_run world options request) as (k & closing & Hst & Hcl).
  rewrite !reached_stages, Hst. clear Hst.
  unfold plan, preparation. rewrite forwarded_needs_header, map_app.
  destruct (0 <? length (forwarded request))%nat;
    destruct (truthy (Config.resolveConfig options !! "expandAccordions"));
    destruct (truthy (Config.resolveConfig options !! "triggerLazyImages"));
    destruct (truthy (Config.resolveOptions options !! "beforePdfGeneration"));
    cbn [map app stage rendering close].
  all: do 14 (destruct k as [|k];
              [destruct Hcl as [-> | ->]; vm_compute; repeat split; intros; congruence|]).
  all: destruct Hcl as [-> | ->]; vm_compute; repeat split; intros; congruence.
Qed.

(** X16.  The handler answers 400 exactly when the [path] parameter is
    missing or empty, and then it has called nothing: no browser is
    launched for such a request. *)
Theorem missing_path_is_the_only_bad_request
    (world : Browser) (options : Config.Options) (request : Request) :
  let run := handler world options request initial in
  (searchPath request = None \/ searchPath request = Some "" ->
   run = (inr (Json 400 [ ("error", "Missing path parameter") ]), initial))
  /\ (forall body, run.1 = inr (Json 400 body) ->
      searchPath request = None \/ searchPath request = Some "").
Proof.
  intros run. subst run. split.
  - intros H. apply run_without_path. by destruct H as [-> | ->].
  - intros body H.
    destruct (searchPath request) as [[|a path]|] eqn:Hp; [by right| |by left].
    exfalso.
    assert (Js.truthy (default "" (searchPath request)) = true) as Ht
      by (by rewrite Hp).
    destruct (run_cases world options request Ht)
      as [(_ & _ & Hr)|[(_ & [e'|] & _ & Hr)
         |(done & c & rest & e & _ & [(_ & _ & Hr)|(_ & [e'|] & _ & Hr)])]];
      rewrite Hr in H; discriminate H.
Qed.

Lemma missing_path_is_the_only_bad_request_witness :
  handler nothingFails Config.NoOptions
    {| searchPath := Some ""; protocol := "http:"; hostHeader := None;
       cookieField := None |} initial
  = (inr (Json 400 [ ("error", "Missing path parameter") ]), initial).
Proof.
  apply (missing_path_is_the_only_bad_request nothingFails Config.NoOptions
           {| searchPath := Some ""; protocol := "http:"; hostHeader := None;
              cookieField := None |}).
  by right.
Defined.

(** X17.  When the launch of the browser throws [e], the handler answers
    with the failure report of status 500 that carries [e], and the launch
    is the only call of the run: there is no session, and nothing is
    closed. *)
Theorem launch_failure_closes_nothing
    (world : Browser) (options : Config.Options) (request : Request)
    (path : string) (e : Thrown) :
  let launch := {| stage := Launch;
                   args := [ AField (Config.resolveConfig options !! "puppeteerOptions") ] |} in
  searchPath request = Some path -> path <> "" ->
  throws world [] launch = Some e ->
  handler world options request initial
  = (inr (Json 500 [ ("error", "Failed to generate PDF"); ("details", e) ]),
     {| events := [ (launch, Some e) ]; browser := false |}).
Proof.
  intros launch Hp Hne He. unfold handler. rewrite Hp.
  change (default "" (Some path)) with path.
  apply truthy_true in Hne. rewrite Hne. cbn [negb]. cbv zeta.
  by rewrite (tryCatch_call_throws world Launch _ _ _ initial e He).
Qed.

Lemma launch_failure_closes_nothing_witness :
  handler launchFails Config.NoOptions setupRequest initial
  = (inr (Json 500 [ ("error", "Failed to generate PDF");
                     ("details", "Error: Failed to launch the browser process") ]),
     {| events :=
          [ ({| stage := Launch;
                args := [ AField (Config.resolveConfig Config.NoOptions
                                    !! "puppeteerOptions") ] |},
             Some "Error: Failed to launch the browser process") ];
        browser := false |}).
Proof.
  apply (launch_failure_closes_nothing launchFails Config.NoOptions setupRequest
           "/docs/setup" "Error: Failed to launch the browser process").
  - reflexivity.
  - discriminate.
  - reflexivity.
Defined.

(** X18.  A run on a request with a path in which no call throws makes the
    calls of the preparation, renders the page 60 units higher than the
    measurement that ends the preparation returned, and closes the session.
    When the header value made of the path is legal, which for a path of
    code units below 256, as every string here is, it is exactly when the
    path holds no NUL, no line feed and no carriage return, that close is
    the last call and the only close, and the answer carries what
    the rendering returned, under the file name derived from the path.
    When it is not, the response cannot be built: the catch block closes a
    second time, and the answer is the failure report with what the
    constructor threw. *)
Theorem quiet_run_delivers_the_pdf
    (world : Browser) (options : Config.Options) (request : Request)
    (path : string) :
  let run := handler world options request initial in
  let prep := preparation options request in
  let pdf := rendering world options (returned prep) in
  searchPath request = Some path -> path <> "" ->
  firstThrown (events run.2) = None ->
  args pdf
  = [ AField (Config.resolveConfig options !! "pageWidth");
      ANum (measured world (returned prep) + 60);
      AField (Config.resolveConfig options !! "margins") ]
  /\ legalHeaderValue (disposition path)
     = negb (Js.includes "000" path || Js.includes "010" path
             || Js.includes "013" path)
  /\ (legalHeaderValue (disposition path) = true ->
      events run.2 = returned prep ++ [ (pdf, None); (close, None) ]
      /\ closes (events run.2) = [ (close, None) ]
      /\ run.1
         = inr (PdfFile (printed world (returned prep ++ [ (pdf, None) ]))
                  [ ("Content-Type", "application/pdf");
                    ("Content-Disposition",
                     "attachment; filename=" +:+ Config.dq +:+ Filename.fromPath path
                       +:+ ".pdf" +:+ Config.dq) ]))
  /\ (legalHeaderValue (disposition path) = false ->
      events run.2
      = returned prep ++ [ (pdf, None); (close, None); (close, None) ]
      /\ run.1
         = inr (Json 500 [ ("error", "Failed to generate PDF");
                           ("details", refused world (disposition path)) ])).
Proof.
  intros run prep pdf Hp Hne Hquiet. subst run.
  assert (Js.truthy (default "" (searchPath request)) = true) as Ht.
  { rewrite Hp. by apply truthy_true. }
  assert (returned (plan world options request)
          = returned prep ++ [ (pdf, None); (close, None) ]) as Hall.
  { unfold plan. fold prep pdf. unfold returned. by rewrite map_app. }
  split; [done|]. split; [apply disposition_legal|].
  destruct (run_cases world options request Ht)
    as [(Hlegal & He & Hr)|[(Hlegal & o & He & Hr)
       |(done & c & rest & e & _ & [(_ & He & _)|(_ & o & He & _)])]];
    rewrite Hp in *; cbn [default from_option id] in *.
  - split; [|by rewrite Hlegal]. intros _. rewrite He, Hr, Hall.
    unfold returned. rewrite !map_app. fold (returned prep).
    split_and!; [done| |done].
    unfold closes. rewrite List.filter_app. fold (closes (returned prep)).
    rewrite closes_returned by apply preparation_stages_no_close. done.
  - split; [by rewrite Hlegal|]. intros _.
    rewrite He, Hall in Hquiet. rewrite He, Hr, Hall.
    destruct o as [e'|].
    + rewrite <- app_assoc, firstThrown_returned in Hquiet. discriminate Hquiet.
    + by rewrite <- app_assoc.
  - by rewrite He in Hquiet.
  - by rewrite He, firstThrown_returned in Hquiet.
Qed.

Lemma quiet_run_delivers_the_pdf_witness :
  closes (events (handler nothingFails Config.NoOptions setupRequest initial).2)
  = [ (close, None) ]
  /\ (handler nothingFails Config.NoOptions brokenRequest initial).1
     = inr (Json 500 [ ("error", "Failed to generate PDF");
                       ("details", refused nothingFails (disposition brokenPath)) ]).
Proof.
  split.
  - apply (quiet_run_delivers_the_pdf nothingFails Config.NoOptions setupRequest
             "/docs/setup"); [reflexivity|discriminate|by vm_compute..].
  - apply (quiet_run_delivers_the_pdf nothingFails Config.NoOptions brokenRequest
             brokenPath); [reflexivity|discriminate|by vm_compute..].
Defined.

(** X19.  When the first call of a run that throws is a close, close has
    been called twice in a row.  Either it is the close at the end of the
    try block that threw, and the catch block closed again: the handler
    answers with the report of the first failure when the second close
    returns, and rejects with what the second close threw when it throws.
    Or the close of the try block returned, the response was refused for
    its header value, and it is the close of the catch block that threw:
    the handler rejects with it. *)
Theorem failing_close_is_tried_again
    (world : Browser) (options : Config.Options) (request : Request)
    (c : Call) (e : Thrown) :
  let run := handler world options request initial in
  let prep := preparation options request in
  let pdf := rendering world options (returned prep) in
  firstThrown (events run.2) = Some (c, Some e) -> stage c = Close ->
  (exists o,
     events run.2 = returned (prep ++ [ pdf ]) ++ [ (close, Some e); (close, o) ]
     /\ run.1 = match o with
                | None => inr (Json 500 [ ("error", "Failed to generate PDF");
                                          ("details", e) ])
                | Some e' => inl e'
                end)
  \/ (legalHeaderValue (disposition (default "" (searchPath request))) = false
      /\ events run.2
         = returned (prep ++ [ pdf ]) ++ [ (close, None); (close, Some e) ]
      /\ run.1 = inl e).
Proof.
  intros run prep pdf Hfirst Hc. subst run.
  destruct (Js.truthy (default "" (searchPath request))) eqn:Ht;
    [|by rewrite run_without_path in Hfirst].
  destruct (run_cases world options request Ht)
    as [(_ & He & _)|[(Hlegal & o & He & Hr)|(done & c' & rest & e' & Hplan & H)]].
  { by rewrite He, firstThrown_none_returned in Hfirst. }
  { right. rewrite He, firstThrown_returned in Hfirst.
    destruct o as [e'|]; [|discriminate Hfirst]. simpl in Hfirst.
    assert (e' = e) as -> by (by simplify_eq).
    rewrite He, Hr, plan_ends_with_close. fold prep pdf.
    split_and!; [done| |done].
    by rewrite returned_snoc, <- app_assoc. }
  left.
  assert (c' = c /\ e' = e) as [-> ->].
  { destruct H as [(_ & He & _)|(_ & o & He & _)]; rewrite He in Hfirst;
      [|rewrite firstThrown_returned in Hfirst]; simpl in Hfirst; by simplify_eq. }
  rewrite plan_ends_with_close in Hplan. symmetry in Hplan.
  apply (split_at_last (fun c => stage c = Close)) in Hplan as (-> & -> & ->);
    [|apply Forall_app; split;
      [apply preparation_stages_no_close|by repeat constructor]|done].
  destruct H as [(Hnil & _)|(_ & o & He & Hr)].
  { by apply app_nil in Hnil as [_ ?]. }
  exists o. by rewrite He, Hr.
Qed.

Lemma failing_close_is_tried_again_witness :
  (exists o,
     events (handler closeFailsOnce Config.NoOptions setupRequest initial).2
     = returned (preparation Config.NoOptions setupRequest
                 ++ [ rendering closeFailsOnce Config.NoOptions
                        (returned (preparation Config.NoOptions setupRequest)) ])
       ++ [ (close, Some "Error: Protocol error (Browser.close)"); (close, o) ]
     /\ (handler closeFailsOnce Config.NoOptions setupRequest initial).1
        = match o with
          | None => inr (Json 500 [ ("error", "Failed to generate PDF");
                                    ("details", "Error: Protocol error (Browser.close)") ])
          | Some e' => inl e'
          end)
  \/ (legalHeaderValue (disposition (default "" (searchPath setupRequest))) = false
      /\ events (handler closeFailsOnce Config.NoOptions setupRequest initial).2
         = returned (preparation Config.NoOptions setupRequest
                     ++ [ rendering closeFailsOnce Config.NoOptions
                            (returned (preparation Config.NoOptions setupRequest)) ])
           ++ [ (close, None); (close, Some "Error: Protocol error (Browser.close)") ]
      /\ (handler closeFailsOnce Config.NoOptions setupRequest initial).1
         = inl "Error: Protocol error (Browser.close)").
Proof.
  apply (failing_close_is_tried_again closeFailsOnce Config.NoOptions setupRequest
           close "Error: Protocol error (Browser.close)").
  - by vm_compute.
  - reflexivity.
Defined.

(** X20.  The handler rejects only from its catch block: when it rejects
    with [e'], the launch had returned, the try block had thrown, and the
    close that the catch block made threw [e'].  The try block had thrown
    either at a call of the plan, or, all of the plan having returned, when
    the response was refused for its header value.  What the try block
    threw is lost then: no report is sent. *)
Theorem handler_rejects_only_when_the_close_fails
    (world : Browser) (options : Config.Options) (request : Request)
    (e' : Thrown) :
  let run := handler world options request initial in
  run.1 = inl e' ->
  (exists done c rest e,
     plan world options request = done ++ c :: rest
     /\ done <> []
     /\ events run.2 = returned done ++ [ (c, Some e); (close, Some e') ])
  \/ (legalHeaderValue (disposition (default "" (searchPath request))) = false
      /\ events run.2
         = returned (plan world options request) ++ [ (close, Some e') ]).
Proof.
  intros run Hr. subst run.
  destruct (Js.truthy (default "" (searchPath request))) eqn:Ht;
    [|by rewrite run_without_path in Hr].
  destruct (run_cases world options request Ht)
    as [(_ & _ & Hr')|[(Hlegal & o & He & Hr')
       |(done & c & rest & e & Hplan & [(_ & _ & Hr')|(Hne & o & He & Hr')])]];
    rewrite Hr' in Hr; try discriminate Hr.
  - right. destruct o as [e''|]; [|discriminate Hr]. by simplify_eq.
  - left. exists done, c, rest, e. destruct o as [e''|]; [|discriminate Hr].
    by simplify_eq.
Qed.

Lemma handler_rejects_only_when_the_close_fails_witness :
  (exists done c rest e,
     plan neverCloses Config.NoOptions setupRequest = done ++ c :: rest
     /\ done <> []
     /\ events (handler neverCloses Config.NoOptions setupRequest initial).2
        = returned done
          ++ [ (c, Some e); (close, Some "Error: Protocol error (Browser.close)") ])
  \/ (legalHeaderValue (disposition (default "" (searchPath setupRequest))) = false
      /\ events (handler neverCloses Config.NoOptions setupRequest initial).2
         = returned (plan neverCloses Config.NoOptions setupRequest)
           ++ [ (close, Some "Error: Protocol error (Browser.close)") ]).
Proof.
  apply (handler_rejects_only_when_the_close_fails neverCloses Config.NoOptions
           setupRequest "Error: Protocol error (Browser.close)").
  by vm_compute.
Defined.



(** X22.  The calls of a run are made in the order of the pipeline, each
    stage at most once, except that a second close may follow: no run
    navigates before the viewport is set, cleans up before it has
    navigated, or renders before it has measured. *)
Theorem calls_follow_the_pipeline
    (world : Browser) (options : Config.Options) (request : Request) :
  stages (events (handler world options request initial).2)
    `sublist_of` pipeline ++ [ Close ].
Proof.
  destruct (stages_of_run world options request) as (k & closing & -> & Hcl).
  apply sublist_app.
  - etrans; [apply sublist_take|apply plan_in_pipeline].
  - destruct Hcl as [-> | ->]; [apply sublist_nil_l|done].
Qed.

(** X23.  The optional calls follow their conditions.  A run that has come
    to set the viewport has forwarded cookies exactly when the request
    carries some; a run that has come to the cleanup has expanded the
    accordions, and has forced the lazy images, exactly when the
    configuration says so; a run that has come to the measurement has run
    the custom transform exactly when one is given.  None of the four is
    called when its condition fails. *)
Theorem optional_calls_follow_their_conditions
    (world : Browser) (options : Config.Options) (request : Request) :
  let evs := events (handler world options request initial).2 in
  let config := Config.resolveConfig options in
  let resolvedOptions := Config.resolveOptions options in
  (reached SetViewport evs = true ->
   reached SetCookie evs = (0 <? length (forwarded request))%nat)
  /\ (reached CleanupPageForPdf evs = true ->
      reached ExpandAccordions evs = truthy (config !! "expandAccordions")
      /\ reached TriggerLazyImages evs = truthy (config !! "triggerLazyImages"))
  /\ (reached MeasureHeight evs = true ->
      reached BeforePdfGeneration evs
      = truthy (resolvedOptions !! "beforePdfGeneration"))
  /\ (reached SetCookie evs = true -> (0 <? length (forwarded request))%nat = true)
  /\ (reached ExpandAccordions evs = true ->
      truthy (config !! "expandAccordions") = true)
  /\ (reached TriggerLazyImages evs = true ->
      truthy (config !! "triggerLazyImages") = true)
  /\ (reached BeforePdfGeneration evs = true ->
      truthy (resolvedOptions !! "beforePdfGeneration") = true).
Proof. apply stages_follow_conditions. Qed.

Lemma optional_calls_follow_their_conditions_witness :
  let evs := events (handler nothingFails Config.NoOptions setupRequest initial).2 in
  reached SetCookie evs = true
  /\ reached ExpandAccordions evs = true
  /\ reached TriggerLazyImages evs = true
  /\ reached BeforePdfGeneration evs = false.
Proof.
  destruct (optional_calls_follow_their_conditions nothingFails Config.NoOptions
              setupRequest) as (Hck & Hcl & Hm & _).
  destruct Hcl as [Hexp Hlazy]; [by vm_compute|].
  split_and!.
  - rewrite Hck; by vm_compute.
  - rewrite Hexp; by vm_compute.
  - rewrite Hlazy; by vm_compute.
  - rewrite Hm; by vm_compute.
Defined.

(** X24.  An options object that names [expandAccordions] or
    [triggerLazyImages] with the value [undefined] switches the step off:
    the spread puts the undefined value over the default [true], and the
    handler's test finds it falsy. *)
Theorem undefined_flag_switches_the_step_off
    (world : Browser) (options : Config.Object) (request : Request)
    (flag : string) (st : Stage) :
  (flag, st) ∈ [ ("expandAccordions", ExpandAccordions);
                 ("triggerLazyImages", TriggerLazyImages) ] ->
  options !! flag = Some Config.Undefined ->
  Config.defaultOptions !! flag = Some (Config.Bool true)
  /\ reached st
       (events (handler world (Config.OptionsObject options) request initial).2)
     = false.
Proof.
  intros Hin Hflag.
  destruct (stages_follow_conditions world (Config.OptionsObject options) request)
    as (_ & _ & _ & _ & Hexp & Hlazy & _).
  apply elem_of_cons in Hin as [Hin|Hin%list_elem_of_singleton]; simplify_eq.
  - split; [reflexivity|].
    destruct (reached ExpandAccordions _); [|done].
    rewrite resolveConfig_lookup, Hflag in Hexp by done. by specialize (Hexp eq_refl).
  - split; [reflexivity|].
    destruct (reached TriggerLazyImages _); [|done].
    rewrite resolveConfig_lookup, Hflag in Hlazy by done. by specialize (Hlazy eq_refl).
Qed.

Lemma undefined_flag_switches_the_step_off_witness :
  reached ExpandAccordions
    (events (handler nothingFails
               (Config.OptionsObject {[ "expandAccordions" := Config.Undefined ]})
               setupRequest initial).2)
  = false.
Proof.
  apply (undefined_flag_switches_the_step_off nothingFails
           {[ "expandAccordions" := Config.Undefined ]} setupRequest
           "expandAccordions" ExpandAccordions).
  - apply elem_of_cons. by left.
  - by vm_compute.
Defined.

End HandlerRuns.

(** ** Export Button *)

Section ButtonFacts.
Import Button.

Lemma isLoadingAfter_app owner b fx fx' :
  isLoadingAfter owner b (fx ++ fx')
  = isLoadingAfter owner (isLoadingAfter owner b fx) fx'.
Proof. unfold isLoadingAfter. apply foldl_app. Qed.

Lemma isLoadingAfter_idle owner b fx :
  setsNoState fx -> isLoadingAfter owner b fx = b.
Proof.
  unfold setsNoState. revert b.
  induction fx as [|e fx IH]; intros b Hfx; [done|].
  apply Forall_cons in Hfx as [He Hfx]. simpl. destruct e; try done; by apply IH.
Qed.

Lemma withoutWrapper_app fx fx' :
  withoutWrapper (fx ++ fx') = withoutWrapper fx ++ withoutWrapper fx'.
Proof. unfold withoutWrapper. apply List.filter_app. Qed.

(** The try block fetches first; when it throws after that, it has done
    nothing else, unless it is the success callback that threw. *)
Lemma tryBlock_cases env props :
  (exists t, tryBlock env props = ([ Fetch (requestUrl env props) ], inl t)
             /\ response env (requestUrl env props) <> IsOk Blob)
  \/ (response env (requestUrl env props) = IsOk Blob
      /\ tryBlock env props
         = (Fetch (requestUrl env props)
            :: Download (Filename.download (filename props) (pathname env))
            :: (optional (onExportSuccess props)).1,
            (optional (onExportSuccess props)).2)).
Proof.
  unfold tryBlock.
  destruct (response env (requestUrl env props)) as [t|[t|details]|[t|]];
    [left; by eexists..|right].
  split; [done|].
  by destruct (optional (onExportSuccess props)) as [fx [t|[]]].
Qed.

(** The try, catch and finally of [handleExport] together. *)
Lemma protected_cases env props :
  let run := tryCatchFinally (tryBlock env props) (catchBlock props)
               (emit (SetIsLoading ExportButton false)) in
  (tryBlock env props).2 = inr tt
  /\ run = ((tryBlock env props).1 ++ [ SetIsLoading ExportButton false ], inr tt)
  \/ exists t,
       (tryBlock env props).2 = inl t
       /\ run = ((tryBlock env props).1
                 ++ ConsoleError (asError t)
                    :: (optionalWith (onExportError props) (asError t)).1
                 ++ [ SetIsLoading ExportButton false ],
                 (optionalWith (onExportError props) (asError t)).2).
Proof.
  unfold tryCatchFinally, catchBlock.
  destruct (tryBlock env props) as [fx [t|[]]]; [right|by left].
  exists t. split; [done|].
  destruct (optionalWith (onExportError props) (asError t)) as [fx' r].
  cbn. by rewrite <- app_assoc.
Qed.

Lemma handleExport_unfold env props fx0 :
  default false (disabled props) = false ->
  optional (onExportStart props) = (fx0, inr tt) ->
  let protected := tryCatchFinally (tryBlock env props) (catchBlock props)
                     (emit (SetIsLoading ExportButton false)) in
  handleExport env props false
  = (SetIsLoading ExportButton true :: fx0 ++ protected.1, protected.2).
Proof.
  intros Hd Hstart protected. unfold handleExport. rewrite Hd. cbn [orb].
  fold protected. unfold mbind, Task_bind, emit. rewrite Hstart.
  by destruct protected as [fx r].
Qed.

End ButtonFacts.

(** X25.  An export that passes the guard, and whose start callback returns,
    fetches, and whatever the fetch gives and whatever the callbacks do, the
    last thing it does is to reset [isLoading]: the button is never left
    loading.  Its promise rejects only when the error callback was run and
    threw, with what that callback threw. *)
Theorem export_always_resets_the_button
    (env : Button.Env) (props : Button.Props) (fx0 : list Button.Effect) :
  let run := Button.handleExport env props false in
  default false (Button.disabled props) = false ->
  Button.optional (Button.onExportStart props) = (fx0, inr tt) ->
  (exists middle,
     run.1 = Button.SetIsLoading Button.ExportButton true :: fx0
             ++ Button.Fetch (Button.requestUrl env props) :: middle
             ++ [ Button.SetIsLoading Button.ExportButton false ])
  /\ (forall b, Button.isLoadingAfter Button.ExportButton b run.1 = false)
  /\ (forall t, run.2 = inl t ->
        exists err,
          Button.ConsoleError err ∈ run.1
          /\ (Button.optionalWith (Button.onExportError props) err).2 = inl t).
Proof.
  intros run Hd Hstart. subst run.
  rewrite (handleExport_unfold env props fx0 Hd Hstart). cbn [fst snd].
  assert (exists middle,
            (Button.tryCatchFinally (Button.tryBlock env props)
               (Button.catchBlock props)
               (Button.emit (Button.SetIsLoading Button.ExportButton false))).1
            = Button.Fetch (Button.requestUrl env props) :: middle
              ++ [ Button.SetIsLoading Button.ExportButton false ])
    as [middle Hmid].
  { destruct (protected_cases env props) as [[Hok Hrun]|(t & Ht & Hrun)];
      rewrite Hrun; cbn [fst];
      destruct (tryBlock_cases env props) as [(t' & Htry & _)|[_ Htry]];
      rewrite Htry in *; cbn [fst snd] in *.
    - discriminate Hok.
    - by exists (Button.Download
                   (Filename.download (Button.filename props) (Button.pathname env))
                 :: (Button.optional (Button.onExportSuccess props)).1).
    - by exists (Button.ConsoleError (Button.asError t)
                 :: (Button.optionalWith (Button.onExportError props)
                       (Button.asError t)).1).
    - exists (Button.Download
                (Filename.download (Button.filename props) (Button.pathname env))
              :: (Button.optional (Button.onExportSuccess props)).1
              ++ Button.ConsoleError (Button.asError t)
                 :: (Button.optionalWith (Button.onExportError props)
                       (Button.asError t)).1).
      simpl. by rewrite <- app_assoc. }
  split_and!.
  - exists middle. by rewrite Hmid.
  - intros b. rewrite Hmid.
    change (?a :: fx0 ++ ?b :: middle ++ ?c) with ((a :: fx0) ++ (b :: middle) ++ c).
    by rewrite app_assoc, isLoadingAfter_app.
  - intros t Ht.
    destruct (protected_cases env props) as [[_ Hrun]|(t' & _ & Hrun)];
      rewrite Hrun in Ht |- *; [done|].
    exists (Button.asError t'). split; [|done]. cbn [fst].
    apply elem_of_cons. right. apply elem_of_app. right.
    apply elem_of_app. right. apply elem_of_cons. by left.
Qed.

Lemma export_always_resets_the_button_witness :
  Button.isLoadingAfter Button.ExportButton true
    (Button.handleExport (Button.window Runs.neverCloses)
       (Button.listening None None (Some (Button.NotAnError "42"))) false).1
  = false.
Proof.
  apply (export_always_resets_the_button (Button.window Runs.neverCloses)
           (Button.listening None None (Some (Button.NotAnError "42")))
           [ Button.Notify "start" ]); reflexivity.
Defined.

(** X26.  The start callback runs outside the try block.  When it throws,
    the export rejects with what it threw, nothing is fetched, and
    [isLoading], set just before, is never reset: the button stays
    disabled, and every later click returns at once. *)
Theorem failing_start_callback_leaves_the_button_loading
    (env : Button.Env) (props : Button.Props) (fx0 : list Button.Effect)
    (t : Button.Thrown) :
  let run := Button.handleExport env props false in
  default false (Button.disabled props) = false ->
  Button.optional (Button.onExportStart props) = (fx0, inl t) ->
  Button.setsNoState fx0 ->
  run = (Button.SetIsLoading Button.ExportButton true :: fx0, inl t)
  /\ Button.isLoadingAfter Button.ExportButton false run.1 = true
  /\ Button.handleExport env props
       (Button.isLoadingAfter Button.ExportButton false run.1) = ([], inr tt).
Proof.
  intros run Hd Hstart Hquiet.
  assert (run = (Button.SetIsLoading Button.ExportButton true :: fx0, inl t)) as Hrun.
  { subst run. unfold Button.handleExport. rewrite Hd. cbn [orb].
    unfold mbind, Button.Task_bind, Button.emit. by rewrite Hstart. }
  assert (Button.isLoadingAfter Button.ExportButton false run.1 = true) as Hflag.
  { rewrite Hrun. cbn [fst].
    change (?a :: fx0) with ([ a ] ++ fx0).
    by rewrite isLoadingAfter_app, isLoadingAfter_idle. }
  split_and!; [done..|]. by rewrite Hflag.
Qed.

Lemma failing_start_callback_leaves_the_button_loading_witness :
  Button.handleExport (Button.window Handler.nothingFails)
    (Button.listening (Some (Button.AnError "not now")) None None) false
  = ([ Button.SetIsLoading Button.ExportButton true; Button.Notify "start" ],
     inl (Button.AnError "not now")).
Proof.
  apply (failing_start_callback_leaves_the_button_loading
           (Button.window Handler.nothingFails)
           (Button.listening (Some (Button.AnError "not now")) None None)
           [ Button.Notify "start" ] (Button.AnError "not now")).
  - reflexivity.
  - reflexivity.
  - by repeat constructor.
Defined.

(** X27.  The success callback runs inside the try block.  When it throws
    after the file has been downloaded, the catch block takes what it threw
    for a failure of the export: the error is logged and the error callback
    is run with it, so that one export runs both callbacks. *)
Theorem failing_success_callback_runs_the_error_callback
    (env : Button.Env) (props : Button.Props) (fx0 fx1 : list Button.Effect)
    (t : Button.Thrown) :
  let failure := Button.optionalWith (Button.onExportError props) (Button.asError t) in
  default false (Button.disabled props) = false ->
  Button.optional (Button.onExportStart props) = (fx0, inr tt) ->
  Button.response env (Button.requestUrl env props) = Button.IsOk Button.Blob ->
  Button.optional (Button.onExportSuccess props) = (fx1, inl t) ->
  Button.handleExport env props false
  = (Button.SetIsLoading Button.ExportButton true :: fx0
     ++ [ Button.Fetch (Button.requestUrl env props);
          Button.Download (Filename.download (Button.filename props)
                             (Button.pathname env)) ]
     ++ fx1 ++ [ Button.ConsoleError (Button.asError t) ] ++ failure.1
     ++ [ Button.SetIsLoading Button.ExportButton false ],
     failure.2).
Proof.
  intros failure Hd Hstart Hresp Hsuccess.
  rewrite (handleExport_unfold env props fx0 Hd Hstart).
  destruct (tryBlock_cases env props) as [(t' & _ & Hne)|[_ Htry]]; [done|].
  destruct (protected_cases env props) as [[Hok _]|(t' & Ht & ->)];
    rewrite Htry, Hsuccess in *; [discriminate Hok|].
  cbn [fst snd] in *. simplify_eq. subst failure.
  simpl. by rewrite <- ?app_assoc.
Qed.

Lemma failing_success_callback_runs_the_error_callback_witness :
  Button.handleExport (Button.window Handler.nothingFails)
    (Button.listening None (Some (Button.NotAnError "toast is gone")) None) false
  = ([ Button.SetIsLoading Button.ExportButton true; Button.Notify "start";
       Button.Fetch "/api/export-pdf?path=%2Fdocs%2Fsetup";
       Button.Download "docs-setup.pdf"; Button.Notify "success";
       Button.ConsoleError "toast is gone"; Button.Notify "error: toast is gone";
       Button.SetIsLoading Button.ExportButton false ],
     inr tt).
Proof.
  apply (failing_success_callback_runs_the_error_callback
           (Button.window Handler.nothingFails)
           (Button.listening None (Some (Button.NotAnError "toast is gone")) None)
           [ Button.Notify "start" ] [ Button.Notify "success" ]
           (Button.NotAnError "toast is gone")).
  - reflexivity.
  - reflexivity.
  - by vm_compute.
  - reflexivity.
Defined.

Lemma handler_failure_details world options request status body :
  let run := Handler.handler world options request Handler.initial in
  run.1 = inr (Handler.Json status body) ->
  Js.or_else
    (default "" (snd <$> List.find (fun kv => String.eqb kv.1 "details") body))
    "Failed to generate PDF"
  = Js.or_else (Runs.cause world request (Handler.events run.2))
      "Failed to generate PDF".
Proof.
  intros run Hr. subst run. unfold Runs.cause.
  destruct (Js.truthy (default "" (Handler.searchPath request))) eqn:Ht.
  - destruct (run_cases world options request Ht)
      as [(_ & _ & Hr')|[(_ & o & He & Hr')
         |(done & c & rest & e & _ & [(_ & He & Hr')|(Hne & o & He & Hr')])]];
      rewrite Hr' in Hr; try discriminate Hr; rewrite He;
      unfold HandlerLogic.failureReport in Hr.
    + destruct o; [discriminate Hr|]. rewrite firstThrown_returned.
      unfold Runs.plan.
      destruct (preparation_starts_with_launch options request) as [more ->].
      by simplify_eq.
    + by simplify_eq.
    + destruct o; [discriminate Hr|]. rewrite firstThrown_returned. by simplify_eq.
  - rewrite run_without_path in Hr |- * by done. simpl in Hr. by simplify_eq.
Qed.

(** X28.  The button and the handler together: when the handler answers a
    failure, with the status 400 or 500, the button logs and reports an
    error whose message is what the try block of the handler threw: what
    the first failing call of the run threw, or, when no call failed, what
    the constructor of the response threw.  The message is [Failed to
    generate PDF] when that is the empty string or when nothing was called:
    the handler's own [Missing path parameter] is in a field that the
    button does not read. *)
Theorem button_reports_the_first_failure
    (world : Handler.Browser) (options : Config.Options) (request : Handler.Request)
    (env : Button.Env) (props : Button.Props) (fx0 : list Button.Effect)
    (status : nat) (body : list (string * string)) :
  let run := Handler.handler world options request Handler.initial in
  let message :=
    Js.or_else (Runs.cause world request (Handler.events run.2))
      "Failed to generate PDF" in
  let failure := Button.optionalWith (Button.onExportError props) message in
  run.1 = inr (Handler.Json status body) ->
  Button.response env (Button.requestUrl env props)
  = Button.answered (Handler.Json status body) ->
  default false (Button.disabled props) = false ->
  Button.optional (Button.onExportStart props) = (fx0, inr tt) ->
  Button.handleExport env props false
  = (Button.SetIsLoading Button.ExportButton true :: fx0
     ++ [ Button.Fetch (Button.requestUrl env props); Button.ConsoleError message ]
     ++ failure.1 ++ [ Button.SetIsLoading Button.ExportButton false ],
     failure.2).
Proof.
  intros run message failure Hr Hresp Hd Hstart.
  rewrite (handleExport_unfold env props fx0 Hd Hstart).
  pose proof (handler_failure_details world options request status body Hr) as Hdetails.
  fold run in Hdetails. fold message in Hdetails.
  assert (Button.tryBlock env props
          = ([ Button.Fetch (Button.requestUrl env props) ],
             inl (Button.AnError message))) as Htry.
  { unfold Button.tryBlock. rewrite Hresp. unfold Button.answered.
    by rewrite Hdetails. }
  destruct (protected_cases env props) as [[Hok _]|(t & Ht & ->)];
    rewrite Htry in *; [discriminate Hok|].
  cbn [fst snd] in *. by simplify_eq.
Qed.

Lemma button_reports_the_first_failure_witness :
  Button.handleExport (Button.window Handler.navigationTimesOut)
    (Button.listening None None None) false
  = ([ Button.SetIsLoading Button.ExportButton true; Button.Notify "start";
       Button.Fetch "/api/export-pdf?path=%2Fdocs%2Fsetup";
       Button.ConsoleError "TimeoutError: Navigation timeout of 30000 ms exceeded";
       Button.Notify "error: TimeoutError: Navigation timeout of 30000 ms exceeded";
       Button.SetIsLoading Button.ExportButton false ],
     inr tt).
Proof.
  assert (Runs.cause Handler.navigationTimesOut Runs.setupRequest
            (Handler.events
               (Handler.handler Handler.navigationTimesOut Config.NoOptions
                  Runs.setupRequest Handler.initial).2)
          = "TimeoutError: Navigation timeout of 30000 ms exceeded")
    as Hcause by (by vm_compute).
  pose proof (button_reports_the_first_failure Handler.navigationTimesOut
                Config.NoOptions Runs.setupRequest
                (Button.window Handler.navigationTimesOut)
                (Button.listening None None None) [ Button.Notify "start" ] 500
                [ ("error", "Failed to generate PDF");
                  ("details", "TimeoutError: Navigation timeout of 30000 ms exceeded") ])
    as H.
  cbv zeta in H. rewrite Hcause in H. apply H.
  - by vm_compute.
  - by vm_compute.
  - reflexivity.
  - reflexivity.
Defined.

Section WrapperFacts.
Import Button.

Lemma isLoadingAfter_set owner b c b' fx :
  isLoadingAfter owner b (SetIsLoading c b' :: fx)
  = isLoadingAfter owner (if sameComponent c owner then b' else b) fx.
Proof. reflexivity. Qed.

Lemma isLoadingAfter_other owner b e fx :
  setsNoState [ e ] -> isLoadingAfter owner b (e :: fx) = isLoadingAfter owner b fx.
Proof. intros [He _]%Forall_cons. by destruct e. Qed.

Lemma isLoadingAfter_nil owner b : isLoadingAfter owner b [] = b.
Proof. reflexivity. Qed.

Ltac settle_flags :=
  repeat first
    [ rewrite isLoadingAfter_nil
    | rewrite isLoadingAfter_app
    | rewrite isLoadingAfter_idle by assumption
    | rewrite isLoadingAfter_set
    | rewrite isLoadingAfter_other by (by repeat constructor)
    | progress cbn [sameComponent] ];
  try reflexivity.

Ltac run_export :=
  unfold handleExport, fumadocsProps, tryCatchFinally, tryBlock, catchBlock,
    requestUrl, optional, optionalWith, mbind, mret, Task_bind, Task_ret, emit,
    throw;
  cbn [apiPath filename disabled onExportStart onExportSuccess onExportError
       default from_option id fst snd orb].

(** The export through the wrapper, case by case. *)
Lemma wrapper_cases env props isLoading :
  let plain := handleExport env props isLoading in
  let wrapped := handleExport env (fumadocsProps props) isLoading in
  withoutWrapper wrapped.1 = withoutWrapper plain.1
  /\ wrapped.2 = plain.2
  /\ (quietCallbacks props ->
      forall b, isLoadingAfter ExportButton b wrapped.1
                = isLoadingAfter FumadocsExportButton b wrapped.1).
Proof.
  intros plain wrapped. subst plain wrapped. unfold quietCallbacks. run_export.
  destruct isLoading; [by split_and!|]. cbn [orb].
  destruct (disabled props) as [[|]|]; cbn [default from_option id]; [by split_and!| |].
  all: destruct (onExportStart props) as [[fx0 [t0|[]]]|].
  all: try destruct (response env _) as [t|[t|details]|[t|]].
  all: destruct (onExportSuccess props) as [[fx1 [t1|[]]]|].
  all: destruct (onExportError props) as [f|].
  all: cbn [default from_option id fst snd app].
  all: try match goal with
           | g : string -> Task unit |- context [ ?h ?err ] =>
               constr_eq h g; destruct (g err) as [fxE [tE|[]]] eqn:Ef
           end.
  all: cbn [default from_option id fst snd app].
  all: split_and!;
    [ unfold withoutWrapper;
      repeat first [ progress cbn [List.filter] | rewrite List.filter_app ];
      reflexivity
    | reflexivity
    | ].
  all: intros (H0 & H1 & H2) b; cbn [fst] in H0, H1.
  all: try match goal with
           | Ef : ?g ?err = (_, _) |- _ =>
               specialize (H2 err); rewrite Ef in H2; cbn [fst] in H2
           end.
  all: settle_flags.
Qed.

End WrapperFacts.

(** X29.  [FumadocsExportButton] changes nothing in the export.  Apart from
    the wrapper's own [setIsLoading], the export through the wrapper does
    what the export of a plain [ExportButton] with the same props does, and
    ends the same way.  When the callbacks of the user touch no [isLoading]
    state, the two states agree once the export has settled: the label of
    the wrapper says [Generating...] exactly as long as the button is
    disabled, also when the start callback throws and both stay set. *)
Theorem fumadocs_button_wraps_the_export
    (env : Button.Env) (props : Button.Props) (isLoading : bool) :
  let plain := Button.handleExport env props isLoading in
  let wrapped := Button.handleExport env (Button.fumadocsProps props) isLoading in
  Button.quietCallbacks props ->
  Button.withoutWrapper wrapped.1 = Button.withoutWrapper plain.1
  /\ wrapped.2 = plain.2
  /\ forall b, Button.isLoadingAfter Button.ExportButton b wrapped.1
               = Button.isLoadingAfter Button.FumadocsExportButton b wrapped.1.
Proof.
  intros plain wrapped Hquiet.
  destruct (wrapper_cases env props isLoading) as (Hfx & Hr & Hflags).
  split_and!; [exact Hfx|exact Hr|by apply Hflags].
Qed.

Lemma fumadocs_button_wraps_the_export_witness :
  let wrapped :=
    Button.handleExport (Button.window Handler.navigationTimesOut)
      (Button.fumadocsProps (Button.listening None None None)) false in
  Button.withoutWrapper wrapped.1
  = Button.withoutWrapper
      (Button.handleExport (Button.window Handler.navigationTimesOut)
         (Button.listening None None None) false).1
  /\ Button.isLoadingAfter Button.ExportButton true wrapped.1
     = Button.isLoadingAfter Button.FumadocsExportButton true wrapped.1.
Proof.
  destruct (fumadocs_button_wraps_the_export
              (Button.window Handler.navigationTimesOut)
              (Button.listening None None None) false) as (Hfx & _ & Hflags).
  - unfold Button.quietCallbacks. split_and!; [by repeat constructor..|].
    intros err. by repeat constructor.
  - split; [exact Hfx|exact (Hflags true)].
Defined.
